(** * SnapQuiz: the quiz-attempt lifecycle

    A shallow embedding of the control logic of the student side of the
    application: joining a quiz ([StudentDashboard.handleJoinQuiz],
    [QuizAccess.handleStartQuiz]), taking it under a countdown
    ([QuizTaking.initializeQuiz], [QuizTaking.handleSubmitQuiz] and the timer
    effect), the one-hour embargo on results ([StudentDashboard.viewResults])
    and the username gate ([UsernameSetup.handleSubmit]); then what the
    screens show around them (the clock, the progress bar, the status and
    button of the start page, the results page and the statistics of the
    dashboard) and the generation of quiz codes in the database.

    The backend is modelled as a record of tables with the constraints of the
    SQL schema; every request can moreover fail for reasons outside the
    tables (network, policy), as decided by a fault predicate.  JavaScript
    numbers are IEEE-754 doubles: each arithmetic operation is the exact
    rational operation followed by rounding to 53 significant bits. *)

From Stdlib Require Import ZArith QArith Qround Qabs Qpower Qreduction.
From Stdlib Require Import Lia Lqa List String Ascii Bool DecimalString.
From Stdlib Require Import Morphisms Sorted Permutation.
From Stdlib Require Import Floats.PrimFloat Floats.FloatOps Floats.SpecFloat Uint63.
Import ListNotations.

(* ================================================================== *)
(** * JavaScript numbers *)

Module Number.

Local Open Scope Q_scope.

(** [ilog2 x] is the binary exponent of a positive rational:
    [2 ^ ilog2 x <= x < 2 ^ (ilog2 x + 1)]. *)
Definition ilog2 (x : Q) : Z :=
  let k := (Z.log2 (Qnum x) - Z.log2 (Zpos (Qden x)))%Z in
  if Qle_bool (2 ^ k) x then k else (k - 1)%Z.

(** Nearest integer, ties to even. *)
Definition rne (x : Q) : Z :=
  let f := Qfloor x in
  match Qcompare (x - inject_Z f) (1 # 2) with
  | Lt => f
  | Gt => (f + 1)%Z
  | Eq => if Z.even f then f else (f + 1)%Z
  end.

(** Unit in the last place of a double in the binade of [x]. *)
Definition ulp (x : Q) : Q := 2 ^ (ilog2 x - 52).

Definition rnd_pos (x : Q) : Q := inject_Z (rne (x / ulp x)) * ulp x.

(** Rounding of an exact result to the nearest double.  The exponent range
    is not bounded: overflow and subnormal numbers, which no computation
    of this program reaches, are outside the model, and so is the sign of
    zero. *)
Definition rnd (x : Q) : Q :=
  match Qnum x with
  | Z0 => 0
  | Zpos _ => Qred (rnd_pos x)
  | Zneg _ => Qred (- rnd_pos (- x))
  end.

Inductive Number : Type :=
| Finite (q : Q)
| PlusInfinity
| MinusInfinity
| NaN.

Definition ofZ (z : Z) : Number := Finite (rnd (inject_Z z)).

Definition negate (a : Number) : Number :=
  match a with
  | Finite q => Finite (Qred (- q))
  | PlusInfinity => MinusInfinity
  | MinusInfinity => PlusInfinity
  | NaN => NaN
  end.

(** An infinity carrying the sign of [q], [NaN] when [q] is zero. *)
Definition signed_infinity (q : Q) : Number :=
  match Qcompare q 0 with
  | Eq => NaN
  | Gt => PlusInfinity
  | Lt => MinusInfinity
  end.

Definition div (a b : Number) : Number :=
  match a, b with
  | NaN, _ | _, NaN => NaN
  | Finite x, Finite y =>
      if Qeq_bool y 0 then signed_infinity x else Finite (rnd (x / y))
  | Finite _, _ => Finite 0
  | PlusInfinity, Finite y =>
      if Qle_bool 0 y then PlusInfinity else MinusInfinity
  | MinusInfinity, Finite y =>
      if Qle_bool 0 y then MinusInfinity else PlusInfinity
  | _, _ => NaN
  end.

Definition mul (a b : Number) : Number :=
  match a, b with
  | NaN, _ | _, NaN => NaN
  | Finite x, Finite y => Finite (rnd (x * y))
  | Finite x, PlusInfinity | PlusInfinity, Finite x => signed_infinity x
  | Finite x, MinusInfinity | MinusInfinity, Finite x =>
      negate (signed_infinity x)
  | PlusInfinity, PlusInfinity | MinusInfinity, MinusInfinity =>
      PlusInfinity
  | _, _ => MinusInfinity
  end.

Definition sub (a b : Number) : Number :=
  match a, b with
  | NaN, _ | _, NaN => NaN
  | Finite x, Finite y => Finite (rnd (x - y))
  | Finite _, PlusInfinity | MinusInfinity, Finite _
  | MinusInfinity, PlusInfinity => MinusInfinity
  | Finite _, MinusInfinity | PlusInfinity, Finite _
  | PlusInfinity, MinusInfinity => PlusInfinity
  | _, _ => NaN
  end.


(** [Math.round]: the nearest integer, ties towards plus infinity. *)
Definition Math_round (a : Number) : Number :=
  match a with
  | Finite q => Finite (inject_Z (Qfloor (q + (1 # 2))))
  | other => other
  end.


(** What reaches an INTEGER column of the store when a number is sent in
    a JSON body: [NaN] and the infinities are serialised as [null]. *)
Definition to_integer (a : Number) : option Z :=
  match a with
  | Finite q => Some (Qfloor q)
  | _ => None
  end.

Definition add (a b : Number) : Number :=
  match a, b with
  | NaN, _ | _, NaN => NaN
  | Finite x, Finite y => Finite (rnd (x + y))
  | PlusInfinity, MinusInfinity | MinusInfinity, PlusInfinity => NaN
  | PlusInfinity, _ | _, PlusInfinity => PlusInfinity
  | MinusInfinity, _ | _, MinusInfinity => MinusInfinity
  end.

(** [Math.floor], and [floor] on [double precision] in SQL. *)
Definition Math_floor (a : Number) : Number :=
  match a with
  | Finite q => Finite (inject_Z (Qfloor q))
  | other => other
  end.

End Number.

(* ================================================================== *)
(** * JavaScript strings

    A string is a sequence of code units; the model covers the code units
    below 256 (Latin-1). *)

Module JsString.

Local Open Scope N_scope.

Definition between (lo hi n : N) : bool := (lo <=? n) && (n <=? hi).

(** White space and line terminators removed by [trim]. *)
Definition is_whitespace (c : ascii) : bool :=
  let n := N_of_ascii c in
  between 9 13 n || (n =? 32) || (n =? 160).

Definition is_upper (c : ascii) : bool :=
  let n := N_of_ascii c in
  between 65 90 n || (between 192 222 n && negb (n =? 215)).

Definition is_lower (c : ascii) : bool :=
  let n := N_of_ascii c in
  between 97 122 n || (between 224 254 n && negb (n =? 247)).

Definition lower_char (c : ascii) : ascii :=
  if is_upper c then ascii_of_N (N_of_ascii c + 32) else c.

(** The three lower-case letters of the range whose upper-case form lies
    outside it (sharp s, micro sign, y with diaeresis) are left as they
    are. *)
Definition upper_char (c : ascii) : ascii :=
  if is_lower c then ascii_of_N (N_of_ascii c - 32) else c.

Fixpoint toLowerCase (s : string) : string :=
  match s with
  | EmptyString => EmptyString
  | String c r => String (lower_char c) (toLowerCase r)
  end.

Fixpoint toUpperCase (s : string) : string :=
  match s with
  | EmptyString => EmptyString
  | String c r => String (upper_char c) (toUpperCase r)
  end.

Fixpoint trimStart (s : string) : string :=
  match s with
  | EmptyString => EmptyString
  | String c r => if is_whitespace c then trimStart r else s
  end.

Fixpoint trimEnd (s : string) : string :=
  match s with
  | EmptyString => EmptyString
  | String c r =>
      match trimEnd r with
      | EmptyString => if is_whitespace c then EmptyString
                       else String c EmptyString
      | r' => String c r'
      end
  end.

Definition trim (s : string) : string := trimEnd (trimStart s).

(** Truthiness of a string: only the empty string is falsy. *)
Definition truthy (s : string) : bool :=
  match s with
  | EmptyString => false
  | _ => true
  end.

(** The character class [[a-zA-Z0-9_-]]. *)
Definition is_username_char (c : ascii) : bool :=
  let n := N_of_ascii c in
  between 97 122 n || between 65 90 n || between 48 57 n
  || (n =? 95) || (n =? 45).

Fixpoint all_chars (p : ascii -> bool) (s : string) : bool :=
  match s with
  | EmptyString => true
  | String c r => p c && all_chars p r
  end.

(** [/^[a-zA-Z0-9_-]+$/.test(s)]: without the multiline flag the anchors
    match only at the two ends of the input. *)
Definition test_username_regex (s : string) : bool :=
  truthy s && all_chars is_username_char s.

End JsString.

(* ================================================================== *)
(** * The store (tables, constraints and requests) *)

Definition uuid := string.

(** A time value: milliseconds since the epoch, as [Date.getTime] returns
    it.  Time values are integers, compared as such. *)
Definition timestamp := Z.

Definition getTime (t : timestamp) : Number.Number := Number.ofZ t.


Module Quiz.
Record row := {
  id : uuid;
  quiz_code : string;
  is_active : bool;
  start_time : option timestamp;
  end_time : option timestamp;
  duration_minutes : Z;
  created_at : timestamp }.
End Quiz.

Module Question.
Record row := {
  id : uuid;
  quiz_id : uuid;
  correct_answer : string;
  order_index : Z }.
End Question.

Module Attempt.
Record row := {
  id : uuid;
  quiz_id : uuid;
  student_id : uuid;
  started_at : timestamp;
  completed_at : option timestamp;
  score : option Z;
  total_questions : Z;
  is_completed : bool;
  time_taken_minutes : option Z }.
End Attempt.

Module StudentAnswer.
Record row := {
  attempt_id : uuid;
  question_id : uuid;
  student_answer : string;
  is_correct : bool }.
End StudentAnswer.

Module Profile.
Record row := {
  id : uuid;
  username : option string }.
End Profile.

Module Store.

Local Open Scope string_scope.

Record Tables := {
  quizzes : list Quiz.row;
  questions : list Question.row;
  quiz_attempts : list Attempt.row;
  student_answers : list StudentAnswer.row;
  profiles : list Profile.row }.

(** The requests the application sends. *)
Inductive Request :=
| SelectQuiz (id : uuid)
| SelectQuizByCode (code : string)
| SelectQuestions (quiz : uuid)
| SelectCorrectAnswer (question : uuid)
| SelectAttempt (quiz student : uuid)
| InsertAttempt
| InsertAnswers
| UpdateAnswer (question : uuid)
| UpdateAttempt
| UpdateUsername.

(** A backend is the tables together with the requests that are not
    served (lost connection, refused by a policy). *)
Record Backend := {
  tables : Tables;
  down : Request -> bool }.

(** The [{ data, error }] pair of a response: exactly one is set. *)
Inductive Result (A : Type) :=
| Data (a : A)
| Error (code : string).
Arguments Data {A} a.
Arguments Error {A} code.

Definition unavailable := "unavailable".
Definition unique_violation := "23505".
Definition foreign_key_violation := "23503".
Definition not_null_violation := "23502".
Definition no_single_row := "PGRST116".

Definition with_tables (be : Backend) (t : Tables) : Backend :=
  {| tables := t; down := down be |}.

(** [.single()]: exactly one row, or an error. *)
Definition single {A} (rows : list A) : Result A :=
  match rows with
  | [r] => Data r
  | _ => Error no_single_row
  end.

Definition same_pair (quiz student : uuid) (a : Attempt.row) : bool :=
  (Attempt.quiz_id a =? quiz) && (Attempt.student_id a =? student).

Fixpoint insert_by_order (q : Question.row) (l : list Question.row) :=
  match l with
  | [] => [q]
  | h :: t => if (Question.order_index q <=? Question.order_index h)%Z
              then q :: l else h :: insert_by_order q t
  end.

(** [.order('order_index')] *)
Definition order_by_index (l : list Question.row) : list Question.row :=
  fold_right insert_by_order [] l.

Definition select_quiz (be : Backend) (id : uuid) : Result Quiz.row :=
  if down be (SelectQuiz id) then Error unavailable
  else single (filter (fun q => Quiz.id q =? id) (quizzes (tables be))).

Definition select_quiz_by_code (be : Backend) (code : string)
  : Result Quiz.row :=
  if down be (SelectQuizByCode code) then Error unavailable
  else single (filter (fun q => Quiz.quiz_code q =? code)
                      (quizzes (tables be))).

(** [.eq('quiz_code', code).eq('is_active', true).single()] *)
Definition select_active_quiz_by_code (be : Backend) (code : string)
  : Result Quiz.row :=
  if down be (SelectQuizByCode code) then Error unavailable
  else single (filter (fun q => (Quiz.quiz_code q =? code)
                                && Bool.eqb (Quiz.is_active q) true)
                      (quizzes (tables be))).

Definition select_questions (be : Backend) (quiz : uuid)
  : Result (list Question.row) :=
  if down be (SelectQuestions quiz) then Error unavailable
  else Data (order_by_index
               (filter (fun q => Question.quiz_id q =? quiz)
                       (questions (tables be)))).

Definition select_correct_answer (be : Backend) (question : uuid)
  : Result string :=
  if down be (SelectCorrectAnswer question) then Error unavailable
  else match single (filter (fun q => Question.id q =? question)
                            (questions (tables be))) with
       | Data q => Data (Question.correct_answer q)
       | Error e => Error e
       end.

Definition select_attempt (be : Backend) (quiz student : uuid)
  : Result Attempt.row :=
  if down be (SelectAttempt quiz student) then Error unavailable
  else single (filter (same_pair quiz student)
                      (quiz_attempts (tables be))).

(** Insertion into [quiz_attempts]: primary key, UNIQUE(quiz_id,
    student_id) and the two foreign keys; the columns the request leaves
    out take their defaults.  [fresh] is the identifier the store draws
    for the row. *)
Definition insert_attempt (be : Backend) (fresh quiz student : uuid)
    (total : Z) (started : timestamp) : Result Attempt.row * Backend :=
  let t := tables be in
  if down be InsertAttempt then (Error unavailable, be)
  else if existsb (fun a => Attempt.id a =? fresh) (quiz_attempts t)
  then (Error unique_violation, be)
  else if existsb (same_pair quiz student) (quiz_attempts t)
  then (Error unique_violation, be)
  else if negb (existsb (fun q => Quiz.id q =? quiz) (quizzes t))
          || negb (existsb (fun p => Profile.id p =? student) (profiles t))
  then (Error foreign_key_violation, be)
  else
    let r := {| Attempt.id := fresh;
                Attempt.quiz_id := quiz;
                Attempt.student_id := student;
                Attempt.started_at := started;
                Attempt.completed_at := None;
                Attempt.score := Some 0%Z;
                Attempt.total_questions := total;
                Attempt.is_completed := false;
                Attempt.time_taken_minutes := None |} in
    (Data r,
     with_tables be
       {| quizzes := quizzes t;
          questions := questions t;
          quiz_attempts := quiz_attempts t ++ [r];
          student_answers := student_answers t;
          profiles := profiles t |}).

(** The rows of one batch insert into [student_answers]; the attempt
    identifier is the component's, possibly still [null]. *)
Definition answer_rows (attempt : option uuid)
    (entries : list (uuid * string)) : option (list StudentAnswer.row) :=
  match attempt with
  | None => None
  | Some a =>
      Some (map (fun e => {| StudentAnswer.attempt_id := a;
                             StudentAnswer.question_id := fst e;
                             StudentAnswer.student_answer := snd e;
                             StudentAnswer.is_correct := false |})
                entries)
  end.

Definition answer_refs_ok (t : Tables) (r : StudentAnswer.row) : bool :=
  existsb (fun a => Attempt.id a =? StudentAnswer.attempt_id r)
          (quiz_attempts t)
  && existsb (fun q => Question.id q =? StudentAnswer.question_id r)
             (questions t).

Definition insert_answers (be : Backend) (attempt : option uuid)
    (entries : list (uuid * string)) : Result unit * Backend :=
  let t := tables be in
  if down be InsertAnswers then (Error unavailable, be)
  else match answer_rows attempt entries with
       | None => (Error not_null_violation, be)
       | Some rows =>
           if forallb (answer_refs_ok t) rows
           then (Data tt,
                 with_tables be
                   {| quizzes := quizzes t;
                      questions := questions t;
                      quiz_attempts := quiz_attempts t;
                      student_answers := student_answers t ++ rows;
                      profiles := profiles t |})
           else (Error foreign_key_violation, be)
       end.

Definition id_is (attempt : option uuid) (id : uuid) : bool :=
  match attempt with
  | Some a => id =? a
  | None => false
  end.

(** [.update({ is_correct }).eq('attempt_id', _).eq('question_id', _)];
    the caller does not look at the response. *)
Definition update_answer (be : Backend) (attempt : option uuid)
    (question : uuid) (correct : bool) : Backend :=
  let t := tables be in
  if down be (UpdateAnswer question) then be
  else with_tables be
    {| quizzes := quizzes t;
       questions := questions t;
       quiz_attempts := quiz_attempts t;
       student_answers :=
         map (fun r =>
                if id_is attempt (StudentAnswer.attempt_id r)
                   && (StudentAnswer.question_id r =? question)
                then {| StudentAnswer.attempt_id := StudentAnswer.attempt_id r;
                        StudentAnswer.question_id := StudentAnswer.question_id r;
                        StudentAnswer.student_answer := StudentAnswer.student_answer r;
                        StudentAnswer.is_correct := correct |}
                else r)
             (student_answers t);
       profiles := profiles t |}.

Definition complete (a : Attempt.row) (completed : timestamp)
    (score minutes : option Z) : Attempt.row :=
  {| Attempt.id := Attempt.id a;
     Attempt.quiz_id := Attempt.quiz_id a;
     Attempt.student_id := Attempt.student_id a;
     Attempt.started_at := Attempt.started_at a;
     Attempt.completed_at := Some completed;
     Attempt.score := score;
     Attempt.total_questions := Attempt.total_questions a;
     Attempt.is_completed := true;
     Attempt.time_taken_minutes := minutes |}.

(** [.update({ is_completed: true, completed_at, score,
    time_taken_minutes }).eq('id', _)] *)
Definition update_attempt (be : Backend) (attempt : option uuid)
    (completed : timestamp) (score minutes : option Z)
  : Result unit * Backend :=
  let t := tables be in
  if down be UpdateAttempt then (Error unavailable, be)
  else (Data tt,
        with_tables be
          {| quizzes := quizzes t;
             questions := questions t;
             quiz_attempts :=
               map (fun a => if id_is attempt (Attempt.id a)
                             then complete a completed score minutes
                             else a)
                   (quiz_attempts t);
             student_answers := student_answers t;
             profiles := profiles t |}).

(** [.update({ username }).eq('id', _)] under the UNIQUE constraint of
    the column. *)
Definition update_username (be : Backend) (id : uuid) (name : string)
  : Result unit * Backend :=
  let t := tables be in
  if down be UpdateUsername then (Error unavailable, be)
  else if existsb (fun p => negb (Profile.id p =? id)
                            && match Profile.username p with
                               | Some u => u =? name
                               | None => false
                               end)
                  (profiles t)
          && existsb (fun p => Profile.id p =? id) (profiles t)
  then (Error unique_violation, be)
  else (Data tt,
        with_tables be
          {| quizzes := quizzes t;
             questions := questions t;
             quiz_attempts := quiz_attempts t;
             student_answers := student_answers t;
             profiles :=
               map (fun p => if Profile.id p =? id
                             then {| Profile.id := Profile.id p;
                                     Profile.username := Some name |}
                             else p)
                   (profiles t) |}).

(** ** The requests of the pages that only read

    They are served or lost independently of the ones above. *)
Inductive Read :=
| ReadAttempt (id : uuid)
| ReadAnswers (attempt : uuid)
| ReadAttempts (student : uuid).

(** [.from('quiz_attempts').eq('id', id).single()] *)
Definition select_attempt_by_id (lost : Read -> bool) (t : Tables)
    (id : uuid) : Result Attempt.row :=
  if lost (ReadAttempt id) then Error unavailable
  else single (filter (fun a => Attempt.id a =? id) (quiz_attempts t)).

(** [.from('student_answers').eq('attempt_id', attempt)] *)
Definition select_answers_of (lost : Read -> bool) (t : Tables)
    (attempt : uuid) : Result (list StudentAnswer.row) :=
  if lost (ReadAnswers attempt) then Error unavailable
  else Data (filter (fun r => StudentAnswer.attempt_id r =? attempt)
                    (student_answers t)).




(** The question a row of [student_answers] is joined with. *)
Definition question_of (t : Tables) (r : StudentAnswer.row)
  : option Question.row :=
  find (fun q => Question.id q =? StudentAnswer.question_id r) (questions t).

End Store.

(* ================================================================== *)
(** * What a handler shows and calls *)

(** A piece of a template literal. *)
Inductive Piece :=
| Str (s : string)
| Num (n : Number.Number)
| LocaleTime (t : timestamp).

Record Toast := {
  title : string;
  description : list Piece;
  destructive : bool }.

Inductive Effect :=
| toast (t : Toast)
| console_error
| onBack
| onCompleted
| onComplete.

Definition failure (message : string) : Toast :=
  {| title := "Error"; description := [Str message]; destructive := true |}.

(* ================================================================== *)
(** * QuizTaking.tsx *)

Module QuizTaking.

Import Store.
Local Open Scope string_scope.

(** The state of the component.  [timeLeft] counts seconds; it starts
    from a 32-bit column times sixty and goes down by one, so it stays an
    exact integer. *)
Record State := {
  quiz : option Quiz.row;
  questions : list Question.row;
  currentQuestionIndex : nat;
  answers : list (uuid * string);
  attemptId : option uuid;
  timeLeft : Z;
  loading : bool;
  submitting : bool }.

(** The state at mount. *)
Definition initial : State :=
  {| quiz := None; questions := []; currentQuestionIndex := 0;
     answers := []; attemptId := None; timeLeft := 0;
     loading := true; submitting := false |}.

Definition setLoading (b : bool) (st : State) : State :=
  {| quiz := quiz st; questions := questions st;
     currentQuestionIndex := currentQuestionIndex st;
     answers := answers st; attemptId := attemptId st;
     timeLeft := timeLeft st; loading := b; submitting := submitting st |}.

Definition setSubmitting (b : bool) (st : State) : State :=
  {| quiz := quiz st; questions := questions st;
     currentQuestionIndex := currentQuestionIndex st;
     answers := answers st; attemptId := attemptId st;
     timeLeft := timeLeft st; loading := loading st; submitting := b |}.

Definition setTimeLeft (t : Z) (st : State) : State :=
  {| quiz := quiz st; questions := questions st;
     currentQuestionIndex := currentQuestionIndex st;
     answers := answers st; attemptId := attemptId st;
     timeLeft := t; loading := loading st; submitting := submitting st |}.

Definition setAnswers (a : list (uuid * string)) (st : State) : State :=
  {| quiz := quiz st; questions := questions st;
     currentQuestionIndex := currentQuestionIndex st;
     answers := a; attemptId := attemptId st;
     timeLeft := timeLeft st; loading := loading st;
     submitting := submitting st |}.

Definition setCurrentQuestionIndex (i : nat) (st : State) : State :=
  {| quiz := quiz st; questions := questions st;
     currentQuestionIndex := i;
     answers := answers st; attemptId := attemptId st;
     timeLeft := timeLeft st; loading := loading st;
     submitting := submitting st |}.

(** [setQuiz; setQuestions; setAttemptId; setTimeLeft] of a successful
    initialisation. *)
Definition loaded (q : Quiz.row) (qs : list Question.row) (a : uuid)
    (st : State) : State :=
  {| quiz := Some q; questions := qs;
     currentQuestionIndex := currentQuestionIndex st;
     answers := answers st; attemptId := Some a;
     timeLeft := (Quiz.duration_minutes q * 60)%Z;
     loading := loading st; submitting := submitting st |}.

Definition initializeQuiz (now : timestamp) (fresh : uuid)
    (quizId student : uuid) (st : State) (be : Backend)
  : State * Backend * list Effect :=
  let failed be' :=
    (setLoading false st, be',
     [console_error;
      toast (failure "Failed to load quiz. Please try again.");
      onBack]) in
  match select_quiz be quizId with
  | Error _ => failed be
  | Data quizData =>
      match select_questions be quizId with
      | Error _ => failed be
      | Data questionsData =>
          match insert_attempt be fresh quizId student
                  (Z.of_nat (List.length questionsData)) now with
          | (Error _, be') => failed be'
          | (Data attempt, be') =>
              (setLoading false
                 (loaded quizData questionsData (Attempt.id attempt) st),
               be', [])
          end
      end
  end.

(** [{ ...prev, [questionId]: answer }]: an existing key keeps its place,
    a new one goes last. *)
Fixpoint assign (prev : list (uuid * string)) (questionId : uuid)
    (answer : string) : list (uuid * string) :=
  match prev with
  | [] => [(questionId, answer)]
  | (k, v) :: rest =>
      if k =? questionId then (k, answer) :: rest
      else (k, v) :: assign rest questionId answer
  end.

Definition handleAnswerChange (questionId : uuid) (answer : string)
    (st : State) : State :=
  setAnswers (assign (answers st) questionId answer) st.

Definition handleNextQuestion (st : State) : State :=
  if (currentQuestionIndex st <? List.length (questions st) - 1)%nat
  then setCurrentQuestionIndex (currentQuestionIndex st + 1) st
  else st.

Definition handlePreviousQuestion (st : State) : State :=
  if (0 <? currentQuestionIndex st)%nat
  then setCurrentQuestionIndex (currentQuestionIndex st - 1) st
  else st.

(** [studentAnswer.toLowerCase().trim() ===
     question.correct_answer.toLowerCase().trim()] *)
Definition isCorrect (studentAnswer correct_answer : string) : bool :=
  JsString.trim (JsString.toLowerCase studentAnswer)
  =? JsString.trim (JsString.toLowerCase correct_answer).

(** One turn of the scoring loop. *)
Definition score_entry (attempt : option uuid)
    (acc : Z * Backend) (entry : uuid * string) : Z * Backend :=
  let '(score, be) := acc in
  let '(questionId, studentAnswer) := entry in
  match select_correct_answer be questionId with
  | Data correct_answer =>
      let correct := isCorrect studentAnswer correct_answer in
      ((if correct then score + 1 else score)%Z,
       update_answer be attempt questionId correct)
  | Error _ => (score, be)
  end.

Definition scoring_loop (attempt : option uuid)
    (entries : list (uuid * string)) (be : Backend) : Z * Backend :=
  fold_left (score_entry attempt) entries (0%Z, be).

(** [Math.round((score / questions.length) * 100)] *)
Definition finalScore (score : Z) (questions_length : nat)
  : Number.Number :=
  Number.Math_round
    (Number.mul
       (Number.div (Number.ofZ score)
                   (Number.ofZ (Z.of_nat questions_length)))
       (Number.ofZ 100)).

(** [Math.round((endTime - startTime) / (1000 * 60))] *)
Definition timeTakenMinutes (startTime endTime : Number.Number)
  : Number.Number :=
  Number.Math_round
    (Number.div (Number.sub endTime startTime)
                (Number.mul (Number.ofZ 1000) (Number.ofZ 60))).

Definition submitted (score : Number.Number) : Toast :=
  {| title := "Quiz Submitted!";
     description := [Str "You scored "; Num score;
                     Str "%. Results will be available in 1 hour."];
     destructive := false |}.

Definition submit_failed : list Effect :=
  [console_error;
   toast (failure "Failed to submit quiz. Please try again.")].

(** The [try] block of [handleSubmitQuiz], on the state its closure
    captured.  [now] is the clock at entry, [later] the clock when the
    attempt is updated. *)
Definition submit_try (now later : timestamp) (st : State) (be : Backend)
  : Backend * list Effect :=
  match quiz st with
  | None => (be, submit_failed)
  | Some q =>
      let startTime := getTime (Quiz.created_at q) in
      let endTime := getTime now in
      let minutes := timeTakenMinutes startTime endTime in
      let entries := answers st in
      let inserted :=
        if (0 <? List.length entries)%nat
        then insert_answers be (attemptId st) entries
        else (Data tt, be) in
      match inserted with
      | (Error _, be1) => (be1, submit_failed)
      | (Data _, be1) =>
          let '(score, be2) := scoring_loop (attemptId st) entries be1 in
          let final := finalScore score (List.length (questions st)) in
          match update_attempt be2 (attemptId st) later
                  (Number.to_integer final)
                  (Number.to_integer minutes) with
          | (Error _, be3) => (be3, submit_failed)
          | (Data _, be3) => (be3, [toast (submitted final); onCompleted])
          end
      end
  end.

Definition handleSubmitQuiz (now later : timestamp) (st : State)
    (be : Backend) : State * Backend * list Effect :=
  if submitting st then (st, be, [])
  else
    let '(be', effects) := submit_try now later st be in
    (setSubmitting false st, be', effects).

(** ** The countdown

    What the effect on [[timeLeft, quiz]] does after a render. *)
Inductive TimerAction :=
| schedule (next : Z)
| submit
| idle.

Definition timer_effect (st : State) : TimerAction :=
  if (0 <? timeLeft st)%Z then schedule (timeLeft st - 1)
  else if (timeLeft st =? 0)%Z
          && match quiz st with Some _ => true | None => false end
       then submit
       else idle.

(** ** What the render reads and the controls it offers *)

(** [answers[questionId]]: the value under the key, when the key is
    there. *)
Fixpoint answer_of (answers : list (uuid * string)) (questionId : uuid)
  : option string :=
  match answers with
  | [] => None
  | (k, v) :: rest =>
      if k =? questionId then Some v else answer_of rest questionId
  end.

(** [questions[currentQuestionIndex]] *)
Definition currentQuestion (st : State) : option Question.row :=
  nth_error (questions st) (currentQuestionIndex st).

(** [Object.keys(answers).length] *)
Definition answeredQuestions (st : State) : nat := List.length (answers st).

(** The controls of the question on screen: its input, whose [onChange]
    calls [handleAnswerChange(currentQuestion.id, value)], and the two
    navigation buttons.  Without a question on screen there is no
    input. *)
Inductive Control :=
| typed (text : string)
| press_previous
| press_next.

Definition operate (st : State) (c : Control) : State :=
  match c with
  | typed text =>
      match currentQuestion st with
      | Some q => handleAnswerChange (Question.id q) text st
      | None => st
      end
  | press_previous => handlePreviousQuestion st
  | press_next => handleNextQuestion st
  end.

(** ** The clock *)

(** [n.toString()] for an integer. *)
Definition toString (n : Z) : string := NilZero.string_of_int (Z.to_int n).

(** [s.padStart(targetLength, c)] for a filler of one character. *)
Fixpoint filler (n : nat) (c : ascii) (s : string) : string :=
  match n with
  | O => s
  | S n' => String c (filler n' c s)
  end.

Definition padStart (targetLength : nat) (c : ascii) (s : string) : string :=
  filler (targetLength - String.length s) c s.

(** [formatTime]: [Math.floor(seconds / 60)], [seconds % 60] and the
    template that joins them.  On integers [%] is the remainder whose
    sign is that of the dividend. *)
Definition formatTime (seconds : Z) : list Piece :=
  let mins :=
    Number.Math_floor (Number.div (Number.ofZ seconds) (Number.ofZ 60)) in
  let secs := Z.rem seconds 60 in
  [Num mins; Str ":"; Str (padStart 2 "0" (toString secs))].

(** [((currentQuestionIndex + 1) / questions.length) * 100], the value
    of the progress bar. *)
Definition progress (st : State) : Number.Number :=
  Number.mul
    (Number.div
       (Number.ofZ (Z.of_nat (currentQuestionIndex st + 1)))
       (Number.ofZ (Z.of_nat (List.length (questions st)))))
    (Number.ofZ 100).

End QuizTaking.

(* ================================================================== *)
(** * The availability window

    [quiz.start_time && new Date(quiz.start_time) > now] and
    [quiz.end_time && new Date(quiz.end_time) < now], written alike in
    StudentDashboard.tsx and in QuizAccess.tsx; the result is the bound
    that is violated. *)

Definition not_yet_open (now : timestamp) (q : Quiz.row) : option timestamp :=
  match Quiz.start_time q with
  | Some start => if (now <? start)%Z then Some start else None
  | None => None
  end.

Definition already_closed (now : timestamp) (q : Quiz.row)
  : option timestamp :=
  match Quiz.end_time q with
  | Some finish => if (finish <? now)%Z then Some finish else None
  | None => None
  end.

Definition quiz_not_available (start : timestamp) : Toast :=
  {| title := "Quiz Not Available";
     description := [Str "Quiz will be available from "; LocaleTime start];
     destructive := true |}.

Definition quiz_expired (finish : timestamp) : Toast :=
  {| title := "Quiz Expired";
     description := [Str "Quiz was available until "; LocaleTime finish];
     destructive := true |}.

(* ================================================================== *)
(** * StudentDashboard.tsx *)

Module StudentDashboard.

Import Store.
Local Open Scope string_scope.

Inductive View := dashboard | quiz | results.

Record State := {
  quizCode : string;
  activeView : View;
  selectedQuizId : option uuid;
  selectedAttemptId : option uuid;
  attempts : list Attempt.row;
  loading : bool }.

Definition setLoading (b : bool) (st : State) : State :=
  {| quizCode := quizCode st; activeView := activeView st;
     selectedQuizId := selectedQuizId st;
     selectedAttemptId := selectedAttemptId st;
     attempts := attempts st; loading := b |}.

(** [setSelectedQuizId(id); setActiveView('quiz')] *)
Definition openQuiz (id : uuid) (st : State) : State :=
  {| quizCode := quizCode st; activeView := quiz;
     selectedQuizId := Some id;
     selectedAttemptId := selectedAttemptId st;
     attempts := attempts st; loading := loading st |}.


Definition invalid_code : Toast :=
  {| title := "Invalid Code";
     description := [Str "Please enter a valid quiz code"];
     destructive := true |}.

Definition quiz_not_found : Toast :=
  {| title := "Quiz Not Found";
     description := [Str "Invalid quiz code or quiz is not active"];
     destructive := true |}.

Definition already_attempted : Toast :=
  {| title := "Already Attempted";
     description := [Str "You have already taken this quiz"];
     destructive := true |}.

(** The handler only reads the store; every path after [setLoading(true)]
    ends in the [finally] block. *)
Definition handleJoinQuiz (now : timestamp) (student : uuid) (st : State)
    (be : Backend) : State * list Effect :=
  if negb (JsString.truthy (JsString.trim (quizCode st)))
  then (st, [toast invalid_code])
  else
    let rejected t := (setLoading false st, [toast t]) in
    match select_active_quiz_by_code be
            (JsString.toUpperCase (quizCode st)) with
    | Error _ => rejected quiz_not_found
    | Data q =>
        match not_yet_open now q with
        | Some start => rejected (quiz_not_available start)
        | None =>
            match already_closed now q with
            | Some finish => rejected (quiz_expired finish)
            | None =>
                match select_attempt be (Quiz.id q) student with
                | Data _ => rejected already_attempted
                | Error _ =>
                    (setLoading false (openQuiz (Quiz.id q) st), [])
                end
            end
        end
    end.






(** ** The code input and the return from a quiz *)

Definition setQuizCode (code : string) (st : State) : State :=
  {| quizCode := code; activeView := activeView st;
     selectedQuizId := selectedQuizId st;
     selectedAttemptId := selectedAttemptId st;
     attempts := attempts st; loading := loading st |}.

(** [onChange={(e) => setQuizCode(e.target.value.toUpperCase())}] *)
Definition onChange (value : string) (st : State) : State :=
  setQuizCode (JsString.toUpperCase value) st.

(** ** The list of attempts and the statistics *)




(** [attempts.filter(a => a.is_completed)] *)
Definition completedAttempts (st : State) : list Attempt.row :=
  filter Attempt.is_completed (attempts st).

(** The number [sum + attempt.score] adds: a [null] score adds zero. *)
Definition score_number (a : Attempt.row) : Number.Number :=
  Number.ofZ (match Attempt.score a with Some z => z | None => 0%Z end).

(** [completedAttempts.length > 0
     ? Math.round(completedAttempts.reduce((sum, attempt) =>
                    sum + attempt.score, 0) / completedAttempts.length)
     : 0] *)
Definition averageScore (st : State) : Number.Number :=
  let completed := completedAttempts st in
  if (0 <? List.length completed)%nat
  then Number.Math_round
         (Number.div
            (fold_left (fun sum a => Number.add sum (score_number a))
                       completed (Number.ofZ 0))
            (Number.ofZ (Z.of_nat (List.length completed))))
  else Number.ofZ 0.

End StudentDashboard.

(* ================================================================== *)
(** * QuizAccess.tsx *)

Module QuizAccess.

Import Store.
Local Open Scope string_scope.

Inductive View := info | taking.

Record State := {
  quiz : option Quiz.row;
  loading : bool;
  error : option string;
  isStarting : bool;
  activeView : View;
  existingAttempt : option Attempt.row }.

Definition initial : State :=
  {| quiz := None; loading := true; error := None; isStarting := false;
     activeView := info; existingAttempt := None |}.

(** [fetchQuizInfo], run once when the page opens.  [profile] is the
    identifier of the signed-in profile, when there is one. *)
Definition fetchQuizInfo (quizCode : string) (profile : option uuid)
    (st : State) (be : Backend) : State :=
  if negb (JsString.truthy quizCode) then st
  else
  match select_quiz_by_code be (JsString.toUpperCase quizCode) with
  | Error _ =>
      {| quiz := quiz st; loading := false;
         error := Some "Quiz not found. Please check the quiz code and try again.";
         isStarting := isStarting st; activeView := activeView st;
         existingAttempt := existingAttempt st |}
  | Data quizData =>
      {| quiz := Some quizData; loading := false; error := None;
         isStarting := isStarting st; activeView := activeView st;
         existingAttempt :=
           match profile with
           | Some student =>
               match select_attempt be (Quiz.id quizData) student with
               | Data attemptData => Some attemptData
               | Error _ => None
               end
           | None => existingAttempt st
           end |}
  end.

Definition quiz_not_active : Toast :=
  {| title := "Quiz Not Active";
     description := [Str "This quiz is not currently active."];
     destructive := true |}.

Definition already_attempted : Toast :=
  {| title := "Already Attempted";
     description := [Str "You have already taken this quiz."];
     destructive := true |}.

(** [setIsStarting(true); setActiveView('taking')] *)
Definition start (st : State) : State :=
  {| quiz := quiz st; loading := loading st; error := error st;
     isStarting := true; activeView := taking;
     existingAttempt := existingAttempt st |}.

Definition handleStartQuiz (now : timestamp) (profile : option uuid)
    (st : State) : State * list Effect :=
  match quiz st, profile with
  | Some q, Some _ =>
      if negb (Quiz.is_active q) then (st, [toast quiz_not_active])
      else
        match not_yet_open now q with
        | Some start => (st, [toast (quiz_not_available start)])
        | None =>
            match already_closed now q with
            | Some finish => (st, [toast (quiz_expired finish)])
            | None =>
                match existingAttempt st with
                | Some _ => (st, [toast already_attempted])
                | None => (start st, [])
                end
            end
        end
  | _, _ => (st, [])
  end.

(** ** What the page shows *)

(** [quiz.is_active && (!quiz.start_time || new Date(quiz.start_time) <= now)
     && (!quiz.end_time || new Date(quiz.end_time) > now)] *)
Definition isAvailable (now : timestamp) (q : Quiz.row) : bool :=
  Quiz.is_active q
  && match Quiz.start_time q with
     | Some start => (start <=? now)%Z
     | None => true
     end
  && match Quiz.end_time q with
     | Some finish => (now <? finish)%Z
     | None => true
     end.

(** The [status] of [getStatusInfo], with the time its message prints. *)
Inductive Status :=
| inactive
| scheduled (start : timestamp)
| expired (finish : timestamp)
| completed
| available.

Definition getStatusInfo (now : timestamp) (q : Quiz.row) (st : State)
  : Status :=
  if negb (Quiz.is_active q) then inactive
  else
    match not_yet_open now q with
    | Some start => scheduled start
    | None =>
        match already_closed now q with
        | Some finish => expired finish
        | None =>
            match existingAttempt st with
            | Some _ => completed
            | None => available
            end
        end
    end.

(** [isAvailable && !existingAttempt] *)
Definition canStart (now : timestamp) (q : Quiz.row) (st : State) : bool :=
  isAvailable now q
  && match existingAttempt st with Some _ => false | None => true end.

(** The action button: "Start Quiz", disabled while [isStarting], or the
    disabled "Quiz Not Available". *)
Inductive Button :=
| start_quiz (disabled : bool)
| quiz_not_available_button.

Definition action_button (now : timestamp) (q : Quiz.row) (st : State)
  : Button :=
  if canStart now q st then start_quiz (isStarting st)
  else quiz_not_available_button.

(** [onBack={() => setActiveView('info')}], passed to [QuizTaking]. *)
Definition onBack (st : State) : State :=
  {| quiz := quiz st; loading := loading st; error := error st;
     isStarting := isStarting st; activeView := info;
     existingAttempt := existingAttempt st |}.

(** The card with the button is rendered in the ['info'] view once the
    quiz is there; in the ['taking'] view [QuizTaking] is rendered, which
    can call [onBack].  A click reaches [handleStartQuiz] through an
    enabled "Start Quiz" only. *)
Inductive Event :=
| click_start (now : timestamp)
| quiz_back.

Definition step (profile : option uuid) (st : State) (e : Event) : State :=
  match e, activeView st, quiz st with
  | click_start now, info, Some q =>
      if loading st then st
      else
        match error st, action_button now q st with
        | None, start_quiz false => fst (handleStartQuiz now profile st)
        | _, _ => st
        end
  | quiz_back, taking, Some _ => onBack st
  | _, _, _ => st
  end.

End QuizAccess.

(* ================================================================== *)
(** * UsernameSetup.tsx *)

Module UsernameSetup.

Import Store.
Local Open Scope string_scope.

Definition invalid_username : Toast :=
  {| title := "Invalid Username";
     description := [Str "Please enter a valid username"];
     destructive := true |}.

Definition username_too_short : Toast :=
  {| title := "Username Too Short";
     description := [Str "Username must be at least 3 characters long"];
     destructive := true |}.

Definition username_too_long : Toast :=
  {| title := "Username Too Long";
     description := [Str "Username must be 20 characters or less"];
     destructive := true |}.

Definition invalid_characters : Toast :=
  {| title := "Invalid Characters";
     description :=
       [Str "Username can only contain letters, numbers, underscores, and dashes"];
     destructive := true |}.

Definition username_taken : Toast :=
  {| title := "Username Taken";
     description :=
       [Str "This username is already taken. Please choose another one."];
     destructive := true |}.

Definition quote : string := String (ascii_of_nat 34) EmptyString.

Definition username_set (username : string) : Toast :=
  {| title := "Username Set!";
     description := [Str "Your username "; Str quote; Str username;
                     Str quote; Str " has been set successfully"];
     destructive := false |}.

(** The four checks that precede the request; [None] lets the
    submission through. *)
Definition validate (username : string) : option Toast :=
  if negb (JsString.truthy (JsString.trim username))
  then Some invalid_username
  else if (String.length username <? 3)%nat then Some username_too_short
  else if (20 <? String.length username)%nat then Some username_too_long
  else if negb (JsString.test_username_regex username)
  then Some invalid_characters
  else None.

Definition handleSubmit (username : string) (profile : uuid)
    (be : Backend) : Backend * list Effect :=
  match validate username with
  | Some rejection => (be, [toast rejection])
  | None =>
      match update_username be profile (JsString.trim username) with
      | (Error code, be') =>
          if code =? unique_violation then (be', [toast username_taken])
          else (be', [console_error;
                      toast (failure "Failed to set username. Please try again.")])
      | (Data _, be') => (be', [toast (username_set username); onComplete])
      end
  end.

End UsernameSetup.

(* ================================================================== *)
(** * Quiz codes (the migration that creates the tables)

    [random()] is an input: the value of its [n]-th call, a
    [double precision] number. *)

Module QuizCode.

Local Open Scope string_scope.

Definition chars : string := "ABCDEFGHIJKLMNOPQRSTUVWXYZ0123456789".

(** [substr(s, start, 1)]: positions count from 1; outside the string
    the result is empty. *)
Definition substr1 (s : string) (start : Z) : string :=
  if (1 <=? start)%Z
  then match String.get (Z.to_nat (start - 1)) s with
       | Some c => String c EmptyString
       | None => EmptyString
       end
  else EmptyString.

(** [floor(random() * length(chars) + 1)::int] *)
Definition position (r : Q) : option Z :=
  Number.to_integer
    (Number.Math_floor
       (Number.add
          (Number.mul (Number.Finite r)
                      (Number.ofZ (Z.of_nat (String.length chars))))
          (Number.ofZ 1))).

(** The body of [FOR i IN 1..6 LOOP], [i] turns from the [n]-th call of
    [random()] on. *)
Fixpoint generate_loop (random : nat -> Q) (n i : nat) (result : string)
  : string :=
  match i with
  | O => result
  | S i' =>
      generate_loop random (S n) i'
        (result ++ match position (random n) with
                   | Some p => substr1 chars p
                   | None => EmptyString
                   end)
  end.

Definition generate_quiz_code (random : nat -> Q) (n : nat) : string :=
  generate_loop random n 6 "".

(** The [LOOP ... EXIT WHEN NOT EXISTS (...)] of [set_quiz_code], for at
    most [turns] turns; [codes] are the codes of the table. *)
Fixpoint fresh_code (turns : nat) (codes : list string)
    (random : nat -> Q) (n : nat) : option string :=
  match turns with
  | O => None
  | S turns' =>
      let code := generate_quiz_code random n in
      if existsb (String.eqb code) codes
      then fresh_code turns' codes random (n + 6)
      else Some code
  end.

(** The trigger before an insert: the code of the new row, [None] while
    the loop has not ended. *)
Definition set_quiz_code (turns : nat) (codes : list string)
    (new_quiz_code : option string) (random : nat -> Q) : option string :=
  match new_quiz_code with
  | Some code => Some code
  | None => fresh_code turns codes random 0
  end.

End QuizCode.

(* ================================================================== *)
(** * QuizResults.tsx *)

Module QuizResults.

Import Store.
Local Open Scope string_scope.

Record Answer := {
  student_answer : string;
  is_correct : bool;
  correct_answer : string }.

Record ResultsData := {
  score : Z;
  time_taken_minutes : Z;
  completed_at : option timestamp;
  answers : list Answer }.

Record State := {
  results : option ResultsData;
  loading : bool }.

Definition initial : State := {| results := None; loading := true |}.

(** [x || 0] for a nullable integer column. *)
Definition or_zero (x : option Z) : Z :=
  match x with
  | Some z => z
  | None => 0%Z
  end.

(** One element of [answers.map(...)]; a missing question gives ['']. *)
Definition format (t : Tables) (r : StudentAnswer.row) : Answer :=
  {| student_answer := StudentAnswer.student_answer r;
     is_correct := StudentAnswer.is_correct r;
     correct_answer := match question_of t r with
                       | Some q => Question.correct_answer q
                       | None => ""
                       end |}.

Definition fetchResults (lost : Read -> bool) (attemptId : uuid)
    (st : State) (t : Tables) : State * list Effect :=
  let failed :=
    ({| results := results st; loading := false |},
     [console_error; toast (failure "Failed to fetch quiz results")]) in
  match select_attempt_by_id lost t attemptId with
  | Error _ => failed
  | Data attempt =>
      match select_answers_of lost t attemptId with
      | Error _ => failed
      | Data rows =>
          ({| results :=
                Some {| score := or_zero (Attempt.score attempt);
                        time_taken_minutes :=
                          or_zero (Attempt.time_taken_minutes attempt);
                        completed_at := Attempt.completed_at attempt;
                        answers := map (format t) rows |};
              loading := false |}, [])
      end
  end.

(** [results.answers.filter(a => a.is_correct).length] *)
Definition correctAnswers (r : ResultsData) : nat :=
  List.length (filter is_correct (answers r)).

(** [results.answers.length - correctAnswers] *)
Definition incorrectAnswers (r : ResultsData) : nat :=
  List.length (answers r) - correctAnswers r.

End QuizResults.

(* ================================================================== *)
(** * A mounted QuizTaking component under events

    [handleSubmitQuiz] is asynchronous: the guard and [setSubmitting(true)]
    run at the call, the [try] block runs across the requests it awaits and
    the [finally] block runs when the last one has answered.  Between the
    two, timers and clicks are served.  A session keeps the component, the
    backend, the submissions that have passed the guard and have not
    finished (each with the state its closure captured), the number of
    calls made by the timer effect and the effects shown so far.  Every
    event is followed by a render, so a handler reads the state the
    previous event left. *)

Module Countdown.

Import Store QuizTaking.

Inductive Event :=
| tick
| click
| answer (questionId : uuid) (text : string)
| settle (now later : timestamp).

Record Session := {
  state : State;
  backend : Backend;
  mounted : bool;
  in_flight : list State;
  automatic : nat;
  shown : list Effect }.

(** A call of [handleSubmitQuiz] up to its first request; [by_timer]
    tells a call made by the timer effect from a click. *)
Definition call_submit (by_timer : bool) (s : Session) : Session :=
  let calls := if by_timer then S (automatic s) else automatic s in
  if submitting (state s)
  then {| state := state s; backend := backend s; mounted := mounted s;
          in_flight := in_flight s; automatic := calls;
          shown := shown s |}
  else {| state := setSubmitting true (state s); backend := backend s;
          mounted := mounted s;
          in_flight := state s :: in_flight s; automatic := calls;
          shown := shown s |}.

(** The effect on [[timeLeft, quiz]], run after a render that changed
    one of the two. *)
Definition run_timer_effect (s : Session) : Session :=
  match timer_effect (state s) with
  | submit => call_submit true s
  | _ => s
  end.

Definition mount (st : State) (be : Backend) : Session :=
  run_timer_effect
    {| state := st; backend := be; mounted := true; in_flight := [];
       automatic := 0; shown := [] |}.

Definition completes (effects : list Effect) : bool :=
  existsb (fun e => match e with onCompleted => true | _ => false end)
          effects.

(** Both parents answer [onCompleted] by leaving the quiz view, which
    unmounts the component and clears its timer. *)
Definition step (s : Session) (e : Event) : Session :=
  if negb (mounted s) then s
  else
    match e with
    | tick =>
        match timer_effect (state s) with
        | schedule next =>
            run_timer_effect
              {| state := setTimeLeft next (state s);
                 backend := backend s; mounted := true;
                 in_flight := in_flight s; automatic := automatic s;
                 shown := shown s |}
        | _ => s
        end
    | click => call_submit false s
    | answer questionId text =>
        {| state := handleAnswerChange questionId text (state s);
           backend := backend s; mounted := true;
           in_flight := in_flight s; automatic := automatic s;
           shown := shown s |}
    | settle now later =>
        match in_flight s with
        | [] => s
        | closure :: others =>
            let '(be, effects) :=
              submit_try now later closure (backend s) in
            {| state := setSubmitting false (state s);
               backend := be;
               mounted := negb (completes effects);
               in_flight := others; automatic := automatic s;
               shown := shown s ++ effects |}
        end
    end.

Definition run (s : Session) (events : list Event) : Session :=
  fold_left step events s.

End Countdown.

(* ================================================================== *)
(** * From the dashboard into the quiz

    The dashboard renders [<QuizTaking quizId={selectedQuizId} />] once the
    view is ['quiz']; mounting it runs [initializeQuiz]. *)

Module Flow.

Import Store.

Record Outcome := {
  dashboard : StudentDashboard.State;
  taking : option QuizTaking.State;
  backend : Backend;
  effects : list Effect }.

Definition join (now later : timestamp) (fresh student : uuid)
    (st : StudentDashboard.State) (be : Backend) : Outcome :=
  let '(st', shown) := StudentDashboard.handleJoinQuiz now student st be in
  match StudentDashboard.activeView st',
        StudentDashboard.selectedQuizId st' with
  | StudentDashboard.quiz, Some quizId =>
      let '(qt, be', shown') :=
        QuizTaking.initializeQuiz later fresh quizId student
          QuizTaking.initial be in
      {| dashboard := st'; taking := Some qt; backend := be';
         effects := shown ++ shown' |}
  | _, _ =>
      {| dashboard := st'; taking := None; backend := be;
         effects := shown |}
  end.

End Flow.

(* ================================================================== *)
(** * The specification's formulas *)

Module Spec.

Local Open Scope Q_scope.

(** Nearest integer of a rational, halves upwards. *)
Definition round (x : Q) : Z := Qfloor (x + (1 # 2)).

(** [round(100 * correct / total)] *)
Definition score (correct total : Z) : Z :=
  round (100 * inject_Z correct / inject_Z total).

(** Elapsed wall-clock minutes since [started_at]. *)
Definition time_taken_minutes (started_at submitted_at : timestamp) : Z :=
  round (inject_Z (submitted_at - started_at) / 60000).



(** Equality that ignores case, after trimming both sides. *)
Definition matches (answer correct_answer : string) : Prop :=
  JsString.toLowerCase (JsString.trim answer)
  = JsString.toLowerCase (JsString.trim correct_answer).

(** Non-empty, 3 to 20 characters, every character in
    [[a-zA-Z0-9_-]]. *)
Definition username_ok (username : string) : Prop :=
  username <> EmptyString
  /\ (3 <= String.length username <= 20)%nat
  /\ JsString.all_chars JsString.is_username_char username = true.

(** At most one attempt per (quiz, student). *)
Definition one_attempt_per_pair (t : Store.Tables) : Prop :=
  forall quiz student,
    (List.length (filter (Store.same_pair quiz student)
                         (Store.quiz_attempts t)) <= 1)%nat.






Definition is_some {A} (o : option A) : bool :=
  match o with
  | Some _ => true
  | None => false
  end.

End Spec.

(* ================================================================== *)
(** * A quiz of forty questions

    A quiz created one day before a student takes it.  The student answers
    the first twenty-three questions correctly, in another case than the
    stored answer, the other seventeen wrongly, and submits after five
    minutes. *)

Module Scenario.

Import Store.
Local Open Scope Z_scope.
Local Open Scope string_scope.

Definition day : Z := 86400000.
Definition minute : Z := 60000.
Definition created : timestamp := 1752562800000.
Definition started : timestamp := created + day.
Definition finished : timestamp := started + 5 * minute.

Definition the_quiz : Quiz.row :=
  {| Quiz.id := "quiz-1"; Quiz.quiz_code := "K7Q2ZD";
     Quiz.is_active := true;
     Quiz.start_time := None; Quiz.end_time := None;
     Quiz.duration_minutes := 30; Quiz.created_at := created |}.

Definition question_id (n : nat) : uuid :=
  "question-" ++ NilEmpty.string_of_uint (Nat.to_uint n).

Definition question (n : nat) : Question.row :=
  {| Question.id := question_id n; Question.quiz_id := "quiz-1";
     Question.correct_answer := "Paris";
     Question.order_index := Z.of_nat n |}.

Definition student : Profile.row :=
  {| Profile.id := "student-1"; Profile.username := Some "ab_12" |}.

Definition store : Backend :=
  {| tables := {| quizzes := [the_quiz];
                  questions := map question (seq 0 40);
                  quiz_attempts := [];
                  student_answers := [];
                  profiles := [student] |};
     down := fun _ => false |}.

Definition answer_to (n : nat) : string :=
  if (n <? 23)%nat then " paris " else "Rome".

Definition answer_all (st : QuizTaking.State) : QuizTaking.State :=
  fold_left (fun s n => QuizTaking.handleAnswerChange
                          (question_id n) (answer_to n) s)
            (seq 0 40) st.

(** Initialise, answer the forty questions, submit. *)
Definition session : QuizTaking.State * Backend * list Effect :=
  let '(st, be, _) :=
    QuizTaking.initializeQuiz started "attempt-1" "quiz-1" "student-1"
      QuizTaking.initial store in
  QuizTaking.handleSubmitQuiz finished finished (answer_all st) be.

Definition final_tables : Tables := tables (snd (fst session)).

(** The dashboard once the attempts have been fetched again. *)
Definition dashboard_after : StudentDashboard.State :=
  {| StudentDashboard.quizCode := "";
     StudentDashboard.activeView := StudentDashboard.dashboard;
     StudentDashboard.selectedQuizId := None;
     StudentDashboard.selectedAttemptId := None;
     StudentDashboard.attempts := quiz_attempts final_tables;
     StudentDashboard.loading := false |}.

Definition completed_attempt : Attempt.row :=
  Store.complete
    {| Attempt.id := "attempt-1"; Attempt.quiz_id := "quiz-1";
       Attempt.student_id := "student-1"; Attempt.started_at := started;
       Attempt.completed_at := None; Attempt.score := Some 0;
       Attempt.total_questions := 40; Attempt.is_completed := false;
       Attempt.time_taken_minutes := None |}
    finished (Some 57) (Some 1445).

Definition judged_correct : nat :=
  List.length (filter StudentAnswer.is_correct (student_answers final_tables)).



(** The same store when the correct answer of the first question cannot
    be fetched. *)
Definition flaky_store : Backend :=
  {| tables := tables store;
     down := fun r => match r with
                      | SelectCorrectAnswer q => q =? question_id 0
                      | _ => false
                      end |}.

(** On it: the quiz initialised and the forty answers recorded. *)
Definition flaky_start : QuizTaking.State * Backend :=
  let '(st, be, _) :=
    QuizTaking.initializeQuiz started "attempt-1" "quiz-1" "student-1"
      QuizTaking.initial flaky_store in
  (answer_all st, be).

Definition typing (code : string) : StudentDashboard.State :=
  {| StudentDashboard.quizCode := code;
     StudentDashboard.activeView := StudentDashboard.dashboard;
     StudentDashboard.selectedQuizId := None;
     StudentDashboard.selectedAttemptId := None;
     StudentDashboard.attempts := [];
     StudentDashboard.loading := false |}.

End Scenario.

(* ================================================================== *)
(** * Facts about rounding *)

Module NumberFacts.

Import Number.
Local Open Scope Q_scope.

Lemma pow2_pos k : 0 < 2 ^ k.
Proof. apply Qpower_0_lt. reflexivity. Qed.

Lemma pow2_succ k : 2 ^ (k + 1) == 2 * 2 ^ k.
Proof. rewrite Qpower_plus by discriminate. rewrite Qpower_1_r. ring. Qed.

Lemma pow2_Z n : (0 <= n)%Z -> 2 ^ n == inject_Z (2 ^ n).
Proof. intros H. rewrite (Zpower_Qpower 2 n H). reflexivity. Qed.

Lemma inject_Z_pos z : (0 < z)%Z -> 0 < inject_Z z.
Proof. intros H. change 0 with (inject_Z 0). rewrite <- Zlt_Qlt. exact H. Qed.

(** The exponent brackets its argument. *)
Lemma ilog2_spec x : 0 < x -> 2 ^ ilog2 x <= x /\ x < 2 ^ (ilog2 x + 1).
Proof.
  intros Hx. unfold ilog2.
  destruct x as [a b]. simpl Qnum. simpl Qden.
  assert (Ha : (0 < a)%Z) by (unfold Qlt in Hx; simpl in Hx; lia).
  set (la := Z.log2 a). set (lb := Z.log2 (Z.pos b)).
  destruct (Z.log2_spec a Ha) as [Ha1 Ha2]. fold la in Ha1, Ha2.
  destruct (Z.log2_spec (Z.pos b) eq_refl) as [Hb1 Hb2]. fold lb in Hb1, Hb2.
  assert (Hla : (0 <= la)%Z) by apply Z.log2_nonneg.
  assert (Hlb : (0 <= lb)%Z) by apply Z.log2_nonneg.
  assert (HP : 2 ^ (la - lb) == inject_Z (2 ^ la) / inject_Z (2 ^ lb)).
  { rewrite Qpower_minus by discriminate.
    rewrite !pow2_Z by assumption. reflexivity. }
  assert (Hpa : (0 < 2 ^ la)%Z) by (apply Z.pow_pos_nonneg; lia).
  assert (Hpb : (0 < 2 ^ lb)%Z) by (apply Z.pow_pos_nonneg; lia).
  rewrite Z.pow_succ_r in Ha2, Hb2 by assumption.
  assert (Hab : a # b == inject_Z a / inject_Z (Z.pos b))
    by apply Qmake_Qdiv.
  assert (Q1 : 0 < inject_Z (2 ^ lb)) by (apply inject_Z_pos; lia).
  assert (Q2 : 0 < inject_Z (Z.pos b)) by reflexivity.
  destruct (Qle_bool (2 ^ (la - lb)) (a # b)) eqn:E.
  - apply Qle_bool_iff in E. split; [exact E|].
    rewrite pow2_succ, HP, Hab.
    apply Qlt_shift_div_r; [exact Q2|].
    setoid_replace
      (2 * (inject_Z (2 ^ la) / inject_Z (2 ^ lb)) * inject_Z (Z.pos b))
      with (inject_Z (2 * 2 ^ la * Z.pos b) / inject_Z (2 ^ lb)).
    2:{ rewrite !inject_Z_mult. field.
        intro H0. rewrite H0 in Q1. discriminate. }
    apply Qlt_shift_div_l; [exact Q1|].
    rewrite <- inject_Z_mult. rewrite <- Zlt_Qlt. nia.
  - assert (E' : a # b < 2 ^ (la - lb)).
    { apply Qnot_le_lt. intro H. apply Qle_bool_iff in H. congruence. }
    split.
    + replace (la - lb - 1)%Z with ((la - lb) + (-1))%Z by lia.
      rewrite Qpower_plus by discriminate. rewrite HP, Hab.
      change (2 ^ (-1)) with (1 # 2).
      apply Qle_shift_div_l; [exact Q2|].
      setoid_replace
        (inject_Z (2 ^ la) / inject_Z (2 ^ lb) * (1 # 2)
         * inject_Z (Z.pos b))
        with (inject_Z (2 ^ la * Z.pos b) / inject_Z (2 * 2 ^ lb)).
      2:{ rewrite !inject_Z_mult. field.
          intro H0. rewrite H0 in Q1. discriminate. }
      apply Qle_shift_div_r; [apply inject_Z_pos; lia|].
      rewrite <- inject_Z_mult. rewrite <- Zle_Qle. nia.
    + replace (la - lb - 1 + 1)%Z with (la - lb)%Z by lia. exact E'.
Qed.

Lemma rne_inject n : rne (inject_Z n) = n.
Proof.
  unfold rne. rewrite Qfloor_Z.
  destruct (Qcompare_spec (inject_Z n - inject_Z n) (1 # 2)) as [E|E|E];
    try lra.
  reflexivity.
Qed.

Lemma rne_mono x y : x <= y -> (rne x <= rne y)%Z.
Proof.
  intros Hxy. pose proof (Qfloor_resp_le _ _ Hxy) as Hf.
  pose proof (Qfloor_le x) as X1. pose proof (Qlt_floor x) as X2.
  pose proof (Qfloor_le y) as Y1. pose proof (Qlt_floor y) as Y2.
  rewrite inject_Z_plus in X2, Y2. change (inject_Z 1) with 1 in *.
  assert (Hx : (Qfloor x <= rne x <= Qfloor x + 1)%Z).
  { unfold rne. destruct (Qcompare _ _); [destruct (Z.even _)| |]; lia. }
  assert (Hy : (Qfloor y <= rne y <= Qfloor y + 1)%Z).
  { unfold rne. destruct (Qcompare _ _); [destruct (Z.even _)| |]; lia. }
  destruct (Z.eq_dec (Qfloor x) (Qfloor y)) as [E|N]; [|lia].
  unfold rne in *. rewrite <- E in *.
  destruct (Qcompare_spec (x - inject_Z (Qfloor x)) (1 # 2)) as [E1|E1|E1];
  destruct (Qcompare_spec (y - inject_Z (Qfloor x)) (1 # 2)) as [E2|E2|E2];
  try destruct (Z.even (Qfloor x)); try lia; lra.
Qed.

Lemma ulp_pos x : 0 < ulp x.
Proof. apply pow2_pos. Qed.

Lemma pow2_ulp x : 2 ^ ilog2 x == inject_Z (2 ^ 52) * ulp x.
Proof.
  unfold ulp. rewrite <- (pow2_Z 52) by lia.
  rewrite <- Qpower_plus by discriminate.
  replace (52 + (ilog2 x - 52))%Z with (ilog2 x) by lia. reflexivity.
Qed.

(** A rounded value stays in the closed binade of its argument. *)
Lemma rnd_pos_bounds x :
  0 < x -> 2 ^ ilog2 x <= rnd_pos x /\ rnd_pos x <= 2 ^ (ilog2 x + 1).
Proof.
  intros Hx. destruct (ilog2_spec x Hx) as [L U].
  pose proof (ulp_pos x) as Hu. unfold rnd_pos.
  rewrite pow2_succ, pow2_ulp in *.
  assert (A : inject_Z (2 ^ 52) <= x / ulp x).
  { apply Qle_shift_div_l; assumption. }
  assert (B : x / ulp x <= inject_Z (2 ^ 53)).
  { apply Qle_shift_div_r; [assumption|]. apply Qlt_le_weak.
    eapply Qlt_le_trans; [exact U|].
    change (inject_Z (2 ^ 53)) with (2 * inject_Z (2 ^ 52)). lra. }
  apply rne_mono in A. apply rne_mono in B. rewrite rne_inject in A, B.
  rewrite Zle_Qle in A, B.
  change (inject_Z (2 ^ 53)) with (2 * inject_Z (2 ^ 52)) in B.
  split.
  - apply Qmult_le_compat_r; [exact A | lra].
  - setoid_replace (2 * (inject_Z (2 ^ 52) * ulp x))
      with (2 * inject_Z (2 ^ 52) * ulp x) by ring.
    apply Qmult_le_compat_r; [exact B | lra].
Qed.

Lemma ilog2_mono x y : 0 < x -> x <= y -> (ilog2 x <= ilog2 y)%Z.
Proof.
  intros Hx Hxy. assert (Hy : 0 < y) by lra.
  destruct (ilog2_spec x Hx) as [L _]. destruct (ilog2_spec y Hy) as [_ U].
  assert (H : 2 ^ ilog2 x < 2 ^ (ilog2 y + 1)) by lra.
  apply Qpower_lt_compat_l_inv in H; [lia | reflexivity].
Qed.

Lemma rnd_pos_mono x y : 0 < x -> x <= y -> rnd_pos x <= rnd_pos y.
Proof.
  intros Hx Hxy. assert (Hy : 0 < y) by lra.
  pose proof (ilog2_mono x y Hx Hxy) as He.
  destruct (Z.eq_dec (ilog2 x) (ilog2 y)) as [E|N].
  - unfold rnd_pos, ulp. rewrite E.
    pose proof (pow2_pos (ilog2 y - 52)) as Hu.
    apply Qmult_le_compat_r; [|lra].
    rewrite <- Zle_Qle. apply rne_mono.
    apply Qmult_le_compat_r; [exact Hxy|].
    apply Qlt_le_weak, Qinv_lt_0_compat, Hu.
  - destruct (rnd_pos_bounds x Hx) as [_ U].
    destruct (rnd_pos_bounds y Hy) as [L _].
    assert (H : 2 ^ (ilog2 x + 1) <= 2 ^ ilog2 y).
    { apply Qpower_le_compat_l; [lia | discriminate]. }
    lra.
Qed.

Lemma rnd_pos_gt0 x : 0 < x -> 0 < rnd_pos x.
Proof.
  intros Hx. destruct (rnd_pos_bounds x Hx) as [L _].
  pose proof (pow2_pos (ilog2 x)). lra.
Qed.

Lemma rnd_cases x :
  (x == 0 /\ rnd x = 0) \/ (0 < x /\ rnd x == rnd_pos x) \/
  (x < 0 /\ rnd x == - rnd_pos (- x)).
Proof.
  unfold rnd. destruct x as [[|p|p] d]; simpl Qnum.
  - left. split; reflexivity.
  - right; left. split; [reflexivity | apply Qred_correct].
  - right; right. split; [reflexivity | apply Qred_correct].
Qed.

(** Rounding preserves the order. *)
Theorem rnd_mono x y : x <= y -> rnd x <= rnd y.
Proof.
  intros Hxy.
  destruct (rnd_cases x) as [[X R]|[[X R]|[X R]]];
  destruct (rnd_cases y) as [[Y S]|[[Y S]|[Y S]]]; rewrite R, S; try lra.
  - pose proof (rnd_pos_gt0 y Y). lra.
  - apply rnd_pos_mono; assumption.
  - assert (H : 0 < - x) by lra. pose proof (rnd_pos_gt0 _ H). lra.
  - assert (H : 0 < - x) by lra. pose proof (rnd_pos_gt0 _ H).
    pose proof (rnd_pos_gt0 y Y). lra.
  - assert (H : 0 < - y) by lra.
    assert (H' : - y <= - x) by lra.
    pose proof (rnd_pos_mono _ _ H H'). lra.
Qed.


Lemma rnd_positive x : 0 < x -> 0 < rnd x.
Proof.
  intros H. destruct (rnd_cases x) as [[X _]|[[_ R]|[X _]]]; try lra.
  rewrite R. apply rnd_pos_gt0, H.
Qed.

Lemma rnd_compat x y : x == y -> rnd x == rnd y.
Proof.
  intros H. apply Qle_antisym; apply rnd_mono; rewrite H; apply Qle_refl.
Qed.

#[export] Instance rnd_proper : Proper (Qeq ==> Qeq) rnd.
Proof. intros x y H. apply rnd_compat, H. Qed.

Lemma rne_compat x y : x == y -> rne x = rne y.
Proof.
  intros H. unfold rne.
  rewrite (Qfloor_comp _ _ H).
  rewrite (Qcompare_comp (x - inject_Z (Qfloor y)) (y - inject_Z (Qfloor y))
             (ltac:(rewrite H; reflexivity)) (1 # 2) (1 # 2) (Qeq_refl _)).
  reflexivity.
Qed.

Lemma ilog2_range z : (0 < z < 2 ^ 53)%Z -> (0 <= ilog2 (inject_Z z) <= 52)%Z.
Proof.
  intros [H1 H2].
  assert (Hx : 0 < inject_Z z) by (apply inject_Z_pos; lia).
  destruct (ilog2_spec _ Hx) as [L U]. split.
  - assert (H : 2 ^ 0 < 2 ^ (ilog2 (inject_Z z) + 1)).
    { eapply Qle_lt_trans; [|exact U]. change (2 ^ 0) with (inject_Z 1).
      rewrite <- Zle_Qle. lia. }
    apply (Qpower_lt_compat_l_inv 2 0 (ilog2 (inject_Z z) + 1)) in H;
      [lia | reflexivity].
  - assert (H : 2 ^ ilog2 (inject_Z z) < 2 ^ 53).
    { eapply Qle_lt_trans; [exact L|]. rewrite (pow2_Z 53) by lia.
      rewrite <- Zlt_Qlt. exact H2. }
    apply (Qpower_lt_compat_l_inv 2 (ilog2 (inject_Z z)) 53) in H;
      [lia | reflexivity].
Qed.

Lemma rnd_pos_int z : (0 < z < 2 ^ 53)%Z -> rnd_pos (inject_Z z) == inject_Z z.
Proof.
  intros Hz. pose proof (ilog2_range z Hz) as He. unfold rnd_pos, ulp.
  set (e := ilog2 (inject_Z z)) in *.
  assert (Hu : 2 ^ (e - 52) == / inject_Z (2 ^ (52 - e))).
  { replace (e - 52)%Z with (- (52 - e))%Z by lia.
    rewrite Qpower_opp. rewrite pow2_Z by lia. reflexivity. }
  assert (Hp : 0 < inject_Z (2 ^ (52 - e))).
  { apply inject_Z_pos. apply Z.pow_pos_nonneg; lia. }
  assert (Hd : inject_Z z / 2 ^ (e - 52) == inject_Z (z * 2 ^ (52 - e))).
  { rewrite Hu, inject_Z_mult. field. intro H0. rewrite H0 in Hp. discriminate. }
  assert (Hr : rne (inject_Z z / 2 ^ (e - 52)) = (z * 2 ^ (52 - e))%Z).
  { rewrite <- (rne_inject (z * 2 ^ (52 - e))). apply rne_compat, Hd. }
  rewrite Hr, Hu, inject_Z_mult. field.
  intro H0. rewrite H0 in Hp. discriminate.
Qed.

Lemma rnd_int z : (Z.abs z < 2 ^ 53)%Z -> rnd (inject_Z z) == inject_Z z.
Proof.
  intros Hz. destruct (rnd_cases (inject_Z z)) as [[X R]|[[X R]|[X R]]].
  - rewrite R. symmetry. exact X.
  - rewrite R. apply rnd_pos_int.
    change 0 with (inject_Z 0) in X. rewrite <- Zlt_Qlt in X. lia.
  - rewrite R. change 0 with (inject_Z 0) in X. rewrite <- Zlt_Qlt in X.
    rewrite <- inject_Z_opp. rewrite rnd_pos_int by lia.
    rewrite inject_Z_opp. ring.
Qed.

End NumberFacts.

(* ================================================================== *)
(** * Facts about strings *)

Module JsStringFacts.

Import JsString.

(** A statement about every code unit is checked on the 256 of them. *)
Ltac every_char c :=
  destruct c as [[] [] [] [] [] [] [] []]; vm_compute; try reflexivity;
  try discriminate.

Lemma whitespace_lower c : is_whitespace (lower_char c) = is_whitespace c.
Proof. every_char c. Qed.

Lemma username_char_not_space c :
  is_username_char c = true -> is_whitespace c = false.
Proof. every_char c. Qed.

Lemma trimStart_lower s :
  trimStart (toLowerCase s) = toLowerCase (trimStart s).
Proof.
  induction s as [|c r IH]; simpl; [reflexivity|].
  rewrite whitespace_lower. destruct (is_whitespace c); [exact IH|reflexivity].
Qed.

Lemma trimEnd_lower s :
  trimEnd (toLowerCase s) = toLowerCase (trimEnd s).
Proof.
  induction s as [|c r IH]; simpl; [reflexivity|].
  rewrite IH, whitespace_lower.
  destruct (trimEnd r); simpl; [destruct (is_whitespace c)|]; reflexivity.
Qed.

(** Lower-casing and trimming commute. *)
Lemma trim_lower s : trim (toLowerCase s) = toLowerCase (trim s).
Proof. unfold trim. rewrite trimStart_lower, trimEnd_lower. reflexivity. Qed.

Lemma trimEnd_keeps_head c r :
  is_whitespace c = false -> truthy (trimEnd (String c r)) = true.
Proof.
  intros H. simpl. rewrite H. destruct (trimEnd r); reflexivity.
Qed.

Lemma regex_not_blank s :
  test_username_regex s = true -> truthy (trim s) = true.
Proof.
  unfold test_username_regex, trim. destruct s as [|c r]; simpl.
  - discriminate.
  - intros H. apply andb_prop in H. destruct H as [H _].
    pose proof (username_char_not_space c H) as W. rewrite W.
    apply trimEnd_keeps_head, W.
Qed.

Lemma trimEnd_id s :
  all_chars is_username_char s = true -> trimEnd s = s.
Proof.
  induction s as [|c r IH]; simpl; [reflexivity|].
  intros H. apply andb_prop in H. destruct H as [Hc Hr].
  rewrite (IH Hr). destruct r; [|reflexivity].
  rewrite (username_char_not_space c Hc). reflexivity.
Qed.

(** An accepted username is stored as typed. *)
Lemma regex_trim_id s : test_username_regex s = true -> trim s = s.
Proof.
  unfold test_username_regex, trim. intros H.
  apply andb_prop in H. destruct H as [_ H].
  destruct s as [|c r]; [reflexivity|].
  pose proof H as H'. simpl in H'. apply andb_prop in H'.
  destruct H' as [Hc _].
  simpl trimStart. rewrite (username_char_not_space c Hc).
  apply trimEnd_id, H.
Qed.

End JsStringFacts.

(* ================================================================== *)
(** * Correctness of an answer *)

(** C8: an answer is judged correct exactly when it equals the question's
    correct answer up to case, once leading and trailing white space has
    been trimmed from both; [" Paris "] matches ["paris"]. *)
Theorem isCorrect_ignores_case_and_outer_space :
  (forall studentAnswer correct_answer,
      QuizTaking.isCorrect studentAnswer correct_answer = true
      <-> Spec.matches studentAnswer correct_answer)
  /\ QuizTaking.isCorrect " Paris " "paris" = true.
Proof.
  split; [|reflexivity].
  intros a c. unfold QuizTaking.isCorrect, Spec.matches.
  rewrite !JsStringFacts.trim_lower. apply String.eqb_eq.
Qed.

(* ================================================================== *)
(** * The username gate *)

Lemma validate_None username :
  UsernameSetup.validate username = None
  <-> JsString.truthy (JsString.trim username) = true
      /\ (3 <= String.length username <= 20)%nat
      /\ JsString.test_username_regex username = true.
Proof.
  unfold UsernameSetup.validate.
  destruct (JsString.truthy (JsString.trim username)); simpl.
  2:{ split; [discriminate | intros [H _]; discriminate]. }
  destruct (Nat.ltb_spec (String.length username) 3).
  { split; [discriminate | intros (_ & H' & _); lia]. }
  destruct (Nat.ltb_spec 20 (String.length username)).
  { split; [discriminate | intros (_ & H' & _); lia]. }
  destruct (JsString.test_username_regex username); simpl.
  - split; [intros _; repeat split; lia | reflexivity].
  - split; [discriminate | intros (_ & _ & H'); discriminate].
Qed.

(** C9: the validation lets a username through exactly when it is
    non-empty, has 3 to 20 characters and matches [^[a-zA-Z0-9_-]+$];
    ["ab"] is rejected, ["ab_12"] is accepted; the four rejections carry
    four different titles, and a rejected submission sends no request. *)
Theorem username_accepted_iff_valid :
  (forall username,
      UsernameSetup.validate username = None <-> Spec.username_ok username)
  /\ UsernameSetup.validate "ab" = Some UsernameSetup.username_too_short
  /\ UsernameSetup.validate "ab_12" = None
  /\ NoDup (map title [UsernameSetup.invalid_username;
                        UsernameSetup.username_too_short;
                        UsernameSetup.username_too_long;
                        UsernameSetup.invalid_characters])
  /\ (forall username profile be,
         Spec.username_ok username
         \/ exists rejection,
              In rejection [UsernameSetup.invalid_username;
                            UsernameSetup.username_too_short;
                            UsernameSetup.username_too_long;
                            UsernameSetup.invalid_characters]
              /\ UsernameSetup.handleSubmit username profile be
                 = (be, [toast rejection])).
Proof.
  assert (Hiff : forall username,
             UsernameSetup.validate username = None
             <-> Spec.username_ok username).
  { intros u. rewrite validate_None. unfold Spec.username_ok. split.
    - intros (_ & Hlen & Hre). unfold JsString.test_username_regex in Hre.
      apply andb_prop in Hre. destruct Hre as [Hne Hall].
      repeat split; try lia; try assumption.
      intros ->. discriminate.
    - intros (Hne & Hlen & Hall).
      assert (Hre : JsString.test_username_regex u = true).
      { unfold JsString.test_username_regex. rewrite Hall.
        destruct u; [contradiction | reflexivity]. }
      repeat split; try lia; try assumption.
      apply JsStringFacts.regex_not_blank, Hre. }
  split; [exact Hiff|].
  split; [reflexivity|]. split; [reflexivity|].
  split.
  { simpl. repeat constructor; simpl; intuition discriminate. }
  intros u p be. unfold UsernameSetup.handleSubmit.
  destruct (UsernameSetup.validate u) as [r|] eqn:E.
  - right. exists r. split; [|reflexivity].
    unfold UsernameSetup.validate in E. simpl.
    repeat match type of E with
           | (if ?c then _ else _) = _ => destruct c
           end; inversion E; auto.
  - left. apply Hiff, E.
Qed.


(* ================================================================== *)
(** * The score and the time taken, on the quiz of forty questions *)

(** C1: with 23 of 40 answers judged correct the attempt is completed with
    score 57, whereas [round(100 * 23 / 40)] is 58: the quotient 23/40 is
    rounded to a double before it is multiplied by 100, and the product,
    57.49999999999999, is below 57.5.  For 2 of 3 the score is 67. *)
Theorem score_23_of_40_is_57 :
  Scenario.judged_correct = 23%nat
  /\ map Attempt.is_completed (Store.quiz_attempts Scenario.final_tables)
     = [true]
  /\ map Attempt.score (Store.quiz_attempts Scenario.final_tables)
     = [Some 57%Z]
  /\ Spec.score 23 40 = 58%Z
  /\ Number.mul (Number.div (Number.ofZ 23) (Number.ofZ 40))
                (Number.ofZ 100)
     = Number.Finite (8092405580431359 # 140737488355328)
  /\ 8092405580431359 # 140737488355328 < 115 # 2
  /\ Number.to_integer (QuizTaking.finalScore 2 3) = Some (Spec.score 2 3)
  /\ Spec.score 2 3 = 67%Z.
Proof. vm_compute. repeat split; reflexivity. Qed.

(** C3: the attempt started one day after the quiz was created and was
    submitted five minutes later; the time taken is stored as 1445
    minutes, counted from the creation of the quiz, not as the 5 minutes
    elapsed since [started_at]. *)
Theorem time_taken_counts_from_quiz_creation :
  map Attempt.started_at (Store.quiz_attempts Scenario.final_tables)
  = [Scenario.started]
  /\ map Attempt.time_taken_minutes
         (Store.quiz_attempts Scenario.final_tables)
     = [Some 1445%Z]
  /\ Spec.time_taken_minutes Scenario.started Scenario.finished = 5%Z.
Proof. vm_compute. repeat split; reflexivity. Qed.


(* ================================================================== *)
(** * The embargo on results *)

Module EmbargoFacts.

Import Number NumberFacts StudentDashboard.
Local Open Scope Q_scope.












End EmbargoFacts.

Section Embargo.

Import Number NumberFacts StudentDashboard EmbargoFacts.
Local Open Scope Q_scope.
Local Open Scope string_scope.



End Embargo.

(* ================================================================== *)
(** * The admission guards *)

Module GuardFacts.

Import Store.







End GuardFacts.

Section Admission.

Import Store GuardFacts.
Local Open Scope string_scope.




End Admission.

(* ================================================================== *)
(** * What the requests leave untouched *)

Module StoreFacts.

Import Store QuizTaking.

(** The requests of the scoring loop change [student_answers] only. *)
Definition same_but_answers (be be' : Backend) : Prop :=
  down be' = down be
  /\ quizzes (tables be') = quizzes (tables be)
  /\ Store.questions (tables be') = Store.questions (tables be)
  /\ quiz_attempts (tables be') = quiz_attempts (tables be)
  /\ profiles (tables be') = profiles (tables be).

Lemma same_but_answers_refl be : same_but_answers be be.
Proof. repeat split. Qed.

Lemma same_but_answers_trans a b c :
  same_but_answers a b -> same_but_answers b c -> same_but_answers a c.
Proof.
  unfold same_but_answers. intros (A1 & A2 & A3 & A4 & A5)
    (B1 & B2 & B3 & B4 & B5).
  repeat split; congruence.
Qed.

Lemma update_answer_frame be attempt question correct :
  same_but_answers be (update_answer be attempt question correct).
Proof.
  unfold update_answer. destruct (down be (UpdateAnswer question));
    repeat split.
Qed.

Lemma insert_answers_frame be attempt entries r be' :
  insert_answers be attempt entries = (r, be') -> same_but_answers be be'.
Proof.
  unfold insert_answers. destruct (down be InsertAnswers).
  { intros H. inversion H. apply same_but_answers_refl. }
  destruct (answer_rows attempt entries) as [rows|].
  2:{ intros H. inversion H. apply same_but_answers_refl. }
  destruct (forallb (answer_refs_ok (tables be)) rows);
    intros H; inversion H; repeat split.
Qed.

(** The answer to [SelectCorrectAnswer] depends on the questions and on
    the faults only. *)
Lemma select_correct_answer_frame be be' question :
  same_but_answers be be' ->
  select_correct_answer be' question = select_correct_answer be question.
Proof.
  intros (D & _ & Q & _). unfold select_correct_answer. rewrite D, Q.
  reflexivity.
Qed.

Lemma score_entry_frame attempt score be entry :
  same_but_answers be (snd (score_entry attempt (score, be) entry)).
Proof.
  unfold score_entry. destruct entry as [q a].
  destruct (select_correct_answer be q); simpl.
  - apply update_answer_frame.
  - apply same_but_answers_refl.
Qed.

Lemma fold_score_frame attempt entries :
  forall score be,
    same_but_answers be
      (snd (fold_left (score_entry attempt) entries (score, be))).
Proof.
  induction entries as [|e l IH]; intros score be; cbn [fold_left].
  - apply same_but_answers_refl.
  - pose proof (score_entry_frame attempt score be e) as F.
    destruct (score_entry attempt (score, be) e) as [s' be'].
    eapply same_but_answers_trans; [exact F | apply IH].
Qed.

Lemma scoring_loop_frame attempt entries be :
  same_but_answers be (snd (scoring_loop attempt entries be)).
Proof. apply fold_score_frame. Qed.

(** Completing attempts keeps their quiz and their student. *)
Lemma filter_pair_complete quiz student attempt completed score minutes l :
  List.length
    (filter (same_pair quiz student)
       (map (fun a => if id_is attempt (Attempt.id a)
                      then complete a completed score minutes else a) l))
  = List.length (filter (same_pair quiz student) l).
Proof.
  induction l as [|a l IH]; simpl; [reflexivity|].
  assert (E : same_pair quiz student
                (if id_is attempt (Attempt.id a)
                 then complete a completed score minutes else a)
              = same_pair quiz student a).
  { destruct (id_is attempt (Attempt.id a)); reflexivity. }
  rewrite E. destruct (same_pair quiz student a); simpl; rewrite IH;
    reflexivity.
Qed.

Lemma same_pair_eq quiz student quiz' student' a :
  same_pair quiz student a = true -> same_pair quiz' student' a = true ->
  quiz' = quiz /\ student' = student.
Proof.
  unfold same_pair. intros H H'.
  apply andb_prop in H. apply andb_prop in H'.
  destruct H as [H1 H2]. destruct H' as [H1' H2'].
  apply String.eqb_eq in H1, H2, H1', H2'. split; congruence.
Qed.

Lemma existsb_false_filter {A} (p : A -> bool) l :
  existsb p l = false -> filter p l = [].
Proof.
  induction l as [|a l IH]; simpl; [reflexivity|].
  destruct (p a); simpl; [discriminate | exact IH].
Qed.

Lemma existsb_true_filter {A} (p : A -> bool) l :
  existsb p l = true -> filter p l <> [].
Proof.
  induction l as [|a l IH]; simpl; [discriminate|].
  destruct (p a); simpl; [discriminate | exact IH].
Qed.

(** The uniqueness constraint keeps at most one attempt per pair. *)
Lemma insert_attempt_unique be fresh quiz student total started r be' :
  insert_attempt be fresh quiz student total started = (r, be') ->
  Spec.one_attempt_per_pair (tables be) ->
  Spec.one_attempt_per_pair (tables be').
Proof.
  unfold insert_attempt. intros H Inv.
  destruct (down be InsertAttempt); [inversion H; subst; exact Inv|].
  destruct (existsb (fun a => (Attempt.id a =? fresh)%string)
                    (quiz_attempts (tables be)));
    [inversion H; subst; exact Inv|].
  destruct (existsb (same_pair quiz student) (quiz_attempts (tables be)))
    eqn:E; [inversion H; subst; exact Inv|].
  destruct (negb _ || negb _); [inversion H; subst; exact Inv|].
  inversion H. subst. clear H. intros quiz' student'. simpl.
  rewrite filter_app, length_app. simpl.
  match goal with
  | |- context [same_pair quiz' student' ?row] =>
      destruct (same_pair quiz' student' row) eqn:P
  end; simpl.
  - assert (P' : same_pair quiz student
                   {| Attempt.id := fresh; Attempt.quiz_id := quiz;
                      Attempt.student_id := student;
                      Attempt.started_at := started;
                      Attempt.completed_at := None;
                      Attempt.score := Some 0%Z;
                      Attempt.total_questions := total;
                      Attempt.is_completed := false;
                      Attempt.time_taken_minutes := None |} = true).
    { unfold same_pair. simpl. rewrite !String.eqb_refl. reflexivity. }
    destruct (same_pair_eq _ _ _ _ _ P' P) as [-> ->].
    rewrite (existsb_false_filter _ _ E). simpl. lia.
  - specialize (Inv quiz' student'). lia.
Qed.

(** A second insert for a pair is refused and changes nothing. *)
Lemma insert_attempt_refused be fresh quiz student total started :
  existsb (same_pair quiz student) (quiz_attempts (tables be)) = true ->
  exists e,
    insert_attempt be fresh quiz student total started = (Error e, be).
Proof.
  intros E. unfold insert_attempt.
  destruct (down be InsertAttempt); [eexists; reflexivity|].
  destruct (existsb (fun a => (Attempt.id a =? fresh)%string)
                    (quiz_attempts (tables be))); [eexists; reflexivity|].
  rewrite E. eexists. reflexivity.
Qed.

End StoreFacts.

(* ================================================================== *)
(** * One attempt per quiz and student *)

Module AttemptFacts.

Import Store QuizTaking StoreFacts.

Lemma frame_unique be be' :
  same_but_answers be be' ->
  Spec.one_attempt_per_pair (tables be) ->
  Spec.one_attempt_per_pair (tables be').
Proof.
  intros (_ & _ & _ & A & _) Inv quiz student. rewrite A. apply Inv.
Qed.

Lemma update_attempt_unique be attempt completed score minutes r be' :
  update_attempt be attempt completed score minutes = (r, be') ->
  Spec.one_attempt_per_pair (tables be) ->
  Spec.one_attempt_per_pair (tables be').
Proof.
  unfold update_attempt. intros H Inv.
  destruct (down be UpdateAttempt); inversion H; subst; [exact Inv|].
  intros quiz student. simpl. rewrite filter_pair_complete. apply Inv.
Qed.

Lemma initializeQuiz_unique now fresh quizId student st be :
  Spec.one_attempt_per_pair (tables be) ->
  Spec.one_attempt_per_pair
    (tables (snd (fst (initializeQuiz now fresh quizId student st be)))).
Proof.
  intros Inv. unfold initializeQuiz.
  destruct (select_quiz be quizId); [|exact Inv].
  destruct (select_questions be quizId) as [qs|]; [|exact Inv].
  destruct (insert_attempt be fresh quizId student
              (Z.of_nat (List.length qs)) now) as [r be'] eqn:E.
  pose proof (insert_attempt_unique _ _ _ _ _ _ _ _ E Inv) as Inv'.
  destruct r; exact Inv'.
Qed.

Lemma submit_try_unique now later st be :
  Spec.one_attempt_per_pair (tables be) ->
  Spec.one_attempt_per_pair (tables (fst (submit_try now later st be))).
Proof.
  intros Inv. unfold submit_try.
  destruct (quiz st); [|exact Inv].
  set (inserted := if (0 <? List.length (answers st))%nat
                   then insert_answers be (attemptId st) (answers st)
                   else (Data tt, be)).
  assert (F : same_but_answers be (snd inserted)).
  { unfold inserted. destruct (0 <? List.length (answers st))%nat.
    - destruct (insert_answers be (attemptId st) (answers st))
        as [res b] eqn:E.
      exact (insert_answers_frame _ _ _ _ _ E).
    - apply same_but_answers_refl. }
  destruct inserted as [[u|e] be1]; simpl in F.
  2:{ exact (frame_unique _ _ F Inv). }
  pose proof (scoring_loop_frame (attemptId st) (answers st) be1) as G.
  destruct (scoring_loop (attemptId st) (answers st) be1) as [score be2].
  simpl in G.
  pose proof (frame_unique _ _ G (frame_unique _ _ F Inv)) as Inv2.
  destruct (update_attempt be2 (attemptId st) later _ _) as [res be3] eqn:U.
  pose proof (update_attempt_unique _ _ _ _ _ _ _ U Inv2) as Inv3.
  destruct res; exact Inv3.
Qed.

Lemma handleSubmitQuiz_unique now later st be :
  Spec.one_attempt_per_pair (tables be) ->
  Spec.one_attempt_per_pair
    (tables (snd (fst (handleSubmitQuiz now later st be)))).
Proof.
  intros Inv. unfold handleSubmitQuiz.
  destruct (submitting st); [exact Inv|].
  pose proof (submit_try_unique now later st be Inv) as H.
  destruct (submit_try now later st be). exact H.
Qed.

Definition load_failure : list Effect :=
  [console_error; toast (failure "Failed to load quiz. Please try again.");
   onBack].

Lemma initializeQuiz_refused now fresh quizId student st be :
  existsb (same_pair quizId student) (quiz_attempts (tables be)) = true ->
  initializeQuiz now fresh quizId student st be
  = (setLoading false st, be, load_failure).
Proof.
  intros E. unfold initializeQuiz.
  destruct (select_quiz be quizId); [|reflexivity].
  destruct (select_questions be quizId) as [qs|]; [|reflexivity].
  destruct (insert_attempt_refused be fresh quizId student
              (Z.of_nat (List.length qs)) now E) as [e R].
  rewrite R. reflexivity.
Qed.

End AttemptFacts.

Section OneAttempt.

Import Store.
Local Open Scope string_scope.

(** C2, as the code has it: initialising and submitting keep at most one
    attempt per (quiz, student); an initialisation for a pair that already
    has an attempt writes nothing and ends in the general "Failed to load
    quiz" error; "Already Attempted" is the answer of the join guard, which
    then neither opens the quiz nor writes, when the code resolves to an
    active quiz inside its window and the lookup returns the attempt. *)
Theorem second_attempt_is_never_stored now later fresh quizId student st be :
  (Spec.one_attempt_per_pair (tables be) ->
   Spec.one_attempt_per_pair
     (tables (snd (fst (QuizTaking.initializeQuiz now fresh quizId student
                          st be))))
   /\ forall taking,
       Spec.one_attempt_per_pair
         (tables (snd (fst (QuizTaking.handleSubmitQuiz now later
                              taking be)))))
  /\ (existsb (same_pair quizId student) (quiz_attempts (tables be)) = true ->
      QuizTaking.initializeQuiz now fresh quizId student st be
      = (QuizTaking.setLoading false st, be, AttemptFacts.load_failure))
  /\ (forall dash q a,
         StudentDashboard.activeView dash = StudentDashboard.dashboard ->
         JsString.truthy (JsString.trim (StudentDashboard.quizCode dash))
         = true ->
         select_active_quiz_by_code be
           (JsString.toUpperCase (StudentDashboard.quizCode dash)) = Data q ->
         not_yet_open now q = None ->
         already_closed now q = None ->
         select_attempt be (Quiz.id q) student = Data a ->
         Flow.join now later fresh student dash be
         = {| Flow.dashboard := StudentDashboard.setLoading false dash;
              Flow.taking := None;
              Flow.backend := be;
              Flow.effects := [toast StudentDashboard.already_attempted] |}).
Proof.
  split; [|split].
  - intros Inv. split.
    + apply AttemptFacts.initializeQuiz_unique, Inv.
    + intros taking. apply AttemptFacts.handleSubmitQuiz_unique, Inv.
  - apply AttemptFacts.initializeQuiz_refused.
  - intros dash q a Hview Hcode Hq Hs He Ha.
    unfold Flow.join, StudentDashboard.handleJoinQuiz.
    rewrite Hcode. simpl negb. cbv iota. rewrite Hq, Hs, He, Ha.
    simpl StudentDashboard.activeView. rewrite Hview. reflexivity.
Qed.

(** The student of the scenario opened the start page before the first
    attempt; after it, the page still lets the start through, and the
    second initialisation ends in the general error. *)
Lemma second_initialize_is_a_load_failure :
  let be := snd (fst Scenario.session) in
  let page := QuizAccess.fetchQuizInfo "k7q2zd" (Some "student-1")
                QuizAccess.initial Scenario.store in
  existsb (same_pair "quiz-1" "student-1") (quiz_attempts (tables be)) = true
  /\ QuizAccess.handleStartQuiz Scenario.finished (Some "student-1") page
     = (QuizAccess.start page, [])
  /\ snd (QuizTaking.initializeQuiz Scenario.finished "attempt-2" "quiz-1"
            "student-1" QuizTaking.initial be)
     = [console_error;
        toast (failure "Failed to load quiz. Please try again.");
        onBack]
  /\ title (failure "Failed to load quiz. Please try again.")
     <> title StudentDashboard.already_attempted.
Proof. vm_compute. repeat split; try reflexivity. discriminate. Qed.

(** On the store the scenario leaves, which holds one attempt, a new join
    of the same student is answered "Already Attempted", a new
    initialisation is refused, and there is still one attempt. *)
Lemma second_attempt_example :
  let be := snd (fst Scenario.session) in
  Flow.effects (Flow.join Scenario.finished Scenario.finished "attempt-2"
                  "student-1" (Scenario.typing "k7q2zd") be)
  = [toast StudentDashboard.already_attempted]
  /\ QuizTaking.initializeQuiz Scenario.finished "attempt-2" "quiz-1"
       "student-1" QuizTaking.initial be
     = (QuizTaking.setLoading false QuizTaking.initial, be,
        AttemptFacts.load_failure)
  /\ Spec.one_attempt_per_pair
       (tables (snd (fst (QuizTaking.initializeQuiz Scenario.finished
                            "attempt-2" "quiz-1" "student-1"
                            QuizTaking.initial be)))).
Proof.
  intros be.
  destruct (second_attempt_is_never_stored Scenario.finished
              Scenario.finished "attempt-2" "quiz-1" "student-1"
              QuizTaking.initial be) as (A & B & C).
  split; [|split].
  - rewrite (C (Scenario.typing "k7q2zd") Scenario.the_quiz
               Scenario.completed_attempt eq_refl eq_refl);
      try (vm_compute; reflexivity).
  - apply B. vm_compute. reflexivity.
  - assert (Inv : Spec.one_attempt_per_pair (tables be)).
    { intros quiz student.
      assert (E : quiz_attempts (tables be) = [Scenario.completed_attempt])
        by (vm_compute; reflexivity).
      rewrite E. cbn [filter].
      destruct (same_pair quiz student Scenario.completed_attempt);
        cbn [List.length]; lia. }
    exact (proj1 (A Inv)).
Defined.

End OneAttempt.

(* ================================================================== *)
(** * The countdown and the in-flight flag *)

Module CountdownFacts.

Import Store QuizTaking Countdown.
Local Open Scope nat_scope.

(** The timer has called [handleSubmitQuiz] exactly when the countdown of
    a loaded quiz stands at zero. *)
Definition expired (st : State) : bool :=
  (timeLeft st =? 0)%Z && Spec.is_some (quiz st).

(** What every reachable session satisfies. *)
Record Inv (s : Session) : Prop := {
  called_once : automatic s = if expired (state s) then 1 else 0;
  one_in_flight :
    in_flight s = []
    \/ exists closure,
         in_flight s = [closure] /\ submitting (state s) = true;
  gone_when_completed : mounted s = negb (completes (shown s)) }.

Lemma timer_effect_submit st :
  timer_effect st = submit <-> expired st = true.
Proof.
  unfold timer_effect, expired, Spec.is_some.
  destruct (Z.ltb_spec 0 (timeLeft st)) as [H|H].
  - split; [discriminate|]. intros E. apply andb_prop in E.
    destruct E as [E _]. apply Z.eqb_eq in E. lia.
  - destruct ((timeLeft st =? 0)%Z); destruct (quiz st); simpl;
      split; (reflexivity || discriminate).
Qed.

Lemma timer_effect_schedule st next :
  timer_effect st = schedule next ->
  (0 < timeLeft st)%Z /\ next = (timeLeft st - 1)%Z.
Proof.
  unfold timer_effect. destruct (Z.ltb_spec 0 (timeLeft st)) as [H|H].
  - intros E. inversion E. split; [exact H | reflexivity].
  - destruct ((timeLeft st =? 0)%Z && _); discriminate.
Qed.

(** A call preserves the invariant but for the count of the timer. *)
Lemma call_submit_flight by_timer s :
  (in_flight s = []
   \/ exists closure, in_flight s = [closure] /\ submitting (state s) = true) ->
  in_flight (call_submit by_timer s) = []
  \/ exists closure,
       in_flight (call_submit by_timer s) = [closure]
       /\ submitting (state (call_submit by_timer s)) = true.
Proof.
  intros H. unfold call_submit.
  destruct (submitting (state s)) eqn:E; simpl.
  - destruct H as [H|(c & H & _)]; [left; exact H|].
    right. exists c. split; [exact H | exact E].
  - destruct H as [H|(c & _ & H)]; [|congruence].
    right. exists (state s). rewrite H. split; reflexivity.
Qed.

Lemma call_submit_expired by_timer s :
  expired (state (call_submit by_timer s)) = expired (state s).
Proof.
  unfold call_submit. destruct (submitting (state s)); reflexivity.
Qed.

Lemma call_submit_rest by_timer s :
  mounted (call_submit by_timer s) = mounted s
  /\ shown (call_submit by_timer s) = shown s
  /\ backend (call_submit by_timer s) = backend s
  /\ automatic (call_submit by_timer s)
     = if by_timer then S (automatic s) else automatic s.
Proof.
  unfold call_submit. destruct (submitting (state s)); repeat split.
Qed.


Lemma run_timer_effect_inv s :
  automatic s = 0 ->
  (in_flight s = []
   \/ exists closure, in_flight s = [closure] /\ submitting (state s) = true) ->
  mounted s = negb (completes (shown s)) ->
  Inv (run_timer_effect s).
Proof.
  intros A F M. unfold run_timer_effect.
  pose proof (timer_effect_submit (state s)) as T.
  destruct (timer_effect (state s)) eqn:E.
  - constructor; try assumption.
    destruct (expired (state s)); [|exact A].
    destruct T as [_ T]. specialize (T eq_refl). discriminate.
  - destruct T as [T _]. specialize (T eq_refl).
    destruct (call_submit_rest true s) as (M' & S' & _ & A').
    constructor.
    + rewrite call_submit_expired, T, A', A. reflexivity.
    + apply call_submit_flight, F.
    + rewrite M', S'. exact M.
  - constructor; try assumption.
    destruct (expired (state s)); [|exact A].
    destruct T as [_ T]. specialize (T eq_refl). discriminate.
Qed.

Lemma mount_inv st be : Inv (mount st be).
Proof.
  unfold mount. apply run_timer_effect_inv; simpl; auto.
Qed.

Lemma completes_app l l' :
  completes (l ++ l') = completes l || completes l'.
Proof. unfold completes. apply existsb_app. Qed.

Lemma step_inv s e : Inv s -> Inv (step s e).
Proof.
  intros [A F M]. unfold step.
  destruct (Bool.bool_dec (mounted s) true) as [Mounted|Mounted];
    [rewrite Mounted | apply not_true_is_false in Mounted; rewrite Mounted];
    simpl; [|constructor; assumption].
  destruct e as [| |q a|now later].
  - destruct (timer_effect (state s)) eqn:E;
      try (constructor; assumption).
    destruct (timer_effect_schedule _ _ E) as [Hpos ->].
    apply run_timer_effect_inv; simpl.
    + rewrite A. unfold expired.
      destruct (Z.eqb_spec (timeLeft (state s)) 0); [lia | reflexivity].
    + exact F.
    + rewrite <- M. symmetry. exact Mounted.
  - destruct (call_submit_rest false s) as (M' & S' & _ & A').
    constructor.
    + rewrite call_submit_expired, A'. exact A.
    + apply call_submit_flight, F.
    + rewrite M', S'. exact M.
  - constructor; simpl; try assumption. rewrite <- M. symmetry. exact Mounted.
  - destruct F as [F|(c & F & Sub)]; rewrite F.
    + constructor; [exact A | left; exact F | exact M].
    + destruct (submit_try now later c (backend s)) as [be effects].
      constructor; simpl.
      * exact A.
      * left. reflexivity.
      * rewrite completes_app.
        rewrite M in Mounted. apply negb_true_iff in Mounted.
        rewrite Mounted. reflexivity.
Qed.

Lemma run_inv events : forall s, Inv s -> Inv (run s events).
Proof.
  unfold run. induction events as [|e l IH]; intros s H; simpl.
  - exact H.
  - apply IH, step_inv, H.
Qed.

(** A click on a session at rest, followed by the end of the submission,
    is [handleSubmitQuiz] run in one go. *)
Lemma click_then_settle s now later :
  mounted s = true -> submitting (state s) = false ->
  let s' := step (step s click) (settle now later) in
  let '(st, be, effects) :=
    handleSubmitQuiz now later (state s) (backend s) in
  state s' = st /\ backend s' = be /\ shown s' = shown s ++ effects.
Proof.
  intros M Sub. unfold step, call_submit, handleSubmitQuiz.
  rewrite M, Sub. simpl.
  destruct (submit_try now later (state s) (backend s)) as [be effects].
  simpl. repeat split.
Qed.

End CountdownFacts.

Section Timer.

Import Store QuizTaking Countdown CountdownFacts.
Local Open Scope nat_scope.


(** The student of the scenario answers nothing and clicks Submit with one
    second left; the last tick arrives while that submission is in
    flight.  The timer makes its one call, the flag returns it, and the
    single submission completes the attempt. *)
Lemma click_races_last_tick :
  let '(st, be, _) :=
    initializeQuiz Scenario.started "attempt-1"%string "quiz-1"%string
      "student-1"%string initial Scenario.store in
  let s := run (mount st be) (repeat tick 1799 ++ [click; tick]) in
  let s' := step s (settle Scenario.finished Scenario.finished) in
  timeLeft (state s) = 0%Z
  /\ automatic s = 1
  /\ List.length (in_flight s) = 1
  /\ in_flight s' = []
  /\ map Attempt.is_completed (quiz_attempts (tables (backend s'))) = [true]
  /\ step s' tick = s'.
Proof. vm_compute. repeat split; reflexivity. Qed.

End Timer.

(* ================================================================== *)
(** * Submitting *)

Module SubmitFacts.

Import Number NumberFacts Store QuizTaking StoreFacts.
Local Open Scope Q_scope.


(** The score never leaves [0, 100] when the correct answers are no more
    than the questions. *)
Lemma finalScore_range k n :
  (0 <= k <= Z.of_nat n)%Z -> (0 < n)%nat ->
  exists z, finalScore k n = Finite (inject_Z z) /\ (0 <= z <= 100)%Z.
Proof.
  intros Hk Hn. unfold finalScore, ofZ.
  set (a := rnd (inject_Z k)). set (b := rnd (inject_Z (Z.of_nat n))).
  assert (Pb : 0 < b) by (apply rnd_positive, inject_Z_pos; lia).
  assert (Pa : 0 <= a).
  { change 0 with (rnd 0). apply rnd_mono.
    change 0 with (inject_Z 0). rewrite <- Zle_Qle. lia. }
  assert (Hab : a <= b) by (apply rnd_mono; rewrite <- Zle_Qle; lia).
  unfold div.
  assert (E : Qeq_bool b 0 = false).
  { destruct (Qeq_bool b 0) eqn:E; [|reflexivity].
    apply Qeq_bool_eq in E. rewrite E in Pb. discriminate. }
  rewrite E. unfold mul, Math_round. eexists. split; [reflexivity|].
  assert (Q0 : 0 <= rnd (a / b)).
  { change 0 with (rnd 0). apply rnd_mono.
    apply Qle_shift_div_l; [exact Pb | lra]. }
  assert (Q1 : rnd (a / b) <= 1).
  { change 1 with (rnd 1). apply rnd_mono.
    apply Qle_shift_div_r; [exact Pb | lra]. }
  assert (C : rnd (inject_Z 100) = 100) by (vm_compute; reflexivity).
  rewrite C.
  assert (R0 : 0 <= rnd (rnd (a / b) * 100)).
  { change 0 with (rnd 0). apply rnd_mono. lra. }
  assert (R1 : rnd (rnd (a / b) * 100) <= 100).
  { assert (C' : rnd 100 = 100) by (vm_compute; reflexivity).
    rewrite <- C' at 2. apply rnd_mono. lra. }
  split.
  - assert (H : (Qfloor 0 <= Qfloor (rnd (rnd (a / b) * 100) + (1 # 2)))%Z)
      by (apply Qfloor_resp_le; lra).
    exact H.
  - assert (H : (Qfloor (rnd (rnd (a / b) * 100) + (1 # 2))
                 <= Qfloor (100 + (1 # 2)))%Z)
      by (apply Qfloor_resp_le; lra).
    exact H.
Qed.

End SubmitFacts.

Section EmptySubmission.

Import Number Store StoreFacts SubmitFacts.
Local Open Scope string_scope.



(** The row a successful initialisation inserts. *)
Definition new_attempt (fresh quizId student : uuid) (total : Z)
    (now : timestamp) : Attempt.row :=
  {| Attempt.id := fresh; Attempt.quiz_id := quizId;
     Attempt.student_id := student; Attempt.started_at := now;
     Attempt.completed_at := None; Attempt.score := Some 0%Z;
     Attempt.total_questions := total; Attempt.is_completed := false;
     Attempt.time_taken_minutes := None |}.

Definition add_attempt (be : Backend) (r : Attempt.row) : Backend :=
  with_tables be
    {| quizzes := quizzes (tables be);
       questions := questions (tables be);
       quiz_attempts := quiz_attempts (tables be) ++ [r];
       student_answers := student_answers (tables be);
       profiles := profiles (tables be) |}.





End EmptySubmission.

(* ================================================================== *)
(** * A correct answer that cannot be fetched *)

Module LoopFacts.

Import Store QuizTaking StoreFacts.
Local Open Scope string_scope.

(** An entry whose question cannot be fetched leaves the loop as it
    found it. *)
Lemma score_entry_skip attempt acc question text :
  down (snd acc) (SelectCorrectAnswer question) = true ->
  score_entry attempt acc (question, text) = acc.
Proof.
  destruct acc as [score be]. simpl snd. intros H.
  unfold score_entry, select_correct_answer. rewrite H. reflexivity.
Qed.

Lemma fold_score_down attempt entries acc r :
  down (snd (fold_left (score_entry attempt) entries acc)) r
  = down (snd acc) r.
Proof.
  destruct acc as [score be].
  destruct (fold_score_frame attempt entries score be) as (D & _).
  simpl snd. rewrite D. reflexivity.
Qed.

Lemma scoring_loop_skip attempt before question text after be :
  down be (SelectCorrectAnswer question) = true ->
  scoring_loop attempt (before ++ (question, text) :: after) be
  = scoring_loop attempt (before ++ after) be.
Proof.
  intros H. unfold scoring_loop. rewrite !fold_left_app. cbn [fold_left].
  rewrite score_entry_skip; [reflexivity|].
  rewrite fold_score_down. exact H.
Qed.

(** The rows of a question that cannot be fetched are not updated. *)
Lemma update_answer_keeps be attempt question correct r :
  StudentAnswer.question_id r <> question ->
  In r (student_answers (tables be)) ->
  In r (student_answers (tables (update_answer be attempt question correct))).
Proof.
  intros Hne Hin. unfold update_answer.
  destruct (down be (UpdateAnswer question)); [exact Hin|].
  cbn [tables with_tables student_answers].
  apply in_map_iff. exists r. split; [|exact Hin].
  destruct (String.eqb_spec (StudentAnswer.question_id r) question) as [E|_];
    [contradiction|].
  rewrite andb_false_r. reflexivity.
Qed.

Lemma score_entry_keeps attempt acc entry question r :
  down (snd acc) (SelectCorrectAnswer question) = true ->
  StudentAnswer.question_id r = question ->
  In r (student_answers (tables (snd acc))) ->
  In r (student_answers (tables (snd (score_entry attempt acc entry)))).
Proof.
  destruct acc as [score be]. destruct entry as [q a]. simpl snd.
  intros Hd Hq Hin. unfold score_entry.
  destruct (select_correct_answer be q) as [c|e] eqn:E; simpl snd;
    [|exact Hin].
  apply update_answer_keeps; [|exact Hin].
  intros Heq. unfold select_correct_answer in E.
  rewrite Hq in Heq. subst q. rewrite Hd in E. discriminate.
Qed.

Lemma fold_score_keeps attempt entries question r :
  StudentAnswer.question_id r = question ->
  forall acc,
    down (snd acc) (SelectCorrectAnswer question) = true ->
    In r (student_answers (tables (snd acc))) ->
    In r (student_answers
            (tables (snd (fold_left (score_entry attempt) entries acc)))).
Proof.
  intros Hq. induction entries as [|e l IH]; intros acc Hd Hin;
    cbn [fold_left]; [exact Hin|].
  apply IH.
  - destruct acc as [score be].
    destruct (score_entry_frame attempt score be e) as (D & _).
    rewrite D. exact Hd.
  - apply score_entry_keeps with (question := question); assumption.
Qed.

(** The batch insert stores every recorded answer as not correct. *)
Lemma insert_answers_rows be attempt entries be' question text :
  insert_answers be (Some attempt) entries = (Data tt, be') ->
  In (question, text) entries ->
  In {| StudentAnswer.attempt_id := attempt;
        StudentAnswer.question_id := question;
        StudentAnswer.student_answer := text;
        StudentAnswer.is_correct := false |}
     (student_answers (tables be')).
Proof.
  unfold insert_answers. destruct (down be InsertAnswers); [discriminate|].
  cbn [answer_rows].
  destruct (forallb _ _); [|discriminate].
  intros H Hin. inversion H. subst be'. clear H.
  cbn [tables with_tables student_answers].
  apply in_or_app. right.
  apply in_map_iff. exists (question, text). split; [reflexivity | exact Hin].
Qed.

End LoopFacts.

Section FailedFetch.

Import Store QuizTaking StoreFacts LoopFacts.
Local Open Scope string_scope.
Local Open Scope list_scope.

(** C10: when the correct answer of a recorded answer cannot be fetched,
    the submission goes on: provided the batch insert and the update of
    the attempt are served, it ends with the success toast and
    [onCompleted]; the score is the one the other answers obtain; the row
    of the answer keeps [is_correct = false]; the attempt is completed
    with that score. *)
Theorem failed_fetch_counts_as_incorrect
    now later st be q attempt question text before after be1 :
  quiz st = Some q ->
  submitting st = false ->
  attemptId st = Some attempt ->
  answers st = before ++ (question, text) :: after ->
  down be (SelectCorrectAnswer question) = true ->
  insert_answers be (Some attempt) (answers st) = (Data tt, be1) ->
  down be UpdateAttempt = false ->
  let final :=
    finalScore (fst (scoring_loop (Some attempt) (before ++ after) be1))
               (List.length (questions st)) in
  exists be',
    handleSubmitQuiz now later st be
    = (setSubmitting false st, be', [toast (submitted final); onCompleted])
    /\ In {| StudentAnswer.attempt_id := attempt;
             StudentAnswer.question_id := question;
             StudentAnswer.student_answer := text;
             StudentAnswer.is_correct := false |}
          (student_answers (tables be'))
    /\ forall a, In a (quiz_attempts (tables be')) ->
                 Attempt.id a = attempt ->
                 Attempt.is_completed a = true
                 /\ Attempt.score a = Number.to_integer final.
Proof.
  intros Hq Hsub Hid Ha Hdown Hins Hup final.
  pose proof (insert_answers_frame _ _ _ _ _ Hins) as F1.
  assert (Hdown1 : down be1 (SelectCorrectAnswer question) = true).
  { destruct F1 as (D & _). rewrite D. exact Hdown. }
  pose proof (scoring_loop_frame (Some attempt) (before ++ after) be1) as F2.
  assert (Hrow : In {| StudentAnswer.attempt_id := attempt;
                       StudentAnswer.question_id := question;
                       StudentAnswer.student_answer := text;
                       StudentAnswer.is_correct := false |}
                    (student_answers
                       (tables (snd (scoring_loop (Some attempt)
                                       (before ++ after) be1))))).
  { unfold scoring_loop. apply fold_score_keeps with (question := question).
    - reflexivity.
    - exact Hdown1.
    - apply (insert_answers_rows be attempt (answers st)); [exact Hins|].
      rewrite Ha. apply in_or_app. right. left. reflexivity. }
  unfold handleSubmitQuiz. rewrite Hsub. unfold submit_try.
  rewrite Hq, Hid.
  assert (Hlen : (0 <? List.length (answers st))%nat = true).
  { rewrite Ha, length_app. cbn [List.length]. apply Nat.ltb_lt. lia. }
  rewrite Hlen, Hins. cbv iota beta.
  rewrite Ha, scoring_loop_skip by exact Hdown1.
  subst final.
  destruct (scoring_loop (Some attempt) (before ++ after) be1)
    as [score be2].
  cbn [fst snd] in *.
  destruct F2 as (D2 & _ & _ & A2 & _). destruct F1 as (D1 & _ & _ & A1 & _).
  unfold update_attempt. rewrite D2, D1, Hup.
  eexists. split; [reflexivity|]. split.
  - cbn [tables with_tables student_answers]. exact Hrow.
  - cbn [tables with_tables quiz_attempts]. intros a Hin Hida.
    apply in_map_iff in Hin. destruct Hin as (x & Hx & _).
    unfold id_is in Hx.
    destruct (String.eqb_spec (Attempt.id x) attempt) as [E|N].
    + subst a. split; reflexivity.
    + subst a. contradiction.
Qed.

(** On the quiz of forty questions, the first answer cannot be checked:
    22 of the 23 matching answers count, the submission succeeds with
    55. *)
Lemma failed_fetch_example :
  let st := fst Scenario.flaky_start in
  let be := snd Scenario.flaky_start in
  exists be',
    handleSubmitQuiz Scenario.finished Scenario.finished st be
    = (setSubmitting false st, be',
       [toast (submitted (Number.Finite 55)); onCompleted])
    /\ In {| StudentAnswer.attempt_id := "attempt-1";
             StudentAnswer.question_id := "question-0";
             StudentAnswer.student_answer := " paris ";
             StudentAnswer.is_correct := false |}
          (student_answers (tables be')).
Proof.
  intros st be.
  destruct (failed_fetch_counts_as_incorrect
              Scenario.finished Scenario.finished st be Scenario.the_quiz
              "attempt-1" "question-0" " paris " [] (tl (answers st))
              (snd (insert_answers be (Some "attempt-1") (answers st)))
              eq_refl eq_refl eq_refl eq_refl eq_refl eq_refl eq_refl)
    as (be' & E & Hin & _).
  exists be'. split; [exact E | exact Hin].
Defined.

End FailedFetch.

(* ================================================================== *)
(** * The model of doubles against the processor *)

Module Hardware.

Import Number.

(** The rational a machine double stands for. *)
Definition of_double (f : float) : option Q :=
  match Prim2SF f with
  | S754_zero _ => Some 0%Q
  | S754_finite negative m e =>
      Some (Qred ((if negative then -1 else 1) * inject_Z (Zpos m) * 2 ^ e)%Q)
  | _ => None
  end.

Definition quotient_then_percent (k n : Z) : Q :=
  rnd (rnd (rnd (inject_Z k) / rnd (inject_Z n)) * rnd (inject_Z 100))%Q.

Definition machine_percent (k n : Z) : float :=
  (of_uint63 (Uint63.of_Z k) / of_uint63 (Uint63.of_Z n) * 100)%float.

(** The rounding of the model is the one of the processor on every score
    of a quiz of up to sixty questions. *)
Definition agree (n : Z) : bool :=
  forallb (fun k => match of_double (machine_percent k n) with
                    | Some q => Qeq_bool q (quotient_then_percent k n)
                    | None => false
                    end)
          (map Z.of_nat (seq 0 (S (Z.to_nat n)))).

Lemma model_agrees_with_machine :
  forallb agree (map Z.of_nat (seq 1 60)) = true
  /\ of_double (23 / 40 * 100)%float
     = Some (8092405580431359 # 140737488355328).
Proof. vm_compute. split; reflexivity. Qed.

End Hardware.

(* ================================================================== *)
(** * The answers on screen and the cursor *)

Module AnswerFacts.

Import Store QuizTaking.
Local Open Scope string_scope.
Local Open Scope list_scope.

Lemma answer_of_assign prev questionId answer other :
  answer_of (assign prev questionId answer) other
  = if questionId =? other then Some answer else answer_of prev other.
Proof.
  induction prev as [|[k v] rest IH]; cbn [assign answer_of].
  - reflexivity.
  - destruct (String.eqb_spec k questionId) as [E|N]; cbn [answer_of].
    + subst k. destruct (questionId =? other); reflexivity.
    + rewrite IH. destruct (String.eqb_spec k other) as [E'|N'];
        [|reflexivity].
      subst k. destruct (String.eqb_spec questionId other) as [E''|_];
        [congruence | reflexivity].
Qed.

Lemma assign_keys prev questionId answer :
  map fst (assign prev questionId answer)
  = if existsb (fun e => fst e =? questionId) prev
    then map fst prev
    else map fst prev ++ [questionId].
Proof.
  induction prev as [|[k v] rest IH]; cbn [assign existsb map fst app].
  - reflexivity.
  - destruct (String.eqb_spec k questionId) as [E|N]; cbn [map fst orb].
    + reflexivity.
    + rewrite IH.
      match goal with
      | |- context [existsb ?f rest] => destruct (existsb f rest)
      end; reflexivity.
Qed.

Lemma existsb_key prev questionId :
  existsb (fun e : uuid * string => fst e =? questionId) prev = false ->
  ~ In questionId (map fst prev).
Proof.
  induction prev as [|[k v] rest IH]; cbn [existsb map fst In].
  - intros _ [].
  - destruct (String.eqb_spec k questionId) as [E|N]; [discriminate|].
    intros H [E|I]; [contradiction | exact (IH H I)].
Qed.

Lemma assign_NoDup prev questionId answer :
  NoDup (map fst prev) -> NoDup (map fst (assign prev questionId answer)).
Proof.
  intros H. rewrite assign_keys.
  match goal with
  | |- context [existsb ?f prev] => destruct (existsb f prev) eqn:E
  end; [exact H|].
  apply NoDup_app; [exact H | repeat constructor; intros [] |].
  intros k Hk [Ek|[]]. subst k. exact (existsb_key _ _ E Hk).
Qed.

Lemma assign_incl prev questionId answer ids :
  In questionId ids -> incl (map fst prev) ids ->
  incl (map fst (assign prev questionId answer)) ids.
Proof.
  intros Hq H. rewrite assign_keys.
  match goal with
  | |- context [existsb ?f prev] => destruct (existsb f prev)
  end; [exact H|].
  apply incl_app; [exact H|]. intros k [Ek|[]]. subst k. exact Hq.
Qed.

(** What the controls preserve: the cursor stays on a question, the keys
    of the record are distinct and each is the identifier of a
    question. *)
Record Tidy (st : State) : Prop := {
  cursor_on_question :
    (currentQuestionIndex st < List.length (questions st))%nat;
  keys_distinct : NoDup (map fst (answers st));
  keys_of_questions :
    incl (map fst (answers st)) (map Question.id (questions st)) }.

Lemma operate_questions st c : questions (operate st c) = questions st.
Proof.
  destruct c as [text| |]; cbn [operate].
  - destruct (currentQuestion st); reflexivity.
  - unfold handlePreviousQuestion.
    destruct (0 <? currentQuestionIndex st)%nat; reflexivity.
  - unfold handleNextQuestion.
    destruct (currentQuestionIndex st <? List.length (questions st) - 1)%nat;
      reflexivity.
Qed.

Lemma operate_tidy st c : Tidy st -> Tidy (operate st c).
Proof.
  intros [C D K]. destruct c as [text| |]; cbn [operate].
  - unfold currentQuestion.
    destruct (nth_error (questions st) (currentQuestionIndex st)) as [q|]
      eqn:E; [|split; assumption].
    split; cbn [handleAnswerChange setAnswers currentQuestionIndex
                  questions answers].
    + exact C.
    + apply assign_NoDup, D.
    + apply assign_incl; [|exact K].
      apply in_map, (nth_error_In _ _ E).
  - unfold handlePreviousQuestion.
    destruct (0 <? currentQuestionIndex st)%nat eqn:E;
      [|split; assumption].
    split; cbn [setCurrentQuestionIndex currentQuestionIndex questions
                  answers]; [lia | exact D | exact K].
  - unfold handleNextQuestion.
    destruct (currentQuestionIndex st <? List.length (questions st) - 1)%nat
      eqn:E; [|split; assumption].
    apply Nat.ltb_lt in E.
    split; cbn [setCurrentQuestionIndex currentQuestionIndex questions
                  answers]; [lia | exact D | exact K].
Qed.

Lemma operate_all_tidy controls :
  forall st, Tidy st -> Tidy (fold_left operate controls st).
Proof.
  induction controls as [|c l IH]; intros st T; cbn [fold_left];
    [exact T | apply IH, operate_tidy, T].
Qed.

Lemma operate_cursor st c :
  (currentQuestionIndex st < List.length (questions st))%nat ->
  (currentQuestionIndex (operate st c)
   < List.length (questions (operate st c)))%nat.
Proof.
  intros C. destruct c as [text| |]; cbn [operate].
  - destruct (currentQuestion st); exact C.
  - unfold handlePreviousQuestion.
    destruct (0 <? currentQuestionIndex st)%nat; [|exact C].
    cbn [setCurrentQuestionIndex currentQuestionIndex questions]. lia.
  - unfold handleNextQuestion.
    destruct (currentQuestionIndex st <? List.length (questions st) - 1)%nat
      eqn:E; [|exact C].
    apply Nat.ltb_lt in E.
    cbn [setCurrentQuestionIndex currentQuestionIndex questions]. lia.
Qed.

Lemma operate_all_cursor controls :
  forall st,
    (currentQuestionIndex st < List.length (questions st))%nat ->
    (currentQuestionIndex (fold_left operate controls st)
     < List.length (questions (fold_left operate controls st)))%nat.
Proof.
  induction controls as [|c l IH]; intros st C; cbn [fold_left];
    [exact C | apply IH, operate_cursor, C].
Qed.

Lemma operate_all_questions controls :
  forall st, questions (fold_left operate controls st) = questions st.
Proof.
  induction controls as [|c l IH]; intros st; cbn [fold_left];
    [reflexivity | rewrite IH; apply operate_questions].
Qed.

End AnswerFacts.

Section Answers.

Import Store QuizTaking AnswerFacts.
Local Open Scope string_scope.
Local Open Scope list_scope.

(** X1: What [handleAnswerChange] records is what the input of that question
    shows afterwards, and the answer of every other question is left as it
    was. *)
Theorem recorded_answer_is_read_back questionId answer other st :
  answer_of (answers (handleAnswerChange questionId answer st)) other
  = if questionId =? other then Some answer
    else answer_of (answers st) other.
Proof. apply answer_of_assign. Qed.

(** X2: Whatever the student types and however the student moves between the
    questions, the cursor stays on a question of the quiz; the last
    question is the only one from which Next does not move. *)
Theorem cursor_stays_on_a_question st controls :
  (currentQuestionIndex st < List.length (questions st))%nat ->
  let st' := fold_left operate controls st in
  currentQuestion st' <> None
  /\ (handleNextQuestion st' = st'
      <-> currentQuestionIndex st' = (List.length (questions st') - 1)%nat).
Proof.
  intros C st'.
  pose proof (operate_all_cursor controls st C) as C'. fold st' in C'.
  split.
  - unfold currentQuestion. apply nth_error_Some. exact C'.
  - unfold handleNextQuestion.
    destruct (currentQuestionIndex st' <? List.length (questions st') - 1)%nat
      eqn:E.
    + apply Nat.ltb_lt in E. split; [|lia].
      intros H. apply (f_equal currentQuestionIndex) in H.
      cbn [setCurrentQuestionIndex currentQuestionIndex] in H. lia.
    + apply Nat.ltb_ge in E. split; [lia | reflexivity].
Qed.

Lemma cursor_stays_on_a_question_example :
  let st := setLoading false
              (loaded Scenario.the_quiz (map Scenario.question (seq 0 3))
                 "attempt-1" initial) in
  let st' := fold_left operate
               [press_next; typed "b"; press_next; press_next;
                press_previous; typed "c"] st in
  currentQuestion st' <> None
  /\ (handleNextQuestion st' = st'
      <-> currentQuestionIndex st' = (List.length (questions st') - 1)%nat).
Proof.
  apply (cursor_stays_on_a_question
           (setLoading false
              (loaded Scenario.the_quiz (map Scenario.question (seq 0 3))
                 "attempt-1" initial))).
  simpl. lia.
Defined.

(** X3: With questions of distinct identifiers, the answers recorded through
    the inputs have distinct keys, each the identifier of a question, so
    they are never more than the questions. *)
Theorem answers_never_exceed_questions st controls :
  (currentQuestionIndex st < List.length (questions st))%nat ->
  answers st = [] ->
  NoDup (map Question.id (questions st)) ->
  let st' := fold_left operate controls st in
  NoDup (map fst (answers st'))
  /\ incl (map fst (answers st')) (map Question.id (questions st))
  /\ (answeredQuestions st' <= List.length (questions st'))%nat.
Proof.
  intros C A Q st'.
  assert (T : Tidy st).
  { split; [exact C | rewrite A; constructor | rewrite A; intros k []]. }
  destruct (operate_all_tidy controls st T) as [_ D K]. fold st' in D, K.
  pose proof (operate_all_questions controls st) as E. fold st' in E.
  rewrite E in K. split; [exact D|]. split; [exact K|].
  unfold answeredQuestions. rewrite E.
  rewrite <- (length_map fst (answers st')).
  rewrite <- (length_map Question.id (questions st)).
  apply NoDup_incl_length; assumption.
Qed.

Lemma answers_never_exceed_questions_example :
  let st := setLoading false
              (loaded Scenario.the_quiz (map Scenario.question (seq 0 3))
                 "attempt-1" initial) in
  let st' := fold_left operate
               [typed "a"; press_next; typed "b"; press_previous;
                typed "c"; press_next; typed "d"] st in
  NoDup (map fst (answers st'))
  /\ incl (map fst (answers st')) (map Question.id (questions st))
  /\ (answeredQuestions st' <= List.length (questions st'))%nat.
Proof.
  apply (answers_never_exceed_questions
           (setLoading false
              (loaded Scenario.the_quiz (map Scenario.question (seq 0 3))
                 "attempt-1" initial))).
  - simpl. lia.
  - reflexivity.
  - vm_compute. repeat constructor; simpl; intuition discriminate.
Defined.

End Answers.

(* ================================================================== *)
(** * The outcomes of a submission *)

Module OutcomeFacts.

Import Number Store QuizTaking StoreFacts.
Local Open Scope string_scope.
Local Open Scope list_scope.

(** The loop counts at most one per entry. *)
Lemma score_entry_bound attempt score be entry :
  (score <= fst (score_entry attempt (score, be) entry) <= score + 1)%Z.
Proof.
  unfold score_entry. destruct entry as [q a].
  destruct (select_correct_answer be q) as [c|e]; cbn [fst]; [|lia].
  destruct (isCorrect a c); lia.
Qed.

Lemma fold_score_bound attempt entries :
  forall score be,
    (score <= fst (fold_left (score_entry attempt) entries (score, be))
     <= score + Z.of_nat (List.length entries))%Z.
Proof.
  induction entries as [|e l IH]; intros score be; cbn [fold_left].
  - cbn [fst List.length]. lia.
  - pose proof (score_entry_bound attempt score be e) as B.
    destruct (score_entry attempt (score, be) e) as [s' be'].
    cbn [fst] in B. specialize (IH s' be'). cbn [List.length]. lia.
Qed.

Lemma scoring_loop_bound attempt entries be :
  (0 <= fst (scoring_loop attempt entries be)
   <= Z.of_nat (List.length entries))%Z.
Proof. apply (fold_score_bound attempt entries 0%Z be). Qed.

(** The updates of the loop replace rows one for one. *)
Lemma update_answer_length be attempt question correct :
  List.length (student_answers
                 (tables (update_answer be attempt question correct)))
  = List.length (student_answers (tables be)).
Proof.
  unfold update_answer. destruct (down be (UpdateAnswer question));
    [reflexivity|].
  cbn [tables with_tables student_answers]. apply length_map.
Qed.

Lemma fold_score_length attempt entries :
  forall score be,
    List.length
      (student_answers
         (tables (snd (fold_left (score_entry attempt) entries (score, be)))))
    = List.length (student_answers (tables be)).
Proof.
  induction entries as [|e l IH]; intros score be; cbn [fold_left];
    [reflexivity|].
  destruct (score_entry attempt (score, be) e) as [s' be'] eqn:E.
  rewrite IH. unfold score_entry in E. destruct e as [q a].
  destruct (select_correct_answer be q) as [c|err]; inversion E;
    [apply update_answer_length | reflexivity].
Qed.

(** What a served batch insert has checked and written. *)
Lemma insert_answers_served be attempt entries be1 :
  insert_answers be (Some attempt) entries = (Data tt, be1) ->
  down be InsertAnswers = false
  /\ (exists rows,
         answer_rows (Some attempt) entries = Some rows
         /\ forallb (answer_refs_ok (tables be)) rows = true
         /\ List.length rows = List.length entries
         /\ student_answers (tables be1)
            = student_answers (tables be) ++ rows).
Proof.
  unfold insert_answers. destruct (down be InsertAnswers); [discriminate|].
  cbn [answer_rows].
  match goal with
  | |- context [forallb ?f ?rows] => destruct (forallb f rows) eqn:F
  end; [|discriminate].
  intros H. inversion H. split; [reflexivity|].
  eexists. split; [reflexivity|]. split; [exact F|].
  split; [apply length_map | reflexivity].
Qed.

Lemma answer_refs_ok_frame t t' r :
  quiz_attempts t' = quiz_attempts t ->
  Store.questions t' = Store.questions t ->
  answer_refs_ok t' r = answer_refs_ok t r.
Proof. intros A Q. unfold answer_refs_ok. rewrite A, Q. reflexivity. Qed.

Lemma forallb_same {A} (f g : A -> bool) l :
  (forall x, f x = g x) -> forallb f l = forallb g l.
Proof.
  intros H. induction l as [|a l IH]; cbn [forallb]; [reflexivity|].
  rewrite H, IH. reflexivity.
Qed.

(** The service is back: the same tables, every request served. *)
Definition restored (be : Backend) : Backend :=
  {| tables := tables be; down := fun _ => false |}.

(** The write that ends a submission, on the rows of the attempt. *)
Lemma completed_rows attempt completed score minutes l a :
  In a (map (fun x => if id_is attempt (Attempt.id x)
                      then complete x completed score minutes else x) l) ->
  id_is attempt (Attempt.id a) = true ->
  Attempt.score a = score /\ Attempt.is_completed a = true
  /\ Attempt.completed_at a = Some completed.
Proof.
  intros Hin Hid. apply in_map_iff in Hin. destruct Hin as (x & Hx & _).
  destruct (id_is attempt (Attempt.id x)) eqn:E; subst a.
  - repeat split.
  - rewrite E in Hid. discriminate.
Qed.

End OutcomeFacts.

Section Outcomes.

Import Number Store QuizTaking StoreFacts OutcomeFacts.
Local Open Scope string_scope.
Local Open Scope list_scope.

(** X10: A submission ends in one of two ways.  Either the failure toast is
    shown, and then no row of [quiz_attempts] has changed: the attempt is
    as open as before.  Or the success toast is shown with [onCompleted],
    and then the rows of the attempt are completed at the time sent.  In
    both, quizzes, questions and profiles are untouched and no answer row
    is removed. *)
Theorem failed_submission_leaves_attempt_open now later st be :
  let '(be', effects) := submit_try now later st be in
  ((effects = submit_failed
    /\ quiz_attempts (tables be') = quiz_attempts (tables be))
   \/ (exists final,
          effects = [toast (submitted final); onCompleted]
          /\ forall a, In a (quiz_attempts (tables be')) ->
                       id_is (attemptId st) (Attempt.id a) = true ->
                       Attempt.is_completed a = true
                       /\ Attempt.completed_at a = Some later
                       /\ Attempt.score a = to_integer final))
  /\ quizzes (tables be') = quizzes (tables be)
  /\ Store.questions (tables be') = Store.questions (tables be)
  /\ profiles (tables be') = profiles (tables be)
  /\ (List.length (student_answers (tables be))
      <= List.length (student_answers (tables be')))%nat.
Proof.
  unfold submit_try. destruct (quiz st) as [q|].
  2:{ split; [left; split; reflexivity|]. repeat split. lia. }
  set (inserted := if (0 <? List.length (answers st))%nat
                   then insert_answers be (attemptId st) (answers st)
                   else (Data tt, be)).
  assert (F : same_but_answers be (snd inserted)
              /\ (List.length (student_answers (tables be))
                  <= List.length (student_answers (tables (snd inserted))))%nat).
  { unfold inserted. destruct (0 <? List.length (answers st))%nat.
    - destruct (insert_answers be (attemptId st) (answers st))
        as [res b] eqn:E.
      split; [exact (insert_answers_frame _ _ _ _ _ E)|].
      cbn [snd]. unfold insert_answers in E.
      destruct (down be InsertAnswers); [inversion E; lia|].
      destruct (answer_rows (attemptId st) (answers st)) as [rows|];
        [|inversion E; lia].
      destruct (forallb (answer_refs_ok (tables be)) rows);
        inversion E; [|lia].
      cbn [tables with_tables student_answers]. rewrite length_app. lia.
    - split; [apply same_but_answers_refl | cbn [snd]; lia]. }
  destruct inserted as [[u|e] be1]; cbn [snd] in F;
    destruct F as [(D1 & Z1 & Q1 & A1 & P1) L1].
  2:{ split; [left; split; [reflexivity | exact A1]|].
      repeat split; assumption. }
  pose proof (scoring_loop_frame (attemptId st) (answers st) be1)
    as (D2 & Z2 & Q2 & A2 & P2).
  pose proof (fold_score_length (attemptId st) (answers st) 0%Z be1) as L2.
  fold (scoring_loop (attemptId st) (answers st) be1) in L2.
  destruct (scoring_loop (attemptId st) (answers st) be1) as [score be2].
  cbn [snd] in *.
  unfold update_attempt. destruct (down be2 UpdateAttempt).
  - split; [left; split; [reflexivity | congruence]|].
    repeat split; first [congruence | lia].
  - cbn [tables with_tables quizzes Store.questions profiles
           student_answers quiz_attempts].
    split; [right|repeat split; first [congruence | lia]].
    eexists. split; [reflexivity|]. intros a Hin Hid.
    destruct (completed_rows _ _ _ _ _ _ Hin Hid) as (S & C & T).
    repeat split; assumption.
Qed.

(** X11: With at least one question and no more answers than questions, the
    percentage of a successful submission, the one shown and stored, is an
    integer from 0 to 100. *)
Theorem stored_score_is_a_percentage now later st be :
  questions st <> [] ->
  (List.length (answers st) <= List.length (questions st))%nat ->
  let '(be', effects) := submit_try now later st be in
  effects = submit_failed
  \/ exists z,
       (0 <= z <= 100)%Z
       /\ effects = [toast (submitted (Finite (inject_Z z))); onCompleted]
       /\ forall a, In a (quiz_attempts (tables be')) ->
                    id_is (attemptId st) (Attempt.id a) = true ->
                    Attempt.score a = Some z.
Proof.
  intros Hn Hle. unfold submit_try. destruct (quiz st) as [q|];
    [|left; reflexivity].
  destruct (if (0 <? List.length (answers st))%nat
            then insert_answers be (attemptId st) (answers st)
            else (Data tt, be)) as [[u|e] be1]; [|left; reflexivity].
  pose proof (scoring_loop_bound (attemptId st) (answers st) be1) as B.
  destruct (scoring_loop (attemptId st) (answers st) be1) as [score be2].
  cbn [fst] in B.
  destruct (SubmitFacts.finalScore_range score (List.length (questions st)))
    as (z & Ez & Hz).
  { lia. }
  { destruct (questions st); [contradiction | cbn [List.length]; lia]. }
  rewrite Ez. cbn [to_integer]. rewrite Qfloor_Z.
  unfold update_attempt. destruct (down be2 UpdateAttempt);
    [left; reflexivity|].
  right. exists z. split; [exact Hz|]. split; [reflexivity|].
  cbn [tables with_tables quiz_attempts]. intros a Hin Hid.
  exact (proj1 (completed_rows _ _ _ _ _ _ Hin Hid)).
Qed.

Lemma stored_score_is_a_percentage_example :
  let '(be', effects) :=
    submit_try Scenario.finished Scenario.finished
      (fst Scenario.flaky_start) (snd Scenario.flaky_start) in
  effects = submit_failed
  \/ exists z,
       (0 <= z <= 100)%Z
       /\ effects = [toast (submitted (Finite (inject_Z z))); onCompleted]
       /\ forall a, In a (quiz_attempts (tables be')) ->
                    id_is (attemptId (fst Scenario.flaky_start))
                          (Attempt.id a) = true ->
                    Attempt.score a = Some z.
Proof.
  apply (stored_score_is_a_percentage Scenario.finished Scenario.finished
           (fst Scenario.flaky_start) (snd Scenario.flaky_start)).
  - vm_compute. discriminate.
  - apply Nat.leb_le. vm_compute. reflexivity.
Defined.

(** X12: The answers written by a submission that fails afterwards stay in the
    store, and the next submission writes them again: when the update of
    the attempt is refused once and the student submits again, every
    answer is stored twice. *)
Theorem retried_submission_stores_answers_twice
    now later now' later' st be q attempt be1 :
  quiz st = Some q ->
  attemptId st = Some attempt ->
  answers st <> [] ->
  insert_answers be (Some attempt) (answers st) = (Data tt, be1) ->
  down be UpdateAttempt = true ->
  let first := submit_try now later st be in
  let second := submit_try now' later' st (restored (fst first)) in
  snd first = submit_failed
  /\ (exists final, snd second = [toast (submitted final); onCompleted])
  /\ List.length (student_answers (tables (fst second)))
     = (List.length (student_answers (tables be))
        + 2 * List.length (answers st))%nat.
Proof.
  intros Hq Hid Hne Hins Hdown.
  assert (Hlen : (0 <? List.length (answers st))%nat = true).
  { destruct (answers st); [contradiction | reflexivity]. }
  destruct (insert_answers_served _ _ _ _ Hins)
    as (Hup & rows & Hrows & Hrefs & Hn & Hans).
  pose proof (insert_answers_frame _ _ _ _ _ Hins) as (D1 & Z1 & Q1 & A1 & P1).
  pose proof (scoring_loop_frame (Some attempt) (answers st) be1)
    as (D2 & Z2 & Q2 & A2 & P2).
  pose proof (fold_score_length (Some attempt) (answers st) 0%Z be1) as L2.
  fold (scoring_loop (Some attempt) (answers st) be1) in L2.
  assert (E1 : submit_try now later st be
               = (snd (scoring_loop (Some attempt) (answers st) be1),
                  submit_failed)).
  { unfold submit_try. rewrite Hq, Hid, Hlen, Hins. cbv iota beta.
    destruct (scoring_loop (Some attempt) (answers st) be1) as [score be2].
    cbn [snd] in *. unfold update_attempt. rewrite D2, D1, Hdown.
    reflexivity. }
  intros first second. subst second first. rewrite E1. cbn [fst snd].
  set (be2 := snd (scoring_loop (Some attempt) (answers st) be1)) in *.
  split; [reflexivity|].
  assert (Hins' : insert_answers (restored be2) (Some attempt) (answers st)
                  = (Data tt,
                     with_tables (restored be2)
                       {| quizzes := quizzes (tables be2);
                          Store.questions := Store.questions (tables be2);
                          quiz_attempts := quiz_attempts (tables be2);
                          student_answers :=
                            student_answers (tables be2) ++ rows;
                          profiles := profiles (tables be2) |})).
  { unfold insert_answers. cbn [restored down tables]. rewrite Hrows.
    assert (R : forallb (answer_refs_ok (tables be2)) rows = true).
    { rewrite <- Hrefs. apply forallb_same. intros r.
      apply answer_refs_ok_frame; congruence. }
    rewrite R. reflexivity. }
  unfold submit_try. rewrite Hq, Hid, Hlen, Hins'. cbv iota beta.
  match goal with
  | |- context [scoring_loop (Some attempt) (answers st) ?b] =>
      pose proof (fold_score_length (Some attempt) (answers st) 0%Z b) as L3;
      fold (scoring_loop (Some attempt) (answers st) b) in L3;
      pose proof (scoring_loop_frame (Some attempt) (answers st) b)
        as (D3 & _);
      destruct (scoring_loop (Some attempt) (answers st) b) as [score3 be3]
  end.
  cbn [snd] in *. unfold update_attempt. rewrite D3.
  cbn [with_tables restored down fst snd tables student_answers].
  split; [eexists; reflexivity|].
  rewrite L3. cbn [with_tables tables student_answers].
  rewrite length_app, L2, Hans, length_app. lia.
Qed.

Lemma retried_submission_example :
  let st := Scenario.answer_all
              (fst (fst (initializeQuiz Scenario.started "attempt-1" "quiz-1"
                           "student-1" initial Scenario.store))) in
  let be := {| tables :=
                 tables (snd (fst (initializeQuiz Scenario.started "attempt-1"
                                     "quiz-1" "student-1" initial
                                     Scenario.store)));
               down := fun r => match r with
                                | UpdateAttempt => true
                                | _ => false
                                end |} in
  let first := submit_try Scenario.finished Scenario.finished st be in
  let second :=
    submit_try Scenario.finished Scenario.finished st
      (restored (fst first)) in
  snd first = submit_failed
  /\ (exists final, snd second = [toast (submitted final); onCompleted])
  /\ List.length (student_answers (tables (fst second)))
     = (List.length (student_answers (tables be))
        + 2 * List.length (answers st))%nat.
Proof.
  eapply (retried_submission_stores_answers_twice
            Scenario.finished Scenario.finished
            Scenario.finished Scenario.finished).
  - vm_compute. reflexivity.
  - vm_compute. reflexivity.
  - vm_compute. discriminate.
  - vm_compute. reflexivity.
  - reflexivity.
Defined.

End Outcomes.

(* ================================================================== *)
(** * Loading a quiz *)

Module LoadFacts.

Import Store QuizTaking.
Local Open Scope string_scope.
Local Open Scope list_scope.






Lemma insert_attempt_outcome be fresh quiz student total started :
  (exists e, insert_attempt be fresh quiz student total started
             = (Error e, be))
  \/ insert_attempt be fresh quiz student total started
     = (Data (new_attempt fresh quiz student total started),
        add_attempt be (new_attempt fresh quiz student total started)).
Proof.
  unfold insert_attempt.
  destruct (down be InsertAttempt); [left; eexists; reflexivity|].
  destruct (existsb _ _); [left; eexists; reflexivity|].
  destruct (existsb _ _); [left; eexists; reflexivity|].
  destruct (negb _ || negb _); [left; eexists; reflexivity|].
  right. reflexivity.
Qed.

End LoadFacts.

Section Loading.

Import Store QuizTaking LoadFacts.
Local Open Scope string_scope.
Local Open Scope list_scope.


(** X8: Loading a quiz either fails as a whole or succeeds as a whole.  When
    it fails, the error is shown, [onBack] is called, nothing is written
    and no quiz, question or countdown is set.  When it succeeds, nothing
    is shown, exactly one attempt is appended, for this quiz and student,
    not completed, started now and counting the questions loaded; the
    component holds its identifier and the countdown starts from the
    duration in seconds. *)
Theorem loading_is_all_or_nothing now fresh quizId student st be :
  let '(st', be', effects) :=
    initializeQuiz now fresh quizId student st be in
  (effects = AttemptFacts.load_failure
   /\ be' = be
   /\ st' = setLoading false st)
  \/ (effects = []
      /\ exists q row,
           quiz st' = Some q
           /\ select_quiz be quizId = Data q
           /\ select_questions be quizId = Data (questions st')
           /\ timeLeft st' = (Quiz.duration_minutes q * 60)%Z
           /\ attemptId st' = Some (Attempt.id row)
           /\ loading st' = false
           /\ be' = add_attempt be row
           /\ Attempt.quiz_id row = quizId
           /\ Attempt.student_id row = student
           /\ Attempt.started_at row = now
           /\ Attempt.is_completed row = false
           /\ Attempt.total_questions row
              = Z.of_nat (List.length (questions st'))).
Proof.
  unfold initializeQuiz.
  destruct (select_quiz be quizId) as [q|e]; [|left; repeat split].
  destruct (select_questions be quizId) as [qs|e]; [|left; repeat split].
  destruct (insert_attempt_outcome be fresh quizId student
              (Z.of_nat (List.length qs)) now) as [[e E]|E]; rewrite E.
  - left. repeat split.
  - right. split; [reflexivity|].
    exists q, (new_attempt fresh quizId student
                 (Z.of_nat (List.length qs)) now).
    repeat split.
Qed.

End Loading.

(* ================================================================== *)
(** * The start page: status, button and handler *)

Section StartPage.

Import Store QuizAccess.
Local Open Scope string_scope.
Local Open Scope list_scope.
Local Open Scope Z_scope.

(** X20: The button is rendered from the clock of the last render and clicked
    later.  A click on "Start Quiz" starts the quiz unless its end has
    passed in between: of the four refusals of [handleStartQuiz], the
    expiry is the only one such a click can meet. *)
Theorem click_on_start_meets_expiry_only rendered now profile q st :
  quiz st = Some q ->
  canStart rendered q st = true ->
  rendered <= now ->
  handleStartQuiz now (Some profile) st = (start st, [])
  \/ exists finish,
       Quiz.end_time q = Some finish /\ rendered < finish < now
       /\ handleStartQuiz now (Some profile) st
          = (st, [toast (quiz_expired finish)]).
Proof.
  intros Hq Hc Hn. unfold canStart, isAvailable in Hc.
  apply andb_prop in Hc. destruct Hc as [Hc Ha].
  apply andb_prop in Hc. destruct Hc as [Hc He].
  apply andb_prop in Hc. destruct Hc as [Hact Hs].
  unfold handleStartQuiz. rewrite Hq, Hact. cbn [negb].
  assert (S : not_yet_open now q = None).
  { unfold not_yet_open. destruct (Quiz.start_time q) as [s|]; [|reflexivity].
    apply Z.leb_le in Hs. destruct (Z.ltb_spec now s); [lia | reflexivity]. }
  rewrite S. unfold already_closed.
  destruct (Quiz.end_time q) as [f|].
  - apply Z.ltb_lt in He. destruct (Z.ltb_spec f now).
    + right. exists f. repeat split; [exact He | assumption].
    + left. destruct (existingAttempt st); [discriminate | reflexivity].
  - left. destruct (existingAttempt st); [discriminate | reflexivity].
Qed.

Lemma click_on_start_example :
  let st := fetchQuizInfo "k7q2zd" (Some "student-1") initial
              Scenario.store in
  handleStartQuiz Scenario.finished (Some "student-1") st = (start st, [])
  \/ exists finish,
       Quiz.end_time Scenario.the_quiz = Some finish
       /\ Scenario.started < finish < Scenario.finished
       /\ handleStartQuiz Scenario.finished (Some "student-1") st
          = (st, [toast (quiz_expired finish)]).
Proof.
  apply (click_on_start_meets_expiry_only Scenario.started Scenario.finished
           "student-1" Scenario.the_quiz
           (fetchQuizInfo "k7q2zd" (Some "student-1") initial
              Scenario.store)).
  - vm_compute. reflexivity.
  - vm_compute. reflexivity.
  - vm_compute. discriminate.
Defined.

(** X21: The status line and the handler agree: the status is "available"
    exactly when [handleStartQuiz] would start the quiz.  The button need
    not: it is "Start Quiz" only under that status, and under that status
    it is "Quiz Not Available" at one instant, when the clock stands on
    the end time. *)
Theorem status_button_and_handler now profile q st :
  quiz st = Some q ->
  (getStatusInfo now q st = available
   <-> handleStartQuiz now (Some profile) st = (start st, []))
  /\ (canStart now q st = true -> getStatusInfo now q st = available)
  /\ (getStatusInfo now q st = available ->
      canStart now q st = false <-> Quiz.end_time q = Some now).
Proof.
  intros Hq. unfold getStatusInfo, handleStartQuiz, canStart, isAvailable,
    not_yet_open, already_closed. rewrite Hq.
  destruct (Quiz.is_active q); cbn [negb andb].
  2:{ repeat split; discriminate. }
  destruct (Quiz.start_time q) as [s|].
  - destruct (Z.ltb_spec now s) as [L|L]; destruct (Z.leb_spec s now) as [L'|L'];
      try lia; cbn [andb].
    + repeat split; discriminate.
    + destruct (Quiz.end_time q) as [f|].
      * destruct (Z.ltb_spec f now); destruct (Z.ltb_spec now f); try lia;
          destruct (existingAttempt st);
          repeat split; try discriminate; try reflexivity;
          intros; try congruence; try (f_equal; lia).
        all: match goal with H : Some _ = Some _ |- _ => inversion H; lia end.
      * destruct (existingAttempt st);
          repeat split; try discriminate; try reflexivity;
          intros; congruence.
  - destruct (Quiz.end_time q) as [f|].
    + destruct (Z.ltb_spec f now); destruct (Z.ltb_spec now f); try lia;
        destruct (existingAttempt st);
        repeat split; try discriminate; try reflexivity;
        intros; try congruence; try (f_equal; lia).
      all: match goal with H : Some _ = Some _ |- _ => inversion H; lia end.
    + destruct (existingAttempt st);
        repeat split; try discriminate; try reflexivity;
        intros; congruence.
Qed.

(** At the instant the quiz ends, for a quiz that ends five minutes after
    the student started. *)
Lemma status_button_and_handler_example :
  let q := {| Quiz.id := "quiz-1"; Quiz.quiz_code := "K7Q2ZD";
              Quiz.is_active := true; Quiz.start_time := None;
              Quiz.end_time := Some Scenario.finished;
              Quiz.duration_minutes := 30;
              Quiz.created_at := Scenario.created |} in
  let st := {| quiz := Some q; loading := false; error := None;
               isStarting := false; activeView := info;
               existingAttempt := None |} in
  (getStatusInfo Scenario.finished q st = available
   <-> handleStartQuiz Scenario.finished (Some "student-1") st
       = (start st, []))
  /\ (canStart Scenario.finished q st = true ->
      getStatusInfo Scenario.finished q st = available)
  /\ (getStatusInfo Scenario.finished q st = available ->
      canStart Scenario.finished q st = false
      <-> Quiz.end_time q = Some Scenario.finished).
Proof.
  exact (status_button_and_handler Scenario.finished "student-1" _
           {| quiz := Some {| Quiz.id := "quiz-1"; Quiz.quiz_code := "K7Q2ZD";
                              Quiz.is_active := true;
                              Quiz.start_time := None;
                              Quiz.end_time := Some Scenario.finished;
                              Quiz.duration_minutes := 30;
                              Quiz.created_at := Scenario.created |};
              loading := false; error := None;
              isStarting := false; activeView := info;
              existingAttempt := None |} eq_refl).
Defined.

Lemma step_keeps_starting profile st e :
  isStarting st = true ->
  isStarting (step profile st e) = true
  /\ (activeView st = info -> step profile st e = st).
Proof.
  intros H. unfold step.
  destruct e as [now|]; destruct (activeView st); destruct (quiz st) as [q|];
    try (split; [exact H | reflexivity]).
  - destruct (loading st); [split; [exact H | reflexivity]|].
    unfold action_button. rewrite H.
    destruct (error st); destruct (canStart now q st);
      split; first [exact H | reflexivity].
  - split; [exact H | discriminate].
Qed.

Lemma steps_keep_disabled profile events :
  forall st, isStarting st = true -> activeView st = info ->
             fold_left (step profile) events st = st.
Proof.
  induction events as [|e l IH]; intros st H V; cbn [fold_left];
    [reflexivity|].
  rewrite (proj2 (step_keeps_starting profile st e H) V). apply IH; assumption.
Qed.

(** X22: The page starts a quiz once.  [setIsStarting(true)] is never undone,
    so when the student comes back from the quiz, because loading it
    failed or by "Exit Quiz", the button is the disabled "Start Quiz" and
    no click starts the quiz again. *)
Theorem start_page_starts_once now profile st events :
  activeView st = info ->
  activeView (fst (handleStartQuiz now profile st)) = taking ->
  let st' :=
    fold_left (step profile) (quiz_back :: events)
      (fst (handleStartQuiz now profile st)) in
  st' = onBack (start st)
  /\ forall later q, quiz st' = Some q ->
                     action_button later q st' <> start_quiz false.
Proof.
  intros V T.
  assert (E : fst (handleStartQuiz now profile st) = start st
              /\ exists q, quiz st = Some q).
  { revert T. unfold handleStartQuiz.
    destruct (quiz st) as [q|]; [|cbn [fst]; congruence].
    destruct profile; [|cbn [fst]; congruence].
    destruct (negb (Quiz.is_active q)); [cbn [fst]; congruence|].
    destruct (not_yet_open now q); [cbn [fst]; congruence|].
    destruct (already_closed now q); [cbn [fst]; congruence|].
    destruct (existingAttempt st); [cbn [fst]; congruence|].
    intros _. split; [reflexivity | eexists; reflexivity]. }
  destruct E as [E (q & Hq)]. cbv zeta. rewrite E. cbn [fold_left].
  assert (B : step profile (start st) quiz_back = onBack (start st)).
  { unfold step. cbn [start activeView quiz]. rewrite Hq. reflexivity. }
  rewrite B. rewrite steps_keep_disabled by reflexivity.
  split; [reflexivity|].
  intros later q' _. unfold action_button.
  cbn [onBack start isStarting].
  destruct (canStart later q' _); discriminate.
Qed.

Lemma start_page_starts_once_example :
  let st := fetchQuizInfo "k7q2zd" (Some "student-1") initial
              Scenario.store in
  let st' :=
    fold_left (step (Some "student-1"))
      [quiz_back; click_start Scenario.finished;
       click_start (Scenario.finished + 1)]
      (fst (handleStartQuiz Scenario.started (Some "student-1") st)) in
  st' = onBack (start st)
  /\ forall later q, quiz st' = Some q ->
                     action_button later q st' <> start_quiz false.
Proof.
  apply (start_page_starts_once Scenario.started (Some "student-1")
           (fetchQuizInfo "k7q2zd" (Some "student-1") initial
              Scenario.store)).
  - vm_compute. reflexivity.
  - vm_compute. reflexivity.
Defined.

End StartPage.

(* ================================================================== *)
(** * Generated quiz codes *)

Module QuizCodeFacts.

Import Number NumberFacts QuizCode.
Local Open Scope string_scope.

(** The largest double below 1: [random()] returns a double of
    [[0, 1)]. *)
Definition below_one : Q := 1 - 2 ^ (-53).

Definition unit_double (r : Q) : Prop := (0 <= r <= below_one)%Q.

Definition is_code_char (c : ascii) : bool :=
  let n := N_of_ascii c in
  (JsString.between 65 90 n || JsString.between 48 57 n)%N.

Definition raw_position (r : Q) : Q :=
  rnd (rnd (r * 36) + 1).

Lemma position_raw r :
  position r = Some (Qfloor (raw_position r)).
Proof.
  unfold position, raw_position, ofZ, mul, add, Math_floor, to_integer.
  assert (A : rnd (inject_Z (Z.of_nat (String.length chars))) = 36%Q)
    by (vm_compute; reflexivity).
  assert (B : rnd (inject_Z 1) = 1%Q) by (vm_compute; reflexivity).
  rewrite A, B, Qfloor_Z. reflexivity.
Qed.

Lemma position_range r :
  unit_double r -> exists p, position r = Some p /\ (1 <= p <= 36)%Z.
Proof.
  intros [L U]. rewrite position_raw. eexists. split; [reflexivity|].
  assert (M : forall a b, (a <= b)%Q -> (raw_position a <= raw_position b)%Q).
  { intros a b H. unfold raw_position. apply rnd_mono.
    apply Qplus_le_compat; [|apply Qle_refl].
    apply rnd_mono. apply Qmult_le_compat_r; [exact H | discriminate]. }
  assert (E0 : Qfloor (raw_position 0) = 1%Z) by (vm_compute; reflexivity).
  assert (E1 : Qfloor (raw_position below_one) = 36%Z)
    by (vm_compute; reflexivity).
  pose proof (Qfloor_resp_le _ _ (M _ _ L)) as H0.
  pose proof (Qfloor_resp_le _ _ (M _ _ U)) as H1.
  rewrite E0 in H0. rewrite E1 in H1. split; assumption.
Qed.

Definition one_code_char (s : string) : bool :=
  match s with
  | String c EmptyString => is_code_char c
  | _ => false
  end.

Lemma substr1_chars p :
  (1 <= p <= 36)%Z -> one_code_char (substr1 chars p) = true.
Proof.
  intros H.
  assert (T : forallb (fun n => one_code_char (substr1 chars (Z.of_nat n)))
                      (seq 1 36) = true) by (vm_compute; reflexivity).
  rewrite forallb_forall in T. specialize (T (Z.to_nat p)).
  rewrite Z2Nat.id in T by lia. apply T. apply in_seq. lia.
Qed.

Definition code_string (s : string) : bool :=
  JsString.all_chars is_code_char s.

Lemma code_string_snoc s t :
  code_string s = true -> one_code_char t = true ->
  code_string (s ++ t) = true
  /\ String.length (s ++ t) = S (String.length s).
Proof.
  intros Hs Ht. destruct t as [|c [|d t']]; try discriminate.
  cbn [one_code_char] in Ht. unfold code_string in *.
  induction s as [|a s IH]; cbn [append JsString.all_chars String.length] in *.
  - rewrite Ht. split; reflexivity.
  - apply andb_prop in Hs. destruct Hs as [Ha Hs].
    destruct (IH Hs) as [I1 I2]. rewrite Ha, I1, I2. split; reflexivity.
Qed.

Lemma generate_loop_code random :
  (forall n, unit_double (random n)) ->
  forall i n result,
    code_string result = true ->
    code_string (generate_loop random n i result) = true
    /\ String.length (generate_loop random n i result)
       = (String.length result + i)%nat.
Proof.
  intros R. induction i as [|i IH]; intros n result H; cbn [generate_loop].
  - split; [exact H | lia].
  - destruct (position_range _ (R n)) as (p & Ep & Hp). rewrite Ep.
    destruct (code_string_snoc result _ H (substr1_chars p Hp)) as [C L].
    destruct (IH (S n) _ C) as [C' L']. split; [exact C'|].
    rewrite L', L. lia.
Qed.

Lemma generate_quiz_code_code random n :
  (forall i, unit_double (random i)) ->
  String.length (generate_quiz_code random n) = 6%nat
  /\ code_string (generate_quiz_code random n) = true.
Proof.
  intros R. unfold generate_quiz_code.
  destruct (generate_loop_code random R 6 n "" eq_refl) as [C L].
  split; [exact L | exact C].
Qed.

Lemma code_char_upper c :
  is_code_char c = true ->
  JsString.upper_char (JsString.lower_char c) = c
  /\ JsString.is_whitespace c = false.
Proof.
  destruct c as [[] [] [] [] [] [] [] []]; vm_compute; intros H;
    first [discriminate H | split; reflexivity].
Qed.

Lemma code_string_upper s :
  code_string s = true ->
  JsString.toUpperCase (JsString.toLowerCase s) = s
  /\ JsString.trim s = s.
Proof.
  intros H. split.
  - induction s as [|c s IH]; [reflexivity|].
    cbn [code_string JsString.all_chars] in H. apply andb_prop in H.
    destruct H as [Hc Hs]. cbn [JsString.toLowerCase JsString.toUpperCase].
    rewrite (proj1 (code_char_upper c Hc)), (IH Hs). reflexivity.
  - unfold JsString.trim.
    assert (T : JsString.trimStart s = s).
    { destruct s as [|c s]; [reflexivity|].
      cbn [code_string JsString.all_chars] in H. apply andb_prop in H.
      cbn [JsString.trimStart].
      rewrite (proj2 (code_char_upper c (proj1 H))). reflexivity. }
    rewrite T. clear T.
    induction s as [|c s IH]; [reflexivity|].
    cbn [code_string JsString.all_chars] in H. apply andb_prop in H.
    destruct H as [Hc Hs]. cbn [JsString.trimEnd]. rewrite (IH Hs).
    destruct s; [|reflexivity].
    rewrite (proj2 (code_char_upper c Hc)). reflexivity.
Qed.

End QuizCodeFacts.

Section QuizCodes.

Import Number NumberFacts QuizCode QuizCodeFacts.
Local Open Scope string_scope.
Local Open Scope list_scope.

(** X25: Whatever [random()] returns in [[0, 1)], a generated code has six
    characters, each a capital letter or a digit: the position computed
    in floating point never leaves the alphabet. *)
Theorem generated_code_has_six_code_characters random n :
  (forall i, unit_double (random i)) ->
  String.length (generate_quiz_code random n) = 6%nat
  /\ code_string (generate_quiz_code random n) = true.
Proof. apply generate_quiz_code_code. Qed.

Lemma generated_code_example :
  String.length (generate_quiz_code (fun _ => below_one) 0) = 6%nat
  /\ code_string (generate_quiz_code (fun _ => below_one) 0) = true.
Proof.
  apply (generated_code_has_six_code_characters (fun _ => below_one) 0).
  intros _. split; vm_compute; discriminate.
Defined.

Lemma fresh_code_spec random :
  (forall i, unit_double (random i)) ->
  forall turns codes n,
    match fresh_code turns codes random n with
    | Some code =>
        ~ In code codes /\ String.length code = 6%nat
        /\ code_string code = true
    | None =>
        forall k, (k < turns)%nat ->
                  In (generate_quiz_code random (n + 6 * k)) codes
    end.
Proof.
  intros R. induction turns as [|t IH]; intros codes n; cbn [fresh_code].
  - intros k Hk. lia.
  - destruct (existsb (String.eqb (generate_quiz_code random n)) codes)
      eqn:E.
    + specialize (IH codes (n + 6)%nat).
      destruct (fresh_code t codes random (n + 6)) as [code|];
        [exact IH|].
      intros k Hk. destruct k as [|k].
      * replace (n + 6 * 0)%nat with n by lia.
        apply existsb_exists in E. destruct E as (c & Hc & Ec).
        apply String.eqb_eq in Ec. subst c. exact Hc.
      * replace (n + 6 * S k)%nat with (n + 6 + 6 * k)%nat by lia.
        apply IH. lia.
    + destruct (generate_quiz_code_code random n R) as [L C].
      split; [|split; assumption].
      intros Hin.
      assert (X : existsb (String.eqb (generate_quiz_code random n)) codes
                  = true).
      { apply existsb_exists. eexists. split; [exact Hin|].
        apply String.eqb_refl. }
      congruence.
Qed.

(** X26: The trigger leaves a code that is given, the empty string included,
    as it is, without looking at the table.  For a row without code, the
    loop ends at the first generated code that no quiz has, and goes on
    exactly as long as every code drawn is taken. *)
Theorem trigger_draws_until_the_code_is_unused turns codes random :
  (forall i, unit_double (random i)) ->
  (forall code, set_quiz_code turns codes (Some code) random = Some code)
  /\ match set_quiz_code turns codes None random with
     | Some code =>
         ~ In code codes /\ String.length code = 6%nat
         /\ code_string code = true
     | None =>
         forall k, (k < turns)%nat ->
                   In (generate_quiz_code random (6 * k)) codes
     end.
Proof.
  intros R. split; [reflexivity|]. cbn [set_quiz_code].
  apply (fresh_code_spec random R turns codes 0).
Qed.

Lemma trigger_example :
  let random := fun n : nat => if (n <? 6)%nat then 0%Q else below_one in
  (forall code, set_quiz_code 2 ["AAAAAA"] (Some code) random = Some code)
  /\ match set_quiz_code 2 ["AAAAAA"] None random with
     | Some code =>
         ~ In code ["AAAAAA"] /\ String.length code = 6%nat
         /\ code_string code = true
     | None =>
         forall k, (k < 2)%nat ->
                   In (generate_quiz_code random (6 * k)) ["AAAAAA"]
     end.
Proof.
  apply (trigger_draws_until_the_code_is_unused 2 ["AAAAAA"]
           (fun n : nat => if (n <? 6)%nat then 0%Q else below_one)).
  intros i. destruct (i <? 6)%nat; split; vm_compute; discriminate.
Defined.

Lemma upper_lower_char c :
  JsString.upper_char (JsString.lower_char c) = JsString.upper_char c.
Proof. JsStringFacts.every_char c. Qed.

Lemma upper_lower s :
  JsString.toUpperCase (JsString.toLowerCase s) = JsString.toUpperCase s.
Proof.
  induction s as [|c s IH]; [reflexivity|].
  cbn [JsString.toLowerCase JsString.toUpperCase].
  rewrite upper_lower_char, IH. reflexivity.
Qed.

Lemma truthy_lower s :
  JsString.truthy (JsString.toLowerCase s) = JsString.truthy s.
Proof. destruct s; reflexivity. Qed.

(** X19: A code made of capital letters and digits, as the generated ones
    are, is matched without regard to case: typed with the same letters
    in any case, the dashboard holds the code itself, and that is what
    its guard looks up; the start page of the address with those letters
    is the page of the code. *)
Theorem codes_match_without_regard_to_case typed code :
  code_string code = true ->
  JsString.toLowerCase typed = JsString.toLowerCase code ->
  (forall st,
      StudentDashboard.quizCode (StudentDashboard.onChange typed st) = code
      /\ JsString.toUpperCase
           (StudentDashboard.quizCode (StudentDashboard.onChange typed st))
         = code)
  /\ (forall profile st be,
         QuizAccess.fetchQuizInfo typed profile st be
         = QuizAccess.fetchQuizInfo code profile st be).
Proof.
  intros C E.
  assert (U : JsString.toUpperCase typed = code).
  { rewrite <- upper_lower, E. apply (proj1 (code_string_upper code C)). }
  assert (U' : JsString.toUpperCase code = code).
  { rewrite <- upper_lower. apply (proj1 (code_string_upper code C)). }
  split.
  - intros st. cbn [StudentDashboard.onChange StudentDashboard.setQuizCode
                      StudentDashboard.quizCode].
    rewrite U. split; [reflexivity | exact U'].
  - intros profile st be. unfold QuizAccess.fetchQuizInfo.
    rewrite U, U'. rewrite <- (truthy_lower typed), E, truthy_lower.
    reflexivity.
Qed.

Lemma codes_match_example :
  (forall st,
      StudentDashboard.quizCode (StudentDashboard.onChange "k7q2zd" st)
      = "K7Q2ZD"
      /\ JsString.toUpperCase
           (StudentDashboard.quizCode
              (StudentDashboard.onChange "k7q2zd" st))
         = "K7Q2ZD")
  /\ (forall profile st be,
         QuizAccess.fetchQuizInfo "k7q2zd" profile st be
         = QuizAccess.fetchQuizInfo "K7Q2ZD" profile st be).
Proof.
  apply (codes_match_without_regard_to_case "k7q2zd" "K7Q2ZD");
    vm_compute; reflexivity.
Defined.

End QuizCodes.

(* ================================================================== *)
(** * Usernames *)

Module UsernameFacts.

Import Store UsernameSetup.
Local Open Scope string_scope.
Local Open Scope list_scope.

Definition name_of (p : Profile.row) : list string :=
  match Profile.username p with
  | Some u => [u]
  | None => []
  end.

(** The usernames in use, one per profile that has one. *)
Definition usernames (t : Tables) : list string :=
  flat_map name_of (profiles t).

Definition rename (id : uuid) (name : string) (p : Profile.row)
  : Profile.row :=
  if Profile.id p =? id
  then {| Profile.id := Profile.id p; Profile.username := Some name |}
  else p.

Lemma rename_absent id name l :
  ~ In id (map Profile.id l) -> map (rename id name) l = l.
Proof.
  induction l as [|p l IH]; intros H; cbn [map]; [reflexivity|].
  cbn [map In] in H. unfold rename at 1.
  destruct (String.eqb_spec (Profile.id p) id) as [E|N].
  - exfalso. apply H. left. exact E.
  - rewrite IH; [reflexivity|]. intros I. apply H. right. exact I.
Qed.

Lemma renamed_names id name l x :
  In x (flat_map name_of (map (rename id name) l)) ->
  x = name \/ In x (flat_map name_of l).
Proof.
  induction l as [|p l IH]; cbn [map flat_map]; [intros []|].
  intros H. apply in_app_or in H. destruct H as [H|H].
  - unfold rename in H. destruct (Profile.id p =? id).
    + cbn in H. destruct H as [H|[]]. left. symmetry. exact H.
    + right. apply in_or_app. left. exact H.
  - destruct (IH H) as [E|I]; [left; exact E|].
    right. apply in_or_app. right. exact I.
Qed.

Lemma rename_unique id name l :
  NoDup (map Profile.id l) ->
  NoDup (flat_map name_of l) ->
  (forall p, In p l -> Profile.id p <> id ->
             Profile.username p <> Some name) ->
  NoDup (flat_map name_of (map (rename id name) l)).
Proof.
  induction l as [|p l IH]; intros Hid Hn Hfree; cbn [map flat_map];
    [constructor|].
  cbn [map] in Hid. apply NoDup_cons_iff in Hid. destruct Hid as [Hp Hid].
  cbn [flat_map] in Hn.
  assert (Hn' : NoDup (flat_map name_of l)).
  { unfold name_of at 1 in Hn. destruct (Profile.username p);
      [apply NoDup_cons_iff in Hn; apply Hn | exact Hn]. }
  assert (Hfree' : forall p', In p' l -> Profile.id p' <> id ->
                              Profile.username p' <> Some name).
  { intros p' I. apply Hfree. right. exact I. }
  unfold rename at 1.
  destruct (String.eqb_spec (Profile.id p) id) as [E|N].
  - rewrite rename_absent by (rewrite <- E; exact Hp).
    cbn [name_of Profile.username app]. constructor; [|exact Hn'].
    intros I. apply in_flat_map in I. destruct I as (p' & I & U).
    unfold name_of in U. destruct (Profile.username p') as [u|] eqn:Eu;
      [|destruct U].
    destruct U as [U|[]]. subst u.
    apply (Hfree' p' I); [|exact Eu].
    intros E'. apply Hp. rewrite E, <- E'. apply in_map, I.
  - specialize (IH Hid Hn' Hfree').
    unfold name_of at 1. destruct (Profile.username p) as [u|] eqn:Eu;
      [|exact IH].
    cbn [app]. constructor; [|exact IH].
    intros I. apply renamed_names in I. destruct I as [E|I].
    + subst u. apply (Hfree p (or_introl eq_refl) N). exact Eu.
    + unfold name_of at 1 in Hn. rewrite Eu in Hn.
      apply NoDup_cons_iff in Hn. apply (proj1 Hn). exact I.
Qed.

Lemma no_other_holder id name l :
  existsb (fun p => negb (Profile.id p =? id)
                    && match Profile.username p with
                       | Some u => u =? name
                       | None => false
                       end) l = false ->
  forall p, In p l -> Profile.id p <> id -> Profile.username p <> Some name.
Proof.
  intros E p I N U.
  assert (X : existsb (fun p => negb (Profile.id p =? id)
                                && match Profile.username p with
                                   | Some u => u =? name
                                   | None => false
                                   end) l = true).
  { apply existsb_exists. exists p. split; [exact I|].
    rewrite U, String.eqb_refl.
    destruct (String.eqb_spec (Profile.id p) id); [contradiction|].
    reflexivity. }
  congruence.
Qed.

Lemma absent_id id l :
  existsb (fun p => Profile.id p =? id) l = false ->
  ~ In id (map Profile.id l).
Proof.
  intros E I. apply in_map_iff in I. destruct I as (p & Ep & I).
  assert (X : existsb (fun p => Profile.id p =? id) l = true).
  { apply existsb_exists. exists p. split; [exact I|].
    rewrite Ep. apply String.eqb_refl. }
  congruence.
Qed.

Lemma update_username_unique be id name res be' :
  update_username be id name = (res, be') ->
  NoDup (map Profile.id (profiles (tables be))) ->
  NoDup (usernames (tables be)) ->
  NoDup (usernames (tables be')).
Proof.
  unfold update_username. intros H Hid Hn.
  destruct (down be UpdateUsername); [inversion H; subst; exact Hn|].
  match type of H with
  | (if ?a && ?b then _ else _) = _ =>
      destruct a eqn:A; destruct b eqn:B; cbn [andb] in H
  end; inversion H; subst; try exact Hn;
    unfold usernames; cbn [tables with_tables profiles];
    change (fun p : Profile.row =>
              if Profile.id p =? id
              then {| Profile.id := Profile.id p;
                      Profile.username := Some name |}
              else p) with (rename id name).
  - rewrite rename_absent; [exact Hn | apply absent_id, B].
  - apply rename_unique; [exact Hid | exact Hn | apply no_other_holder, A].
  - apply rename_unique; [exact Hid | exact Hn | apply no_other_holder, A].
Qed.

End UsernameFacts.

Section Usernames.

Import Store UsernameSetup UsernameFacts.
Local Open Scope string_scope.
Local Open Scope list_scope.

(** X24: Setting a username keeps the usernames distinct.  When the success
    toast is shown, the profile carries the username exactly as it was
    typed; when "Username Taken" is shown, nothing has been written and
    another profile holds that name; a rejected input sends no request. *)
Theorem usernames_stay_distinct username profile be :
  NoDup (map Profile.id (profiles (tables be))) ->
  NoDup (usernames (tables be)) ->
  let '(be', effects) := handleSubmit username profile be in
  NoDup (usernames (tables be'))
  /\ (effects = [toast (username_set username); onComplete] ->
      forall p, In p (profiles (tables be')) -> Profile.id p = profile ->
                Profile.username p = Some username)
  /\ (effects = [toast username_taken] ->
      be' = be
      /\ exists other, In other (profiles (tables be))
                       /\ Profile.id other <> profile
                       /\ Profile.username other = Some username)
  /\ (validate username <> None -> be' = be).
Proof.
  intros Hid Hn. unfold handleSubmit.
  destruct (validate username) as [t|] eqn:V.
  { split; [exact Hn|]. split; [intros H; inversion H|].
    split; [|reflexivity]. intros H. exfalso. inversion H. subst t.
    revert V. unfold validate.
    destruct (negb _); [discriminate|].
    destruct (_ <? 3)%nat; [discriminate|].
    destruct (20 <? _)%nat; [discriminate|].
    destruct (negb _); discriminate. }
  assert (T : JsString.trim username = username).
  { apply JsStringFacts.regex_trim_id. revert V. unfold validate.
    destruct (negb _); [discriminate|].
    destruct (_ <? 3)%nat; [discriminate|].
    destruct (20 <? _)%nat; [discriminate|].
    destruct (JsString.test_username_regex username);
      [reflexivity | discriminate]. }
  rewrite T.
  destruct (update_username be profile username) as [[u|code] be'] eqn:U.
  - split; [exact (update_username_unique _ _ _ _ _ U Hid Hn)|].
    split; [|split; [intros H; inversion H | congruence]].
    intros _ p I E. revert U. unfold update_username.
    destruct (down be UpdateUsername); [discriminate|].
    destruct (_ && _); [discriminate|].
    intros U. inversion U. subst be'. clear U.
    cbn [tables with_tables profiles] in I. apply in_map_iff in I.
    destruct I as (x & Ex & _). subst p.
    destruct (String.eqb_spec (Profile.id x) profile) as [E'|N];
      [reflexivity | contradiction].
  - pose proof (update_username_unique _ _ _ _ _ U Hid Hn) as N.
    destruct (code =? unique_violation) eqn:C.
    + split; [exact N|]. split; [intros H; inversion H|].
      split; [|congruence]. intros _. revert U C. unfold update_username.
      destruct (down be UpdateUsername).
      { intros U C. inversion U. subst. discriminate C. }
      destruct (existsb (fun p => negb (Profile.id p =? profile)
                                  && match Profile.username p with
                                     | Some u => u =? username
                                     | None => false
                                     end) (profiles (tables be))) eqn:A;
        cbn [andb]; [|discriminate].
      destruct (existsb (fun p => Profile.id p =? profile)
                        (profiles (tables be))); [|discriminate].
      intros U _. injection U as _ Hbe. subst be'. split; [reflexivity|].
      apply existsb_exists in A. destruct A as (p & I & P).
      apply andb_prop in P. destruct P as [P1 P2].
      exists p. split; [exact I|]. split.
      * intros E. rewrite E, String.eqb_refl in P1. discriminate.
      * destruct (Profile.username p) as [u|]; [|discriminate].
        apply String.eqb_eq in P2. congruence.
    + split; [exact N|]. split; [intros H; inversion H|].
      split; [intros H; inversion H | congruence].
Qed.

Lemma usernames_stay_distinct_example :
  let '(be', effects) := handleSubmit "ada_l-1815" "student-1" Scenario.store in
  NoDup (usernames (tables be'))
  /\ (effects = [toast (username_set "ada_l-1815"); onComplete] ->
      forall p, In p (profiles (tables be')) -> Profile.id p = "student-1" ->
                Profile.username p = Some "ada_l-1815")
  /\ (effects = [toast username_taken] ->
      be' = Scenario.store
      /\ exists other, In other (profiles (tables Scenario.store))
                       /\ Profile.id other <> "student-1"
                       /\ Profile.username other = Some "ada_l-1815")
  /\ (validate "ada_l-1815" <> None -> be' = Scenario.store).
Proof.
  apply (usernames_stay_distinct "ada_l-1815" "student-1" Scenario.store).
  - vm_compute. repeat constructor; simpl; intuition discriminate.
  - vm_compute. repeat constructor; simpl; intuition discriminate.
Defined.

End Usernames.

(* ================================================================== *)
(** * The countdown under ticks *)

Module TickFacts.

Import Store QuizTaking Countdown CountdownFacts.
Local Open Scope Z_scope.

Definition is_tick (e : Event) : bool :=
  match e with tick => true | _ => false end.

Definition is_settle (e : Event) : bool :=
  match e with settle _ _ => true | _ => false end.

(** The number of ticks among the events. *)
Definition ticks (events : list Event) : nat :=
  List.length (filter is_tick events).

(** One second less while the countdown is positive. *)
Definition one_second (t : Z) : Z := if 0 <? t then t - 1 else t.

Lemma call_submit_clock by_timer s :
  timeLeft (state (call_submit by_timer s)) = timeLeft (state s)
  /\ quiz (state (call_submit by_timer s)) = quiz (state s)
  /\ mounted (call_submit by_timer s) = mounted s.
Proof.
  unfold call_submit. destruct (submitting (state s)); repeat split.
Qed.

Lemma run_timer_effect_clock s :
  timeLeft (state (run_timer_effect s)) = timeLeft (state s)
  /\ quiz (state (run_timer_effect s)) = quiz (state s)
  /\ mounted (run_timer_effect s) = mounted s.
Proof.
  unfold run_timer_effect. destruct (timer_effect (state s));
    [repeat split | apply call_submit_clock | repeat split].
Qed.

Lemma step_clock s e :
  mounted s = true -> is_settle e = false ->
  timeLeft (state (step s e))
  = (if is_tick e then one_second (timeLeft (state s))
     else timeLeft (state s))
  /\ quiz (state (step s e)) = quiz (state s)
  /\ mounted (step s e) = true.
Proof.
  intros M N. unfold step. rewrite M. cbn [negb].
  destruct e as [| |q a|now later]; cbn [is_tick]; [| | |discriminate].
  - unfold one_second, timer_effect.
    destruct (Z.ltb_spec 0 (timeLeft (state s))) as [P|P].
    + match goal with
      | |- context [run_timer_effect ?x] =>
          destruct (run_timer_effect_clock x) as (T & Q & M')
      end.
      rewrite T, Q, M'. repeat split.
    + destruct ((timeLeft (state s) =? 0) && _);
        repeat split; exact M.
  - destruct (call_submit_clock false s) as (T & Q & M').
    rewrite T, Q, M'. repeat split. exact M.
  - repeat split.
Qed.

Lemma seconds_closed t n :
  Nat.iter n one_second t
  = if t <? 0 then t else Z.max 0 (t - Z.of_nat n).
Proof.
  induction n as [|n IH].
  - change (Nat.iter 0 one_second t) with t. destruct (Z.ltb_spec t 0); lia.
  - rewrite Nat.iter_succ, IH. unfold one_second.
    destruct (Z.ltb_spec t 0);
      destruct (Z.ltb_spec 0 t);
      destruct (Z.ltb_spec 0 (Z.max 0 (t - Z.of_nat n))); lia.
Qed.

Lemma run_clock events :
  forall s,
    mounted s = true -> forallb (fun e => negb (is_settle e)) events = true ->
    timeLeft (state (run s events))
    = Nat.iter (ticks events) one_second (timeLeft (state s))
    /\ quiz (state (run s events)) = quiz (state s)
    /\ mounted (run s events) = true.
Proof.
  unfold run.
  induction events as [|e l IH]; intros s M N; cbn [fold_left].
  - repeat split. exact M.
  - cbn [forallb] in N. apply andb_prop in N. destruct N as [Ne Nl].
    apply negb_true_iff in Ne.
    destruct (step_clock s e M Ne) as (T & Q & M').
    destruct (IH (step s e) M' Nl) as (T' & Q' & M'').
    rewrite T', Q', T, Q. split; [|split; [reflexivity | exact M'']].
    unfold ticks. cbn [filter].
    assert (C : forall n t, Nat.iter n one_second (one_second t)
                            = one_second (Nat.iter n one_second t)).
    { intros n t. induction n as [|n IHn]; [reflexivity|].
      rewrite !Nat.iter_succ, IHn. reflexivity. }
    destruct (is_tick e); cbn [List.length];
      [rewrite Nat.iter_succ, <- C; reflexivity | reflexivity].
Qed.

End TickFacts.

Section Ticks.

Import Store QuizTaking Countdown CountdownFacts TickFacts.
Local Open Scope string_scope.
Local Open Scope Z_scope.

(** X6: While no submission has ended, the countdown depends on the ticks
    alone: after [n] ticks it stands at the starting value less [n], and
    stays at zero from there; answers and clicks on Submit neither pause
    nor reset it.  The timer has submitted exactly when a quiz is loaded,
    the starting value was not negative and that many ticks have passed.
    A countdown that starts below zero, from a negative duration, never
    moves and never submits. *)
Theorem countdown_follows_the_ticks st be events :
  forallb (fun e => negb (is_settle e)) events = true ->
  let s := run (mount st be) events in
  timeLeft (state s)
  = (if timeLeft st <? 0 then timeLeft st
     else Z.max 0 (timeLeft st - Z.of_nat (ticks events)))
  /\ (automatic s = 1%nat
      <-> quiz st <> None
          /\ 0 <= timeLeft st <= Z.of_nat (ticks events))
  /\ (automatic s = 1 \/ automatic s = 0)%nat.
Proof.
  intros N s.
  assert (M0 : timeLeft (state (mount st be)) = timeLeft st
               /\ quiz (state (mount st be)) = quiz st
               /\ mounted (mount st be) = true).
  { unfold mount.
    match goal with
    | |- context [run_timer_effect ?x] =>
        destruct (run_timer_effect_clock x) as (T & Q & M)
    end.
    rewrite T, Q, M. repeat split. }
  destruct M0 as (T0 & Q0 & M0).
  destruct (run_clock events (mount st be) M0 N) as (T & Q & M).
  fold s in T, Q, M. rewrite T0, seconds_closed in T. rewrite Q0 in Q.
  destruct (run_inv events _ (mount_inv st be)) as [A _ _]. fold s in A.
  split; [exact T|].
  unfold expired, Spec.is_some in A. rewrite Q, T in A.
  destruct (quiz st) as [q|].
  - destruct (Z.ltb_spec (timeLeft st) 0) as [L|L].
    + destruct (Z.eqb_spec (timeLeft st) 0); [lia|].
      cbn [andb] in A. rewrite A. split; [|right; reflexivity].
      split; [discriminate | lia].
    + destruct (Z.eqb_spec (Z.max 0 (timeLeft st - Z.of_nat (ticks events)))
                  0) as [E|E]; cbn [andb] in A; rewrite A.
      * split; [|left; reflexivity].
        split; [intros _; split; [discriminate | lia] | reflexivity].
      * split; [|right; reflexivity].
        split; [discriminate | intros [_ H]; lia].
  - rewrite andb_false_r in A. rewrite A. split; [|right; reflexivity].
    split; [discriminate | intros [H _]; contradiction].
Qed.

Lemma countdown_follows_the_ticks_example :
  let st := setTimeLeft 2 (fst Scenario.flaky_start) in
  let s := run (mount st (snd Scenario.flaky_start))
               [tick; answer "question-0" "Paris"; click; tick; tick] in
  timeLeft (state s)
  = (if timeLeft st <? 0 then timeLeft st
     else Z.max 0 (timeLeft st
                   - Z.of_nat (ticks [tick; answer "question-0" "Paris";
                                      click; tick; tick])))
  /\ (automatic s = 1%nat
      <-> quiz st <> None
          /\ 0 <= timeLeft st
             <= Z.of_nat (ticks [tick; answer "question-0" "Paris";
                                 click; tick; tick]))
  /\ (automatic s = 1 \/ automatic s = 0)%nat.
Proof.
  apply (countdown_follows_the_ticks
           (setTimeLeft 2 (fst Scenario.flaky_start))
           (snd Scenario.flaky_start)).
  reflexivity.
Defined.

End Ticks.

(* ================================================================== *)
(** * Leaving a quiz that has started *)

Section Rejoining.

Import Store StoreFacts LoadFacts.
Local Open Scope string_scope.
Local Open Scope list_scope.

Lemma single_of_one {A} (p : A -> bool) l r :
  (List.length (filter p (l ++ [r])) <= 1)%nat -> p r = true ->
  single (filter p (l ++ [r])) = Data r.
Proof.
  rewrite filter_app. cbn [filter]. intros L P. rewrite P in *.
  rewrite length_app in L. cbn [List.length] in L.
  destruct (filter p l); [reflexivity | cbn [List.length] in L; lia].
Qed.

(** X9: Once [initializeQuiz] has succeeded, the attempt exists, submitted or
    not.  From then on the join guard of the dashboard, when its lookup
    of the attempt is served, never opens that quiz for that student
    again: a student who leaves a quiz cannot come back to it. *)
Theorem started_attempt_blocks_rejoining
    now fresh quizId student taking be now' dash :
  Spec.one_attempt_per_pair (tables be) ->
  down be (SelectAttempt quizId student) = false ->
  StudentDashboard.activeView dash = StudentDashboard.dashboard ->
  snd (QuizTaking.initializeQuiz now fresh quizId student taking be) = [] ->
  let be' :=
    snd (fst (QuizTaking.initializeQuiz now fresh quizId student taking be)) in
  (exists row, select_attempt be' quizId student = Data row
               /\ Attempt.id row = fresh
               /\ Attempt.is_completed row = false)
  /\ ~ (StudentDashboard.activeView
          (fst (StudentDashboard.handleJoinQuiz now' student dash be'))
        = StudentDashboard.quiz
        /\ StudentDashboard.selectedQuizId
             (fst (StudentDashboard.handleJoinQuiz now' student dash be'))
           = Some quizId).
Proof.
  intros Inv Up V Ok.
  pose proof (AttemptFacts.initializeQuiz_unique now fresh quizId student
                taking be Inv) as Inv'.
  revert Ok Inv'. unfold QuizTaking.initializeQuiz.
  destruct (select_quiz be quizId) as [q|e]; [|discriminate].
  destruct (select_questions be quizId) as [qs|e]; [|discriminate].
  destruct (insert_attempt_outcome be fresh quizId student
              (Z.of_nat (List.length qs)) now) as [[e E]|E]; rewrite E;
    [discriminate|].
  cbn [fst snd]. intros _ Inv'.
  set (row := new_attempt fresh quizId student
                (Z.of_nat (List.length qs)) now) in *.
  assert (S : select_attempt (add_attempt be row) quizId student
              = Data row).
  { unfold select_attempt.
    change (down (add_attempt be row)) with (down be). rewrite Up.
    cbn [add_attempt with_tables tables quiz_attempts].
    apply single_of_one.
    - exact (Inv' quizId student).
    - unfold same_pair, row, new_attempt.
      cbn [Attempt.quiz_id Attempt.student_id].
      rewrite !String.eqb_refl. reflexivity. }
  split; [exists row; repeat split; exact S|].
  unfold StudentDashboard.handleJoinQuiz.
  destruct (negb _); cbn [fst]; [rewrite V; intros [H _]; discriminate|].
  destruct (select_active_quiz_by_code _ _) as [q'|e];
    [|cbn [fst StudentDashboard.setLoading StudentDashboard.activeView];
      rewrite V; intros [H _]; discriminate].
  destruct (not_yet_open now' q');
    [cbn [fst StudentDashboard.setLoading StudentDashboard.activeView];
     rewrite V; intros [H _]; discriminate|].
  destruct (already_closed now' q');
    [cbn [fst StudentDashboard.setLoading StudentDashboard.activeView];
     rewrite V; intros [H _]; discriminate|].
  destruct (select_attempt (add_attempt be row) (Quiz.id q') student)
    as [a|e] eqn:S';
    [cbn [fst StudentDashboard.setLoading StudentDashboard.activeView];
     rewrite V; intros [H _]; discriminate|].
  cbn [fst StudentDashboard.setLoading StudentDashboard.openQuiz
         StudentDashboard.selectedQuizId].
  intros [_ H]. inversion H as [H']. rewrite H' in S'. congruence.
Qed.

Lemma started_attempt_example :
  let be' :=
    snd (fst (QuizTaking.initializeQuiz Scenario.started "attempt-1"
                "quiz-1" "student-1" QuizTaking.initial Scenario.store)) in
  (exists row, select_attempt be' "quiz-1" "student-1" = Data row
               /\ Attempt.id row = "attempt-1"
               /\ Attempt.is_completed row = false)
  /\ ~ (StudentDashboard.activeView
          (fst (StudentDashboard.handleJoinQuiz Scenario.finished
                  "student-1" (Scenario.typing "K7Q2ZD") be'))
        = StudentDashboard.quiz
        /\ StudentDashboard.selectedQuizId
             (fst (StudentDashboard.handleJoinQuiz Scenario.finished
                     "student-1" (Scenario.typing "K7Q2ZD") be'))
           = Some "quiz-1").
Proof.
  apply (started_attempt_blocks_rejoining Scenario.started "attempt-1"
           "quiz-1" "student-1" QuizTaking.initial Scenario.store
           Scenario.finished (Scenario.typing "K7Q2ZD")).
  - intros quiz student. vm_compute. lia.
  - reflexivity.
  - reflexivity.
  - vm_compute. reflexivity.
Defined.

End Rejoining.

(* ================================================================== *)
(** * Scaling by powers of two, and the clock *)

Module ScaleFacts.

Import Number NumberFacts.
Local Open Scope Q_scope.

Lemma ilog2_unique x e :
  0 < x -> 2 ^ e <= x -> x < 2 ^ (e + 1) -> ilog2 x = e.
Proof.
  intros Hx L U. destruct (ilog2_spec x Hx) as [L' U'].
  assert (A : 2 ^ ilog2 x < 2 ^ (e + 1)) by lra.
  assert (B : 2 ^ e < 2 ^ (ilog2 x + 1)) by lra.
  apply (Qpower_lt_compat_l_inv 2 (ilog2 x) (e + 1)) in A; [|reflexivity].
  apply (Qpower_lt_compat_l_inv 2 e (ilog2 x + 1)) in B; [|reflexivity].
  lia.
Qed.

Lemma ilog2_scale x k : 0 < x -> ilog2 (x * 2 ^ k) = (ilog2 x + k)%Z.
Proof.
  intros Hx. destruct (ilog2_spec x Hx) as [L U].
  pose proof (pow2_pos k) as Hk.
  apply ilog2_unique.
  - apply Qmult_lt_0_compat; assumption.
  - rewrite Qpower_plus by discriminate.
    apply Qmult_le_compat_r; [exact L | lra].
  - replace (ilog2 x + k + 1)%Z with ((ilog2 x + 1) + k)%Z by lia.
    rewrite Qpower_plus by discriminate.
    apply Qmult_lt_compat_r; assumption.
Qed.

Lemma rnd_pos_scale x k : 0 < x -> rnd_pos (x * 2 ^ k) == rnd_pos x * 2 ^ k.
Proof.
  intros Hx. unfold rnd_pos, ulp. rewrite ilog2_scale by exact Hx.
  replace (ilog2 x + k - 52)%Z with ((ilog2 x - 52) + k)%Z by lia.
  pose proof (pow2_pos (ilog2 x - 52)) as Ha. pose proof (pow2_pos k) as Hb.
  assert (P : 2 ^ (ilog2 x - 52 + k) == 2 ^ (ilog2 x - 52) * 2 ^ k)
    by (apply Qpower_plus; discriminate).
  set (a := 2 ^ (ilog2 x - 52)) in *. set (b := 2 ^ k) in *.
  set (ab := 2 ^ (ilog2 x - 52 + k)) in *.
  assert (E : x * b / ab == x / a).
  { rewrite P. field. split; intro H0; rewrite H0 in *; discriminate. }
  rewrite (rne_compat _ _ E), P. ring.
Qed.

(** Multiplying by a power of two commutes with rounding. *)
Lemma rnd_scale x k : 0 < x -> rnd (x * 2 ^ k) == rnd x * 2 ^ k.
Proof.
  intros Hx. pose proof (pow2_pos k) as Hk.
  assert (Hxk : 0 < x * 2 ^ k) by (apply Qmult_lt_0_compat; assumption).
  destruct (rnd_cases x) as [[X _]|[[_ R]|[X _]]]; [lra| |lra].
  destruct (rnd_cases (x * 2 ^ k)) as [[X _]|[[_ R']|[X _]]]; [lra| |lra].
  rewrite R, R'. apply rnd_pos_scale, Hx.
Qed.

(** An integer below [2 ^ 53] over a power of two is a double. *)
Lemma rnd_dyadic n k :
  (0 < n < 2 ^ 53)%Z -> rnd (inject_Z n * 2 ^ k) == inject_Z n * 2 ^ k.
Proof.
  intros Hn. rewrite rnd_scale by (apply inject_Z_pos; lia).
  rewrite rnd_int by lia. reflexivity.
Qed.

(** [Math.floor(s / 60)] is the integer quotient. *)
Lemma floor_div_60 s :
  (0 <= s < 2 ^ 52)%Z ->
  Qfloor (rnd (rnd (inject_Z s) / rnd (inject_Z 60))) = (s / 60)%Z.
Proof.
  intros Hs. set (m := (s / 60)%Z).
  assert (Hm : (0 <= m)%Z) by (unfold m; apply Z.div_pos; lia).
  assert (Hlo : (60 * m <= s)%Z) by (unfold m; apply Z.mul_div_le; lia).
  assert (Hhi : (s <= 60 * m + 59)%Z).
  { unfold m. pose proof (Z.mod_pos_bound s 60 ltac:(lia)).
    pose proof (Z.div_mod s 60 ltac:(lia)). lia. }
  assert (C : rnd (inject_Z 60) = 60) by (vm_compute; reflexivity).
  rewrite C.
  assert (X : rnd (inject_Z s) / 60 == inject_Z s / 60).
  { rewrite rnd_int by lia. reflexivity. }
  rewrite (Qfloor_comp _ _ (rnd_compat _ _ X)).
  assert (Qlo : inject_Z m <= inject_Z s / 60).
  { apply Qle_shift_div_l; [reflexivity|].
    change 60 with (inject_Z 60). rewrite <- inject_Z_mult, <- Zle_Qle. lia. }
  assert (Qhi : inject_Z s / 60 <= inject_Z (64 * m + 63) * 2 ^ (-6)).
  { apply Qle_shift_div_r; [reflexivity|].
    change (2 ^ (-6)) with (1 # 64).
    setoid_replace (inject_Z (64 * m + 63) * (1 # 64) * 60)
      with (inject_Z (60 * (64 * m + 63)) / 64).
    2:{ rewrite inject_Z_mult. change (inject_Z 60) with 60. field. }
    apply Qle_shift_div_l; [reflexivity|].
    change 64 with (inject_Z 64). rewrite <- inject_Z_mult, <- Zle_Qle. lia. }
  apply rnd_mono in Qlo. apply rnd_mono in Qhi.
  rewrite rnd_int in Qlo by lia.
  rewrite rnd_dyadic in Qhi by lia.
  assert (Top : inject_Z (64 * m + 63) * 2 ^ (-6) < inject_Z (m + 1)).
  { change (2 ^ (-6)) with (1 # 64).
    rewrite !inject_Z_plus, inject_Z_mult.
    change (inject_Z 64) with 64. change (inject_Z 63) with 63.
    change (inject_Z 1) with 1. lra. }
  set (v := rnd (inject_Z s / 60)) in *.
  pose proof (Qfloor_le v) as F1. pose proof (Qlt_floor v) as F2.
  assert (A : inject_Z m < inject_Z (Qfloor v + 1)) by lra.
  assert (B : inject_Z (Qfloor v) < inject_Z (m + 1)) by lra.
  rewrite <- Zlt_Qlt in A, B. lia.
Qed.

End ScaleFacts.

Section Clock.

Import Number QuizTaking ScaleFacts.
Local Open Scope string_scope.
Local Open Scope Z_scope.

(** A decimal digit. *)
Definition digit (d : Z) : ascii := ascii_of_N (48 + Z.to_N d).

Definition two_digits (r : Z) : string :=
  String (digit (r / 10)) (String (digit (r mod 10)) EmptyString).

Lemma seconds_on_two_digits r :
  0 <= r < 60 -> padStart 2 "0" (toString r) = two_digits r.
Proof.
  intros H.
  assert (T : forallb (fun n => padStart 2 "0" (toString (Z.of_nat n))
                                =? two_digits (Z.of_nat n))%string
                      (seq 0 60) = true) by (vm_compute; reflexivity).
  rewrite forallb_forall in T. specialize (T (Z.to_nat r)).
  rewrite Z2Nat.id in T by lia. apply String.eqb_eq, T. apply in_seq. lia.
Qed.

(** X5: The clock shows the whole minutes left and, on exactly two digits,
    the seconds beyond them: minutes times sixty plus seconds is the time
    left, the division in floating point being exact on every countdown
    a quiz can have. *)
Theorem clock_shows_minutes_and_two_digit_seconds seconds :
  0 <= seconds < 2 ^ 52 ->
  formatTime seconds
  = [Num (Finite (inject_Z (seconds / 60))); Str ":";
     Str (two_digits (seconds mod 60))]
  /\ 0 <= seconds mod 60 < 60
  /\ 60 * (seconds / 60) + seconds mod 60 = seconds.
Proof.
  intros H. unfold formatTime, ofZ, div.
  assert (C : Qeq_bool (rnd (inject_Z 60)) 0 = false)
    by (vm_compute; reflexivity).
  rewrite C. cbn [Math_floor]. rewrite floor_div_60 by exact H.
  rewrite Z.rem_mod_nonneg by lia.
  pose proof (Z.mod_pos_bound seconds 60 ltac:(lia)) as B.
  rewrite seconds_on_two_digits by exact B.
  split; [reflexivity|]. split; [exact B|].
  pose proof (Z.div_mod seconds 60 ltac:(lia)). lia.
Qed.

Lemma clock_example :
  formatTime 1805
  = [Num (Finite (inject_Z (1805 / 60))); Str ":";
     Str (two_digits (1805 mod 60))]
  /\ 0 <= 1805 mod 60 < 60
  /\ 60 * (1805 / 60) + 1805 mod 60 = 1805.
Proof.
  apply (clock_shows_minutes_and_two_digit_seconds 1805). lia.
Defined.

End Clock.

(* ================================================================== *)
(** * What the scoring loop leaves in the store *)

Module MarkFacts.

Import Store QuizTaking StoreFacts OutcomeFacts.
Local Open Scope string_scope.
Local Open Scope list_scope.

(** Whether the loop counts an entry: its question is fetched and the
    answer matches. *)
Definition judge (be : Backend) (e : uuid * string) : bool :=
  match select_correct_answer be (fst e) with
  | Data c => isCorrect (snd e) c
  | Error _ => false
  end.

(** Whether the row of an entry ends up marked correct: the entry counts
    and the update of its row is served. *)
Definition mark (be : Backend) (e : uuid * string) : bool :=
  negb (down be (UpdateAnswer (fst e))) && judge be e.

Definition row (attempt : uuid) (correct : uuid * string -> bool)
    (e : uuid * string) : StudentAnswer.row :=
  {| StudentAnswer.attempt_id := attempt;
     StudentAnswer.question_id := fst e;
     StudentAnswer.student_answer := snd e;
     StudentAnswer.is_correct := correct e |}.

Definition unmarked (e : uuid * string) : bool := false.

Lemma judge_frame be be' e :
  same_but_answers be be' -> judge be' e = judge be e.
Proof.
  intros F. unfold judge. rewrite (select_correct_answer_frame _ _ _ F).
  reflexivity.
Qed.

Lemma mark_frame be be' e : same_but_answers be be' -> mark be' e = mark be e.
Proof.
  intros F. unfold mark. rewrite (judge_frame _ _ _ F).
  destruct F as (D & _). rewrite D. reflexivity.
Qed.

(** The score is the number of entries that count. *)
Lemma fold_score_counts attempt entries :
  forall score be,
    fst (fold_left (score_entry attempt) entries (score, be))
    = (score + Z.of_nat (List.length (filter (judge be) entries)))%Z.
Proof.
  induction entries as [|e l IH]; intros score be; cbn [fold_left filter].
  - cbn [fst List.length]. lia.
  - pose proof (score_entry_frame attempt score be e) as F.
    assert (S : fst (score_entry attempt (score, be) e)
                = (score + if judge be e then 1 else 0)%Z).
    { unfold score_entry, judge. destruct e as [k v]. cbn [fst snd].
      destruct (select_correct_answer be k) as [c|err]; cbn [fst];
        [destruct (isCorrect v c); lia | lia]. }
    destruct (score_entry attempt (score, be) e) as [s' be'].
    cbn [fst snd] in *. rewrite IH, S.
    assert (E : filter (judge be') l = filter (judge be) l).
    { apply filter_ext. intros x. apply judge_frame, F. }
    rewrite E. destruct (judge be e); cbn [List.length]; lia.
Qed.

Lemma map_fixed {A} (f : A -> A) l :
  (forall x, In x l -> f x = x) -> map f l = l.
Proof.
  induction l as [|a l IH]; intros H; cbn [map]; [reflexivity|].
  rewrite (H a (or_introl eq_refl)), IH; [reflexivity|].
  intros x I. apply H. right. exact I.
Qed.

(** One served update, on the rows of a fresh attempt whose keys are
    distinct: the row of the entry takes the verdict, the others stay. *)
Lemma update_one_row be attempt rows0 done e todo correct :
  down be (UpdateAnswer (fst e)) = false ->
  (forall r, In r rows0 -> StudentAnswer.attempt_id r <> attempt) ->
  NoDup (map fst (done ++ e :: todo)) ->
  forall marked,
    student_answers (tables be)
    = rows0 ++ map (row attempt marked) done
            ++ row attempt unmarked e :: map (row attempt unmarked) todo ->
    student_answers (tables (update_answer be (Some attempt) (fst e) correct))
    = rows0 ++ map (row attempt marked) done
            ++ row attempt (fun _ => correct) e
               :: map (row attempt unmarked) todo.
Proof.
  intros Up Old Keys marked Rows. unfold update_answer. rewrite Up.
  cbn [tables with_tables student_answers]. rewrite Rows.
  rewrite !map_app. cbn [map].
  assert (K : forall x, In x (done ++ todo) -> fst x <> fst e).
  { intros x I E. rewrite map_app in Keys. cbn [map] in Keys.
    apply NoDup_remove_2 in Keys. rewrite <- map_app in Keys.
    apply Keys. rewrite <- E. apply in_map, I. }
  f_equal; [|f_equal; [|f_equal]].
  - apply map_fixed. intros r I. cbn [id_is].
    destruct (String.eqb_spec (StudentAnswer.attempt_id r) attempt) as [E|_];
      [exfalso; exact (Old r I E) | reflexivity].
  - apply map_fixed. intros r I. apply in_map_iff in I.
    destruct I as (x & Ex & I). subst r. cbn [row StudentAnswer.question_id].
    destruct (String.eqb_spec (fst x) (fst e)) as [E|_].
    + exfalso. apply (K x); [apply in_or_app; left; exact I | exact E].
    + rewrite andb_false_r. reflexivity.
  - cbn [row id_is StudentAnswer.attempt_id StudentAnswer.question_id
           StudentAnswer.student_answer].
    rewrite !String.eqb_refl. reflexivity.
  - apply map_fixed. intros r I. apply in_map_iff in I.
    destruct I as (x & Ex & I). subst r. cbn [row StudentAnswer.question_id].
    destruct (String.eqb_spec (fst x) (fst e)) as [E|_].
    + exfalso. apply (K x); [apply in_or_app; right; exact I | exact E].
    + rewrite andb_false_r. reflexivity.
Qed.

Lemma map_row_ext attempt (f g : uuid * string -> bool) l :
  (forall x, In x l -> f x = g x) ->
  map (row attempt f) l = map (row attempt g) l.
Proof.
  intros H. apply map_ext_in. intros x I. unfold row. rewrite (H x I).
  reflexivity.
Qed.

(** After the loop every row of the attempt carries its mark. *)
Lemma fold_score_marks attempt rows0 be0 :
  (forall r, In r rows0 -> StudentAnswer.attempt_id r <> attempt) ->
  forall todo done score be,
    same_but_answers be0 be ->
    NoDup (map fst (done ++ todo)) ->
    student_answers (tables be)
    = rows0 ++ map (row attempt (mark be0)) done
            ++ map (row attempt unmarked) todo ->
    student_answers
      (tables (snd (fold_left (score_entry (Some attempt)) todo (score, be))))
    = rows0 ++ map (row attempt (mark be0)) (done ++ todo).
Proof.
  intros Old. induction todo as [|e todo IH]; intros done score be F Keys Rows;
    cbn [fold_left].
  - cbn [snd]. rewrite Rows, app_nil_r. cbn [map]. rewrite app_nil_r.
    reflexivity.
  - replace (done ++ e :: todo) with ((done ++ [e]) ++ todo)
      by (rewrite <- app_assoc; reflexivity).
    pose proof (score_entry_frame (Some attempt) score be e) as G.
    assert (Keys' : NoDup (map fst ((done ++ [e]) ++ todo)))
      by (rewrite <- app_assoc; exact Keys).
    assert (Next :
      student_answers
        (tables (snd (score_entry (Some attempt) (score, be) e)))
      = rows0 ++ map (row attempt (mark be0)) (done ++ [e])
              ++ map (row attempt unmarked) todo).
    { rewrite map_app. cbn [map]. rewrite <- app_assoc. cbn [app].
      cbn [map] in Rows.
      assert (Same : mark be0 e = false ->
                     rows0 ++ map (row attempt (mark be0)) done
                           ++ row attempt unmarked e
                              :: map (row attempt unmarked) todo
                     = rows0 ++ map (row attempt (mark be0)) done
                             ++ row attempt (mark be0) e
                                :: map (row attempt unmarked) todo).
      { intros M. do 3 f_equal. unfold row. f_equal.
        unfold unmarked. symmetry. exact M. }
      unfold score_entry. destruct e as [k v].
      destruct (select_correct_answer be k) as [c|err] eqn:S; cbn [snd].
      - destruct (down be (UpdateAnswer k)) eqn:Up.
        + unfold update_answer. rewrite Up. rewrite Rows. apply Same.
          unfold mark. destruct F as (D & _). cbn [fst]. rewrite <- D, Up.
          reflexivity.
        + pose proof (update_one_row be attempt rows0 done (k, v) todo
                        (isCorrect v c) Up Old Keys (mark be0) Rows) as U.
          cbn [fst] in U. rewrite U.
          f_equal. f_equal. f_equal. unfold row. f_equal.
          rewrite <- (mark_frame be0 be (k, v) F). unfold mark, judge.
          cbn [fst snd]. rewrite Up, S. reflexivity.
      - rewrite Rows. apply Same.
        rewrite <- (mark_frame be0 be (k, v) F). unfold mark, judge.
        cbn [fst]. rewrite S. apply andb_false_r. }
    destruct (score_entry (Some attempt) (score, be) e) as [s' be'].
    cbn [snd] in *.
    apply (IH (done ++ [e]) s' be');
      [eapply same_but_answers_trans; eassumption | exact Keys' | exact Next].
Qed.

(** A successful submission, step by step. *)
Lemma submit_try_success now later st be q final :
  quiz st = Some q ->
  snd (submit_try now later st be) = [toast (submitted final); onCompleted] ->
  exists be1,
    (if (0 <? List.length (answers st))%nat
     then insert_answers be (attemptId st) (answers st)
     else (Data tt, be)) = (Data tt, be1)
    /\ final = finalScore (fst (scoring_loop (attemptId st) (answers st) be1))
                 (List.length (questions st))
    /\ fst (submit_try now later st be)
       = snd (update_attempt
                (snd (scoring_loop (attemptId st) (answers st) be1))
                (attemptId st) later (Number.to_integer final)
                (Number.to_integer
                   (timeTakenMinutes (getTime (Quiz.created_at q))
                      (getTime now))))
    /\ down be UpdateAttempt = false.
Proof.
  intros Hq. unfold submit_try. rewrite Hq.
  set (inserted := if (0 <? List.length (answers st))%nat
                   then insert_answers be (attemptId st) (answers st)
                   else (Data tt, be)).
  assert (F : same_but_answers be (snd inserted)).
  { unfold inserted. destruct (0 <? List.length (answers st))%nat.
    - destruct (insert_answers be (attemptId st) (answers st))
        as [res b] eqn:E.
      exact (insert_answers_frame _ _ _ _ _ E).
    - apply same_but_answers_refl. }
  destruct inserted as [[[]|e] be1]; cbn [snd] in F; [|discriminate].
  pose proof (scoring_loop_frame (attemptId st) (answers st) be1) as G.
  destruct (scoring_loop (attemptId st) (answers st) be1) as [score be2]
    eqn:L.
  cbn [fst snd] in *.
  destruct F as (D1 & _). destruct G as (D2 & _).
  unfold update_attempt. rewrite D2, D1.
  destruct (down be UpdateAttempt) eqn:U; [discriminate|].
  cbn [fst snd]. intros H. injection H as H. subst final.
  exists be1. rewrite L. cbn [fst snd]. rewrite D2, D1, U.
  split; [reflexivity|]. split; [reflexivity|].
  split; reflexivity.
Qed.

Lemma filter_by_id l r :
  NoDup (map Attempt.id l) -> In r l ->
  filter (fun a => Attempt.id a =? Attempt.id r) l = [r].
Proof.
  induction l as [|a l IH]; intros N I; [destruct I|].
  cbn [map] in N. apply NoDup_cons_iff in N. destruct N as [Na N].
  cbn [filter]. destruct I as [E|I].
  - subst a. rewrite String.eqb_refl. f_equal.
    apply StoreFacts.existsb_false_filter.
    destruct (existsb _ l) eqn:X; [|reflexivity].
    apply existsb_exists in X. destruct X as (x & Ix & Ex).
    apply String.eqb_eq in Ex. exfalso. apply Na. rewrite <- Ex.
    apply in_map, Ix.
  - destruct (String.eqb_spec (Attempt.id a) (Attempt.id r)) as [E|_].
    + exfalso. apply Na. rewrite E. apply in_map, I.
    + apply IH; assumption.
Qed.

Lemma completed_ids attempt completed score minutes l :
  map Attempt.id
    (map (fun a => if id_is attempt (Attempt.id a)
                   then complete a completed score minutes else a) l)
  = map Attempt.id l.
Proof.
  rewrite map_map. apply map_ext. intros a.
  destruct (id_is attempt (Attempt.id a)); reflexivity.
Qed.

End MarkFacts.

Section Results.

Import Store QuizTaking StoreFacts OutcomeFacts MarkFacts.
Local Open Scope string_scope.
Local Open Scope list_scope.

Lemma filter_attempt_rows attempt rows0 marked entries :
  (forall r, In r rows0 -> StudentAnswer.attempt_id r <> attempt) ->
  filter (fun r => StudentAnswer.attempt_id r =? attempt)
         (rows0 ++ map (row attempt marked) entries)
  = map (row attempt marked) entries.
Proof.
  intros Old. rewrite filter_app.
  assert (A : filter (fun r => StudentAnswer.attempt_id r =? attempt) rows0
              = []).
  { induction rows0 as [|r l IH]; [reflexivity|]. cbn [filter].
    destruct (String.eqb_spec (StudentAnswer.attempt_id r) attempt) as [E|_].
    - exfalso. exact (Old r (or_introl eq_refl) E).
    - apply IH. intros x I. apply Old. right. exact I. }
  rewrite A. cbn [app].
  induction entries as [|e l IH]; [reflexivity|]. cbn [map filter].
  cbn [row StudentAnswer.attempt_id]. rewrite String.eqb_refl.
  f_equal. exact IH.
Qed.

Lemma count_marked t attempt marked entries :
  List.length
    (filter QuizResults.is_correct
       (map (QuizResults.format t) (map (row attempt marked) entries)))
  = List.length (filter marked entries).
Proof.
  induction entries as [|e l IH]; [reflexivity|]. cbn [map filter].
  cbn [QuizResults.format QuizResults.is_correct row
         StudentAnswer.is_correct].
  destruct (marked e); cbn [List.length]; rewrite IH; reflexivity.
Qed.

Lemma find_single {A} (p : A -> bool) l x :
  filter p l = [x] -> find p l = Some x.
Proof.
  induction l as [|a l IH]; cbn [filter find]; [discriminate|].
  destruct (p a); [intros H; inversion H; reflexivity | exact IH].
Qed.

(** What the results page receives after a successful submission of a
    fresh attempt. *)
Lemma results_after_success now later st be q attempt opened final lost page :
  quiz st = Some q ->
  attemptId st = Some attempt ->
  NoDup (map fst (answers st)) ->
  NoDup (map Attempt.id (quiz_attempts (tables be))) ->
  In opened (quiz_attempts (tables be)) ->
  Attempt.id opened = attempt ->
  (forall r, In r (student_answers (tables be)) ->
             StudentAnswer.attempt_id r <> attempt) ->
  snd (submit_try now later st be) = [toast (submitted final); onCompleted] ->
  lost (ReadAttempt attempt) = false ->
  lost (ReadAnswers attempt) = false ->
  let t' := tables (fst (submit_try now later st be)) in
  Store.questions t' = Store.questions (tables be)
  /\ final = finalScore
               (Z.of_nat (List.length (filter (judge be) (answers st))))
               (List.length (questions st))
  /\ QuizResults.fetchResults lost attempt page t'
     = ({| QuizResults.results :=
             Some {| QuizResults.score :=
                       QuizResults.or_zero (Number.to_integer final);
                     QuizResults.time_taken_minutes :=
                       QuizResults.or_zero
                         (Number.to_integer
                            (timeTakenMinutes (getTime (Quiz.created_at q))
                               (getTime now)));
                     QuizResults.completed_at := Some later;
                     QuizResults.answers :=
                       map (QuizResults.format t')
                           (map (row attempt (mark be)) (answers st)) |};
           QuizResults.loading := false |}, []).
Proof.
  intros Hq Hid Keys Pk Hin Hop Old Ok La Lr t'.
  destruct (submit_try_success now later st be q final Hq Ok)
    as (be1 & Ins & Hfinal & Hbe & Up).
  rewrite Hid in *.
  assert (F1 : same_but_answers be be1
               /\ student_answers (tables be1)
                  = student_answers (tables be)
                    ++ map (row attempt unmarked) (answers st)).
  { destruct (0 <? List.length (answers st))%nat eqn:Len.
    - split; [exact (insert_answers_frame _ _ _ _ _ Ins)|].
      destruct (insert_answers_served _ _ _ _ Ins)
        as (_ & rows & Hrows & _ & _ & Hans).
      cbn [answer_rows] in Hrows. injection Hrows as Hrows.
      rewrite Hans, <- Hrows. reflexivity.
    - injection Ins as Ins. subst be1.
      split; [apply same_but_answers_refl|].
      destruct (answers st); [|discriminate Len].
      cbn [map]. rewrite app_nil_r. reflexivity. }
  destruct F1 as [F1 Rows1].
  pose proof (scoring_loop_frame (Some attempt) (answers st) be1) as F2.
  pose proof (fold_score_marks attempt (student_answers (tables be)) be1 Old
                (answers st) [] 0%Z be1 (same_but_answers_refl be1)
                Keys Rows1) as Rows2.
  fold (scoring_loop (Some attempt) (answers st) be1) in Rows2.
  cbn [app] in Rows2.
  rewrite (map_row_ext attempt (mark be1) (mark be)) in Rows2
    by (intros x _; apply mark_frame, F1).
  pose proof (fold_score_counts (Some attempt) (answers st) 0%Z be1) as Cnt.
  fold (scoring_loop (Some attempt) (answers st) be1) in Cnt.
  rewrite (filter_ext (judge be1) (judge be)) in Cnt
    by (intros x; apply judge_frame, F1).
  rewrite Z.add_0_l in Cnt. rewrite Cnt in Hfinal.
  set (be2 := snd (scoring_loop (Some attempt) (answers st) be1)) in *.
  assert (T : t' = tables (snd (update_attempt be2 (Some attempt) later
                                  (Number.to_integer final)
                                  (Number.to_integer
                                     (timeTakenMinutes
                                        (getTime (Quiz.created_at q))
                                        (getTime now)))))).
  { unfold t'. rewrite Hbe. reflexivity. }
  destruct F1 as (D1 & _ & Q1 & A1 & _). destruct F2 as (D2 & _ & Q2 & A2 & _).
  fold be2 in D2, Q2, A2.
  assert (U : down be2 UpdateAttempt = false) by (rewrite D2, D1; exact Up).
  unfold update_attempt in T. rewrite U in T. cbn [snd with_tables tables] in T.
  set (done := fun a => if id_is (Some attempt) (Attempt.id a)
                        then complete a later (Number.to_integer final)
                               (Number.to_integer
                                  (timeTakenMinutes
                                     (getTime (Quiz.created_at q))
                                     (getTime now)))
                        else a) in *.
  assert (TQ : Store.questions t' = Store.questions (tables be)).
  { rewrite T. cbn [Store.questions]. congruence. }
  assert (TA : quiz_attempts t' = map done (quiz_attempts (tables be))).
  { rewrite T. cbn [quiz_attempts]. congruence. }
  assert (TS : student_answers t'
               = student_answers (tables be)
                 ++ map (row attempt (mark be)) (answers st)).
  { rewrite T. cbn [student_answers]. exact Rows2. }
  clearbody t'.
  split; [exact TQ|]. split; [exact Hfinal|].
  unfold QuizResults.fetchResults, select_attempt_by_id, select_answers_of.
  rewrite La, Lr, TA, TS.
  rewrite (filter_attempt_rows attempt _ _ _ Old).
  assert (E : filter (fun a => Attempt.id a =? attempt)
                     (map done (quiz_attempts (tables be)))
              = [done opened]).
  { assert (I : Attempt.id (done opened) = attempt).
    { unfold done. destruct (id_is _ _); exact Hop. }
    replace (fun a => Attempt.id a =? attempt)
      with (fun a => Attempt.id a =? Attempt.id (done opened))
      by (rewrite I; reflexivity).
    apply filter_by_id.
    - unfold done. rewrite completed_ids. exact Pk.
    - apply in_map, Hin. }
  rewrite E. cbn [single].
  assert (D : done opened
              = complete opened later (Number.to_integer final)
                  (Number.to_integer
                     (timeTakenMinutes (getTime (Quiz.created_at q))
                        (getTime now)))).
  { unfold done. cbn [id_is]. rewrite Hop, String.eqb_refl. reflexivity. }
  rewrite D. reflexivity.
Qed.

(** X14: After a successful submission of a fresh attempt, an answer that the
    results page shows as correct does match the correct answer shown
    beside it, whatever requests of the scoring loop were lost. *)
Theorem answers_shown_correct_do_match
    now later st be q attempt opened final lost page :
  quiz st = Some q ->
  attemptId st = Some attempt ->
  NoDup (map fst (answers st)) ->
  NoDup (map Attempt.id (quiz_attempts (tables be))) ->
  In opened (quiz_attempts (tables be)) ->
  Attempt.id opened = attempt ->
  (forall r, In r (student_answers (tables be)) ->
             StudentAnswer.attempt_id r <> attempt) ->
  snd (submit_try now later st be) = [toast (submitted final); onCompleted] ->
  lost (ReadAttempt attempt) = false ->
  lost (ReadAnswers attempt) = false ->
  exists results,
    fst (QuizResults.fetchResults lost attempt page
           (tables (fst (submit_try now later st be))))
    = {| QuizResults.results := Some results;
         QuizResults.loading := false |}
    /\ List.length (QuizResults.answers results)
       = List.length (answers st)
    /\ forall x, In x (QuizResults.answers results) ->
                 QuizResults.is_correct x = true ->
                 isCorrect (QuizResults.student_answer x)
                           (QuizResults.correct_answer x) = true.
Proof.
  intros Hq Hid Keys Pk Hin Hop Old Ok La Lr.
  destruct (results_after_success now later st be q attempt opened final
              lost page Hq Hid Keys Pk Hin Hop Old Ok La Lr)
    as (Q & _ & R).
  rewrite R. cbn [fst]. eexists. split; [reflexivity|].
  cbn [QuizResults.answers]. split; [rewrite !length_map; reflexivity|].
  intros x I C. apply in_map_iff in I. destruct I as (r & Ex & I).
  apply in_map_iff in I. destruct I as (e & Er & I). subst x r.
  cbn [QuizResults.format QuizResults.is_correct QuizResults.student_answer
         QuizResults.correct_answer row StudentAnswer.is_correct
         StudentAnswer.student_answer] in *.
  unfold mark in C. apply andb_prop in C. destruct C as [_ J].
  unfold judge, select_correct_answer in J.
  destruct (down be (SelectCorrectAnswer (fst e))); [discriminate|].
  unfold question_of. cbn [row StudentAnswer.question_id]. rewrite Q.
  destruct (filter (fun q0 => Question.id q0 =? fst e)
                   (Store.questions (tables be))) as [|q0 [|q1 l]] eqn:F;
    cbn [single] in J; try discriminate.
  rewrite (find_single _ _ _ F). exact J.
Qed.

(** X15: After a successful submission of a fresh attempt whose updates were
    all served, the number of correct answers on the results page is the
    number the score was computed from: the percentage shown and stored
    is the rounded share of the correct answers among the questions of
    the quiz. *)
Theorem results_page_counts_what_was_scored
    now later st be q attempt opened final lost page :
  quiz st = Some q ->
  attemptId st = Some attempt ->
  NoDup (map fst (answers st)) ->
  NoDup (map Attempt.id (quiz_attempts (tables be))) ->
  In opened (quiz_attempts (tables be)) ->
  Attempt.id opened = attempt ->
  (forall r, In r (student_answers (tables be)) ->
             StudentAnswer.attempt_id r <> attempt) ->
  (forall k, down be (UpdateAnswer k) = false) ->
  snd (submit_try now later st be) = [toast (submitted final); onCompleted] ->
  lost (ReadAttempt attempt) = false ->
  lost (ReadAnswers attempt) = false ->
  exists results,
    QuizResults.fetchResults lost attempt page
      (tables (fst (submit_try now later st be)))
    = ({| QuizResults.results := Some results;
          QuizResults.loading := false |}, [])
    /\ final = finalScore (Z.of_nat (QuizResults.correctAnswers results))
                 (List.length (questions st))
    /\ QuizResults.score results
       = QuizResults.or_zero (Number.to_integer final)
    /\ (QuizResults.correctAnswers results
        + QuizResults.incorrectAnswers results
        = List.length (answers st))%nat.
Proof.
  intros Hq Hid Keys Pk Hin Hop Old Served Ok La Lr.
  destruct (results_after_success now later st be q attempt opened final
              lost page Hq Hid Keys Pk Hin Hop Old Ok La Lr)
    as (_ & Hfinal & R).
  rewrite R. eexists. split; [reflexivity|].
  unfold QuizResults.incorrectAnswers. unfold QuizResults.correctAnswers.
  cbn [QuizResults.answers QuizResults.score].
  rewrite count_marked, !length_map.
  assert (E : filter (mark be) (answers st) = filter (judge be) (answers st)).
  { apply filter_ext. intros e. unfold mark. rewrite Served. reflexivity. }
  rewrite E. split; [exact Hfinal|]. split; [reflexivity|].
  pose proof (filter_length_le (judge be) (answers st)). lia.
Qed.

(** The student of the scenario answers the first three questions, two of
    them as expected up to case and spaces, and submits. *)
Definition after_start : Backend :=
  snd (fst (initializeQuiz Scenario.started "attempt-1" "quiz-1" "student-1"
              initial Scenario.store)).

Definition three_answers : State :=
  fold_left operate
    [typed " paris "; press_next; typed "Rome"; press_next; typed "PARIS"]
    (fst (fst (initializeQuiz Scenario.started "attempt-1" "quiz-1"
                 "student-1" initial Scenario.store))).

Lemma answers_shown_correct_example :
  exists results,
    fst (QuizResults.fetchResults (fun _ => false) "attempt-1"
           QuizResults.initial
           (tables (fst (submit_try Scenario.finished Scenario.finished
                           three_answers after_start))))
    = {| QuizResults.results := Some results;
         QuizResults.loading := false |}
    /\ List.length (QuizResults.answers results)
       = List.length (answers three_answers)
    /\ forall x, In x (QuizResults.answers results) ->
                 QuizResults.is_correct x = true ->
                 isCorrect (QuizResults.student_answer x)
                           (QuizResults.correct_answer x) = true.
Proof.
  apply (answers_shown_correct_do_match
           Scenario.finished Scenario.finished three_answers after_start
           Scenario.the_quiz "attempt-1"
           (new_attempt "attempt-1" "quiz-1" "student-1" 40 Scenario.started)
           (Number.Finite 5) (fun _ => false) QuizResults.initial).
  - vm_compute. reflexivity.
  - vm_compute. reflexivity.
  - vm_compute. repeat constructor; simpl; intuition discriminate.
  - vm_compute. repeat constructor; simpl; intuition discriminate.
  - vm_compute. left. reflexivity.
  - reflexivity.
  - assert (E : student_answers (tables after_start) = [])
      by (vm_compute; reflexivity).
    rewrite E. intros r [].
  - vm_compute. reflexivity.
  - reflexivity.
  - reflexivity.
Defined.

Lemma results_page_example :
  exists results,
    QuizResults.fetchResults (fun _ => false) "attempt-1" QuizResults.initial
      (tables (fst (submit_try Scenario.finished Scenario.finished
                      three_answers after_start)))
    = ({| QuizResults.results := Some results;
          QuizResults.loading := false |}, [])
    /\ Number.Finite 5
       = finalScore (Z.of_nat (QuizResults.correctAnswers results))
           (List.length (questions three_answers))
    /\ QuizResults.score results
       = QuizResults.or_zero (Number.to_integer (Number.Finite 5))
    /\ (QuizResults.correctAnswers results
        + QuizResults.incorrectAnswers results
        = List.length (answers three_answers))%nat.
Proof.
  apply (results_page_counts_what_was_scored
           Scenario.finished Scenario.finished three_answers after_start
           Scenario.the_quiz "attempt-1"
           (new_attempt "attempt-1" "quiz-1" "student-1" 40 Scenario.started)
           (Number.Finite 5) (fun _ => false) QuizResults.initial).
  - vm_compute. reflexivity.
  - vm_compute. reflexivity.
  - vm_compute. repeat constructor; simpl; intuition discriminate.
  - vm_compute. repeat constructor; simpl; intuition discriminate.
  - vm_compute. left. reflexivity.
  - reflexivity.
  - assert (E : student_answers (tables after_start) = [])
      by (vm_compute; reflexivity).
    rewrite E. intros r [].
  - intros k. reflexivity.
  - vm_compute. reflexivity.
  - reflexivity.
  - reflexivity.
Defined.

End Results.

(* ================================================================== *)
(** * Back on the dashboard *)

Module DashboardFacts.

Import Number NumberFacts Store StudentDashboard EmbargoFacts.
Local Open Scope string_scope.
Local Open Scope list_scope.






End DashboardFacts.

Section BackOnTheDashboard.

Import Store QuizTaking StoreFacts OutcomeFacts MarkFacts DashboardFacts.
Local Open Scope string_scope.
Local Open Scope list_scope.



End BackOnTheDashboard.

(* ================================================================== *)
(** * The average on the dashboard *)

Module AverageFacts.

Import Number NumberFacts Store StudentDashboard.
Local Open Scope Q_scope.

(** A stored score that is a percentage, or no score at all. *)
Definition percentage (a : Attempt.row) : Prop :=
  match Attempt.score a with
  | Some z => (0 <= z <= 100)%Z
  | None => True
  end.

Definition plus_score (sum : Number) (a : Attempt.row) : Number :=
  add sum (score_number a).

Lemma sum_of_percentages l :
  forall q k,
    (0 <= k)%Z -> (100 * (k + Z.of_nat (List.length l)) < 2 ^ 53)%Z ->
    0 <= q -> q <= inject_Z (100 * k) ->
    (forall a, In a l -> percentage a) ->
    exists q',
      fold_left plus_score l (Finite q) = Finite q'
      /\ 0 <= q' /\ q' <= inject_Z (100 * (k + Z.of_nat (List.length l))).
Proof.
  induction l as [|a l IH]; intros q k Hk Hn H0 H1 Hp; cbn [fold_left].
  - exists q. cbn [List.length]. rewrite Z.add_0_r.
    split; [reflexivity|]. split; assumption.
  - cbn [List.length] in Hn.
    set (s := match Attempt.score a with Some z => z | None => 0%Z end).
    assert (Hs : (0 <= s <= 100)%Z).
    { pose proof (Hp a (or_introl eq_refl)) as P. unfold percentage in P.
      unfold s. destruct (Attempt.score a); lia. }
    assert (Es : rnd (inject_Z s) == inject_Z s) by (apply rnd_int; lia).
    assert (Qs : 0 <= inject_Z s /\ inject_Z s <= 100).
    { change 0 with (inject_Z 0). change 100 with (inject_Z 100).
      rewrite <- !Zle_Qle. exact Hs. }
    assert (Step : plus_score (Finite q) a
                   = Finite (rnd (q + rnd (inject_Z s)))) by reflexivity.
    rewrite Step.
    destruct (IH (rnd (q + rnd (inject_Z s))) (k + 1)%Z) as (q' & E & L & U).
    + lia.
    + lia.
    + change 0 with (rnd 0). apply rnd_mono. rewrite Es. lra.
    + rewrite <- (rnd_int (100 * (k + 1))) by lia. apply rnd_mono.
      rewrite Es. replace (100 * (k + 1))%Z with (100 * k + 100)%Z by lia.
      rewrite inject_Z_plus. change (inject_Z 100) with 100. lra.
    + intros x I. apply Hp. right. exact I.
    + exists q'. split; [exact E|]. split; [exact L|].
      cbn [List.length].
      replace (k + Z.of_nat (S (List.length l)))%Z
        with (k + 1 + Z.of_nat (List.length l))%Z by lia.
      exact U.
Qed.

End AverageFacts.

Section Average.

Import Number NumberFacts Store StudentDashboard AverageFacts.
Local Open Scope Q_scope.

(** X17: The average score of the dashboard is an integer from 0 to 100
    whenever the completed attempts carry percentages, and 0 when no
    attempt is completed; attempts in progress do not count. *)
Theorem average_score_is_a_percentage st :
  (forall a, In a (attempts st) -> Attempt.is_completed a = true ->
             percentage a) ->
  (Z.of_nat (List.length (attempts st)) < 2 ^ 40)%Z ->
  exists z,
    averageScore st = Finite (inject_Z z)
    /\ (0 <= z <= 100)%Z
    /\ (completedAttempts st = [] -> z = 0%Z).
Proof.
  intros Hp Hn. unfold averageScore.
  assert (Hl : (List.length (completedAttempts st)
                <= List.length (attempts st))%nat)
    by apply filter_length_le.
  assert (Hpl : forall a, In a (completedAttempts st) -> percentage a).
  { intros a I. apply filter_In in I. apply Hp; apply I. }
  destruct (completedAttempts st) as [|a l'].
  - exists 0%Z. repeat split; lia.
  - set (l := a :: l') in *.
    assert (B : (0 <? List.length l)%nat = true) by reflexivity.
    assert (Pos : (0 < List.length l)%nat) by (apply Nat.ltb_lt, B).
    rewrite B.
    destruct (sum_of_percentages l 0 0%Z) as (q & E & L & U);
      [lia | lia | apply Qle_refl | apply Qle_refl | exact Hpl |].
    change (ofZ 0) with (Finite 0).
    change (fold_left (fun sum a0 => add sum (score_number a0)) l (Finite 0))
      with (fold_left plus_score l (Finite 0)).
    rewrite E. unfold ofZ, div.
    set (n := Z.of_nat (List.length l)) in *.
    assert (En : rnd (inject_Z n) == inject_Z n) by (apply rnd_int; lia).
    assert (Pn : 0 < inject_Z n) by (apply inject_Z_pos; lia).
    assert (Z0 : Qeq_bool (rnd (inject_Z n)) 0 = false).
    { destruct (Qeq_bool _ 0) eqn:X; [|reflexivity].
      apply Qeq_bool_eq in X. rewrite En in X. lra. }
    rewrite Z0. cbn [Math_round]. eexists. split; [reflexivity|].
    rewrite Z.add_0_l, inject_Z_mult in U. change (inject_Z 100) with 100 in U.
    assert (Lo : 0 <= rnd (q / rnd (inject_Z n))).
    { change 0 with (rnd 0). apply rnd_mono. rewrite En.
      apply Qle_shift_div_l; [exact Pn | lra]. }
    assert (Hi : rnd (q / rnd (inject_Z n)) <= 100).
    { assert (C : rnd 100 = 100) by (vm_compute; reflexivity).
      rewrite <- C. apply rnd_mono. rewrite En.
      apply Qle_shift_div_r; [exact Pn | lra]. }
    split; [|intros X; discriminate X].
    split.
    + assert (H : (Qfloor 0 <= Qfloor (rnd (q / rnd (inject_Z n)) + (1 # 2)))%Z)
        by (apply Qfloor_resp_le; lra).
      exact H.
    + assert (H : (Qfloor (rnd (q / rnd (inject_Z n)) + (1 # 2))
                   <= Qfloor (100 + (1 # 2)))%Z)
        by (apply Qfloor_resp_le; lra).
      exact H.
Qed.

Lemma average_score_example :
  exists z,
    averageScore Scenario.dashboard_after = Finite (inject_Z z)
    /\ (0 <= z <= 100)%Z
    /\ (completedAttempts Scenario.dashboard_after = [] -> z = 0%Z).
Proof.
  apply (average_score_is_a_percentage Scenario.dashboard_after).
  - assert (E : attempts Scenario.dashboard_after
                = [Scenario.completed_attempt]) by (vm_compute; reflexivity).
    rewrite E. intros a [I|[]] _. subst a. unfold percentage.
    cbn [Scenario.completed_attempt complete Attempt.score]. lia.
  - assert (E : List.length (attempts Scenario.dashboard_after) = 1%nat)
      by (vm_compute; reflexivity).
    rewrite E. reflexivity.
Defined.

End Average.

(* ================================================================== *)
(** * The progress bar *)

Section Progress.

Import Number NumberFacts QuizTaking QuizCodeFacts.
Local Open Scope Q_scope.

Lemma below_one_double : rnd below_one == below_one.
Proof. vm_compute. reflexivity. Qed.

Lemma below_hundred : rnd (below_one * 100) < 100.
Proof. vm_compute. reflexivity. Qed.

(** X4: The progress bar shows a value above 0 and at most 100, and it is
    full on the last question only: before it, the quotient rounds to a
    double below 1 and its hundredfold to a double below 100. *)
Theorem progress_is_full_on_the_last_question_only st :
  (currentQuestionIndex st < List.length (questions st))%nat ->
  (Z.of_nat (List.length (questions st)) < 2 ^ 53)%Z ->
  exists p,
    progress st = Finite p
    /\ 0 < p /\ p <= 100
    /\ (p == 100
        <-> currentQuestionIndex st = (List.length (questions st) - 1)%nat).
Proof.
  intros Hi Hn. unfold progress, ofZ.
  set (i := Z.of_nat (currentQuestionIndex st + 1)).
  set (n := Z.of_nat (List.length (questions st))) in *.
  assert (Hin : (0 < i <= n)%Z) by (unfold i, n; lia).
  assert (Ei : rnd (inject_Z i) == inject_Z i) by (apply rnd_int; lia).
  assert (En : rnd (inject_Z n) == inject_Z n) by (apply rnd_int; lia).
  assert (Pi : 0 < inject_Z i) by (apply inject_Z_pos; lia).
  assert (Pn : 0 < inject_Z n) by (apply inject_Z_pos; lia).
  assert (Z0 : Qeq_bool (rnd (inject_Z n)) 0 = false).
  { destruct (Qeq_bool _ 0) eqn:X; [|reflexivity].
    apply Qeq_bool_eq in X. rewrite En in X. lra. }
  assert (C : rnd (inject_Z 100) = 100) by (vm_compute; reflexivity).
  unfold div. rewrite Z0. unfold mul. rewrite C.
  set (x := rnd (rnd (inject_Z i) / rnd (inject_Z n))).
  assert (Ex : x == rnd (inject_Z i / inject_Z n)).
  { unfold x. apply rnd_compat. rewrite Ei, En. reflexivity. }
  assert (Px : 0 < x).
  { rewrite Ex. apply rnd_positive. apply Qlt_shift_div_l; [exact Pn | lra]. }
  assert (C' : rnd 100 = 100) by (vm_compute; reflexivity).
  assert (C1 : rnd 1 = 1) by (vm_compute; reflexivity).
  eexists. split; [reflexivity|]. split.
  { apply rnd_positive. lra. }
  destruct (Z.eq_dec i n) as [E|N].
  - assert (X1 : x == 1).
    { rewrite Ex, E.
      setoid_replace (inject_Z n / inject_Z n) with 1 by (field; lra).
      rewrite C1. reflexivity. }
    assert (P : rnd (x * 100) == 100).
    { rewrite <- C' at 2. apply rnd_compat. rewrite X1. ring. }
    split; [rewrite P; apply Qle_refl|].
    split; [intros _; unfold i, n in E; lia | intros _; exact P].
  - assert (Hle : (i <= n - 1)%Z) by lia.
    assert (X1 : x <= below_one).
    { rewrite Ex, <- below_one_double. apply rnd_mono.
      apply Qle_shift_div_r; [exact Pn|].
      assert (A : inject_Z i <= inject_Z n - 1).
      { change 1 with (inject_Z 1). unfold Qminus.
        rewrite <- inject_Z_opp, <- inject_Z_plus, <- Zle_Qle. lia. }
      assert (B : inject_Z n <= inject_Z (2 ^ 53))
        by (rewrite <- Zle_Qle; lia).
      change (inject_Z (2 ^ 53)) with 9007199254740992 in B.
      change below_one with (9007199254740991 # 9007199254740992).
      lra. }
    assert (P : rnd (x * 100) < 100).
    { eapply Qle_lt_trans; [|exact below_hundred].
      apply rnd_mono. lra. }
    split; [lra|].
    split; [intros H; lra | intros H; unfold i, n in N; lia].
Qed.

Lemma progress_example :
  exists p,
    progress three_answers = Finite p
    /\ 0 < p /\ p <= 100
    /\ (p == 100
        <-> currentQuestionIndex three_answers
            = (List.length (questions three_answers) - 1)%nat).
Proof.
  apply (progress_is_full_on_the_last_question_only three_answers).
  - apply Nat.ltb_lt. vm_compute. reflexivity.
  - vm_compute. reflexivity.
Defined.

End Progress.

(* ================================================================== *)
(** * The quiz a join opens *)

Section JoinedQuiz.

Import Store StudentDashboard.
Local Open Scope string_scope.
Local Open Scope list_scope.

Lemma single_in {A} (p : A -> bool) l x :
  single (filter p l) = Data x -> In x l /\ p x = true.
Proof.
  intros H. destruct (filter p l) as [|y [|z t]] eqn:F; cbn [single] in H;
    try discriminate.
  injection H as H. subst y. apply filter_In. rewrite F. left. reflexivity.
Qed.

Lemma upper_truthy s :
  JsString.truthy (JsString.toUpperCase s) = JsString.truthy s.
Proof. destruct s; reflexivity. Qed.

Lemma trim_truthy s :
  JsString.truthy (JsString.trim s) = true -> JsString.truthy s = true.
Proof. destruct s; [discriminate | reflexivity]. Qed.

(** X18: When the join guard opens a quiz, it is an active quiz of the store
    whose code is the typed code in capitals, inside its window; in
    particular its code is not empty, so a quiz stored with an empty code
    is never opened from the dashboard. *)
Theorem joined_quiz_has_the_typed_code now student st be :
  activeView st = dashboard ->
  activeView (fst (handleJoinQuiz now student st be)) = quiz ->
  exists q,
    In q (quizzes (tables be))
    /\ selectedQuizId (fst (handleJoinQuiz now student st be))
       = Some (Quiz.id q)
    /\ Quiz.quiz_code q = JsString.toUpperCase (quizCode st)
    /\ Quiz.quiz_code q <> ""
    /\ Quiz.is_active q = true
    /\ not_yet_open now q = None
    /\ already_closed now q = None.
Proof.
  intros V. unfold handleJoinQuiz.
  destruct (negb (JsString.truthy (JsString.trim (quizCode st)))) eqn:T;
    cbn [fst]; [congruence|].
  apply negb_false_iff in T. apply trim_truthy in T.
  destruct (select_active_quiz_by_code be
              (JsString.toUpperCase (quizCode st))) as [q|e] eqn:S;
    [|cbn [fst setLoading activeView]; congruence].
  destruct (not_yet_open now q) eqn:O;
    [cbn [fst setLoading activeView]; congruence|].
  destruct (already_closed now q) eqn:C;
    [cbn [fst setLoading activeView]; congruence|].
  destruct (select_attempt be (Quiz.id q) student);
    [cbn [fst setLoading activeView]; congruence|].
  intros _. cbn [fst setLoading openQuiz selectedQuizId].
  unfold select_active_quiz_by_code in S.
  destruct (down be (SelectQuizByCode _)); [discriminate|].
  apply single_in in S. destruct S as [I P].
  apply andb_prop in P. destruct P as [P1 P2].
  apply String.eqb_eq in P1. apply Bool.eqb_prop in P2.
  exists q. repeat split; try assumption.
  rewrite P1. intros E.
  rewrite <- upper_truthy, E in T. discriminate.
Qed.

Lemma joined_quiz_example :
  exists q,
    In q (quizzes (tables Scenario.store))
    /\ selectedQuizId
         (fst (handleJoinQuiz Scenario.started "student-1"
                 (Scenario.typing "K7Q2ZD") Scenario.store))
       = Some (Quiz.id q)
    /\ Quiz.quiz_code q
       = JsString.toUpperCase (quizCode (Scenario.typing "K7Q2ZD"))
    /\ Quiz.quiz_code q <> ""
    /\ Quiz.is_active q = true
    /\ not_yet_open Scenario.started q = None
    /\ already_closed Scenario.started q = None.
Proof.
  apply (joined_quiz_has_the_typed_code Scenario.started "student-1"
           (Scenario.typing "K7Q2ZD") Scenario.store).
  - reflexivity.
  - vm_compute. reflexivity.
Defined.

End JoinedQuiz.

(* ================================================================== *)
(** * A start page that has just been loaded *)

Section FreshStartPage.

Import Store StoreFacts QuizAccess.
Local Open Scope string_scope.
Local Open Scope list_scope.

Lemma single_of_existing {A} (p : A -> bool) l :
  (List.length (filter p l) <= 1)%nat -> existsb p l = true ->
  exists x, single (filter p l) = Data x.
Proof.
  intros L E. apply existsb_true_filter in E.
  destruct (filter p l) as [|x [|y t]]; [contradiction| |].
  - exists x. reflexivity.
  - cbn [List.length] in L. lia.
Qed.

(** X23: A start page loaded for a signed-in student who has an attempt of the
    quiz knows it, when the lookup is served, and then never starts the
    quiz: the status is not "available", the button is "Quiz Not
    Available" and the handler leaves the view as it is. *)
Theorem fresh_start_page_refuses_attempted_quiz quizCode student be q now :
  Spec.one_attempt_per_pair (tables be) ->
  (forall quizId, down be (SelectAttempt quizId student) = false) ->
  quiz (fetchQuizInfo quizCode (Some student) initial be) = Some q ->
  existsb (same_pair (Quiz.id q) student) (quiz_attempts (tables be)) = true ->
  let st := fetchQuizInfo quizCode (Some student) initial be in
  existingAttempt st <> None
  /\ getStatusInfo now q st <> available
  /\ action_button now q st = quiz_not_available_button
  /\ activeView (fst (handleStartQuiz now (Some student) st)) = info.
Proof.
  intros Inv Up. unfold fetchQuizInfo.
  destruct (negb (JsString.truthy quizCode)); [discriminate|].
  destruct (select_quiz_by_code be (JsString.toUpperCase quizCode))
    as [q'|e]; cbn [quiz]; [|discriminate].
  intros Hq Has. injection Hq as Hq. subst q'.
  unfold select_attempt. rewrite Up.
  destruct (single_of_existing _ _ (Inv (Quiz.id q) student) Has) as (a & S).
  rewrite S. cbv zeta.
  split; [cbn [existingAttempt]; discriminate|].
  split.
  { unfold getStatusInfo. cbn [existingAttempt].
    destruct (negb (Quiz.is_active q)); [discriminate|].
    destruct (not_yet_open now q); [discriminate|].
    destruct (already_closed now q); discriminate. }
  split.
  { unfold action_button, canStart. cbn [existingAttempt].
    rewrite andb_false_r. reflexivity. }
  unfold handleStartQuiz. cbn [quiz existingAttempt].
  destruct (negb (Quiz.is_active q)); [reflexivity|].
  destruct (not_yet_open now q); [reflexivity|].
  destruct (already_closed now q); reflexivity.
Qed.

Lemma fresh_start_page_example :
  let st := fetchQuizInfo "k7q2zd" (Some "student-1") initial
              (snd (fst Scenario.session)) in
  existingAttempt st <> None
  /\ getStatusInfo Scenario.finished Scenario.the_quiz st <> available
  /\ action_button Scenario.finished Scenario.the_quiz st
     = quiz_not_available_button
  /\ activeView (fst (handleStartQuiz Scenario.finished (Some "student-1")
                        st)) = info.
Proof.
  apply (fresh_start_page_refuses_attempted_quiz "k7q2zd" "student-1"
           (snd (fst Scenario.session)) Scenario.the_quiz Scenario.finished).
  - assert (E : quiz_attempts (tables (snd (fst Scenario.session)))
                = [Scenario.completed_attempt]) by (vm_compute; reflexivity).
    intros quizId student. rewrite E. cbn [filter].
    destruct (same_pair quizId student Scenario.completed_attempt);
      cbn [List.length]; lia.
  - intros quizId. reflexivity.
  - vm_compute. reflexivity.
  - vm_compute. reflexivity.
Defined.

End FreshStartPage.

(* ================================================================== *)
(** * A quiz without questions *)

Section NoQuestions.

Import Number Store QuizTaking.
Local Open Scope string_scope.
Local Open Scope list_scope.

(** X13: For a quiz that has no question, the countdown still runs and the
    submission divides zero by zero: when the update is served, the toast
    announces [NaN] and the attempt is completed with no score at all. *)
Theorem quiz_without_questions_stores_no_score now later st be q :
  quiz st = Some q ->
  questions st = [] ->
  answers st = [] ->
  down be UpdateAttempt = false ->
  timer_effect (setTimeLeft 0 st) = submit
  /\ snd (submit_try now later st be) = [toast (submitted NaN); onCompleted]
  /\ forall a, In a (quiz_attempts (tables (fst (submit_try now later st be)))) ->
               id_is (attemptId st) (Attempt.id a) = true ->
               Attempt.is_completed a = true /\ Attempt.score a = None.
Proof.
  intros Hq Hn Ha Up. split.
  { unfold timer_effect. cbn [setTimeLeft timeLeft quiz]. rewrite Hq.
    reflexivity. }
  unfold submit_try. rewrite Hq, Ha, Hn.
  change (0 <? List.length (@nil (uuid * string)))%nat with false.
  cbv iota. unfold scoring_loop. cbn [fold_left List.length].
  assert (F : finalScore 0 0 = NaN) by (vm_compute; reflexivity).
  rewrite F. unfold update_attempt. rewrite Up.
  cbn [fst snd to_integer with_tables tables quiz_attempts].
  split; [reflexivity|]. intros a I H.
  destruct (OutcomeFacts.completed_rows _ _ _ _ _ _ I H) as (S & C & _).
  split; assumption.
Qed.

Lemma quiz_without_questions_example :
  let st := setLoading false
              (loaded Scenario.the_quiz [] "attempt-1" initial) in
  timer_effect (setTimeLeft 0 st) = submit
  /\ snd (submit_try Scenario.finished Scenario.finished st after_start)
     = [toast (submitted NaN); onCompleted]
  /\ forall a,
       In a (quiz_attempts
               (tables (fst (submit_try Scenario.finished Scenario.finished
                               st after_start)))) ->
       id_is (attemptId st) (Attempt.id a) = true ->
       Attempt.is_completed a = true /\ Attempt.score a = None.
Proof.
  apply (quiz_without_questions_stores_no_score Scenario.finished
           Scenario.finished
           (setLoading false (loaded Scenario.the_quiz [] "attempt-1" initial))
           after_start Scenario.the_quiz); reflexivity.
Defined.

End NoQuestions.
